(** * Booking concurrency core of the cinema booking API

    A shallow embedding of the ticket-sale and showtime-scheduling code
    (tickets.service.ts, ticket.repository.ts, showtimes.service.ts,
    showtime.repository.ts) together with the properties of the design
    document that concern it.

    Layout: JavaScript strings and regular expressions; the entities and
    the store; a state/exception monad that records a trace of store
    accesses; the repositories; the services; then the theorems. *)

From Stdlib Require Import ZArith Lia Ascii String List Sorted.
From stdpp Require Import base option gmap strings list fin_maps infinite.

Open Scope string_scope.
Open Scope list_scope.
Open Scope Z_scope.

(* ================================================================== *)
(** * JavaScript strings *)
(* ================================================================== *)

(** Strings are sequences of 7-bit ASCII characters carried by [string].
    [String.prototype.toUpperCase], [toLowerCase] and [trim] agree with
    the definitions below on such input. *)
Module Js.

Definition code (c : ascii) : N := N_of_ascii c.

(** [\s] restricted to ASCII: TAB, LF, VT, FF, CR and SPACE. *)
Definition isWhiteSpace (c : ascii) : bool :=
  ((9 <=? code c)%N && (code c <=? 13)%N) || (code c =? 32)%N.

Definition isUpper (c : ascii) : bool := (65 <=? code c)%N && (code c <=? 90)%N.
Definition isLower (c : ascii) : bool := (97 <=? code c)%N && (code c <=? 122)%N.
Definition isDigit (c : ascii) : bool := (48 <=? code c)%N && (code c <=? 57)%N.

Definition upperChar (c : ascii) : ascii :=
  if isLower c then ascii_of_N (code c - 32) else c.
Definition lowerChar (c : ascii) : ascii :=
  if isUpper c then ascii_of_N (code c + 32) else c.

Fixpoint mapChars (f : ascii → ascii) (s : string) : string :=
  match s with
  | EmptyString => EmptyString
  | String c s' => String (f c) (mapChars f s')
  end.

Definition toUpperCase : string → string := mapChars upperChar.
Definition toLowerCase : string → string := mapChars lowerChar.

Fixpoint trimStart (s : string) : string :=
  match s with
  | EmptyString => EmptyString
  | String c s' => if isWhiteSpace c then trimStart s' else s
  end.

Definition isEmpty (s : string) : bool :=
  match s with EmptyString => true | _ => false end.

Fixpoint trimEnd (s : string) : string :=
  match s with
  | EmptyString => EmptyString
  | String c s' =>
      let t := trimEnd s' in
      if isWhiteSpace c && isEmpty t then EmptyString else String c t
  end.

Definition trim (s : string) : string := trimEnd (trimStart s).

(** Truthiness of an optional string property: [undefined] and the empty
    string are falsy. *)
Definition truthy (o : option string) : bool :=
  match o with
  | Some s => negb (isEmpty s)
  | None => false
  end.

End Js.

(* ================================================================== *)
(** * Regular expressions *)
(* ================================================================== *)

(** The two patterns of the service are anchored at both ends and use
    character classes, concatenation and bounded or unbounded
    repetition. [RegExp.prototype.test] on such a pattern decides
    whether the whole string belongs to its language; it is computed
    here with Brzozowski derivatives. *)
Module Regex.

Inductive t : Type :=
| Void
| Eps
| Cls (p : ascii → bool)
| Cat (r1 r2 : t)
| Alt (r1 r2 : t)
| Star (r : t).

Fixpoint nullable (r : t) : bool :=
  match r with
  | Void => false
  | Eps => true
  | Cls _ => false
  | Cat r1 r2 => nullable r1 && nullable r2
  | Alt r1 r2 => nullable r1 || nullable r2
  | Star _ => true
  end.

Fixpoint deriv (c : ascii) (r : t) : t :=
  match r with
  | Void => Void
  | Eps => Void
  | Cls p => if p c then Eps else Void
  | Cat r1 r2 =>
      if nullable r1
      then Alt (Cat (deriv c r1) r2) (deriv c r2)
      else Cat (deriv c r1) r2
  | Alt r1 r2 => Alt (deriv c r1) (deriv c r2)
  | Star r1 => Cat (deriv c r1) (Star r1)
  end.

Fixpoint matches (r : t) (l : list ascii) : bool :=
  match l with
  | [] => nullable r
  | c :: l' => matches (deriv c r) l'
  end.

(** [/^r$/.test(s)] *)
Definition test (r : t) (s : string) : bool :=
  matches r (list_ascii_of_string s).

(** The language of a pattern, as a relation. *)
Inductive lang : t → list ascii → Prop :=
| lang_eps : lang Eps []
| lang_cls p c : p c = true → lang (Cls p) [c]
| lang_cat r1 r2 u v : lang r1 u → lang r2 v → lang (Cat r1 r2) (u ++ v)
| lang_alt_l r1 r2 u : lang r1 u → lang (Alt r1 r2) u
| lang_alt_r r1 r2 u : lang r2 u → lang (Alt r1 r2) u
| lang_star_nil r : lang (Star r) []
| lang_star_cons r u v : lang r u → lang (Star r) v → lang (Star r) (u ++ v).

(** Derived forms. *)
Definition chr (a : ascii) : t := Cls (λ c, Ascii.eqb c a).
(** [r+] *)
Definition plus (r : t) : t := Cat r (Star r).
(** [r{1,2}] *)
Definition rep_1_2 (r : t) : t := Cat r (Alt Eps r).
(** [r{1,3}] *)
Definition rep_1_3 (r : t) : t := Cat r (Alt Eps (Cat r (Alt Eps r))).

(** Every class of [r] gives the same answer on [f c] as on [c]. *)
Fixpoint respects (f : ascii → ascii) (r : t) : Prop :=
  match r with
  | Void | Eps => True
  | Cls p => ∀ c, p (f c) = p c
  | Cat r1 r2 | Alt r1 r2 => respects f r1 ∧ respects f r2
  | Star r1 => respects f r1
  end.

(** Every character accepted by a class of [r] satisfies [q]. *)
Fixpoint within (q : ascii → Prop) (r : t) : Prop :=
  match r with
  | Void | Eps => True
  | Cls p => ∀ c, p c = true → q c
  | Cat r1 r2 | Alt r1 r2 => within q r1 ∧ within q r2
  | Star r1 => within q r1
  end.

End Regex.

(* ================================================================== *)
(** * Entities and the store *)
(* ================================================================== *)

(** A row is kept under its primary key (a uuid string) in the table of
    its entity; the records below hold the remaining columns. Time
    stamps are milliseconds since the epoch, prices are hundredths. *)
Abbreviation entity A := (string * A)%type.

Inductive TicketStatus : Type := RESERVED | PURCHASED | CANCELLED.

Global Instance TicketStatus_eq_dec : EqDecision TicketStatus.
Proof. solve_decision. Defined.

Module Theater.
Record t : Type := mk { capacity : Z; is_active : bool }.
End Theater.

Module Movie.
Record t : Type := mk { duration : Z }.
End Movie.

Module Showtime.
Record t : Type := mk {
  start_time : Z;
  end_time : Z;
  price : Z;
  sold_tickets : Z;
  movie_id : string;
  theater_id : string
}.

(** A showtime loaded with [relations: ['theater', 'movie']]; a
    relation whose row is absent is [null]. *)
Record loaded : Type := Loaded {
  row : t;
  theater : option Theater.t;
  movie : option Movie.t
}.

Definition add_sold (n : Z) (s : t) : t :=
  mk (start_time s) (end_time s) (price s) (sold_tickets s + n)
     (movie_id s) (theater_id s).
End Showtime.

Module Ticket.
Record t : Type := mk {
  customer_name : string;
  customer_email : string;
  seat_number : string;
  status : TicketStatus;
  price : Z;
  showtime_id : string
}.

(** A ticket loaded with [relations: ['showtime']]. *)
Record loaded : Type := Loaded {
  row : t;
  showtime : option Showtime.t
}.

Definition set_status (st : TicketStatus) (x : t) : t :=
  mk (customer_name x) (customer_email x) (seat_number x) st (price x)
     (showtime_id x).
End Ticket.

Record Store : Type := mkStore {
  showtimes : gmap string Showtime.t;
  tickets : gmap string Ticket.t;
  theaters : gmap string Theater.t;
  movies : gmap string Movie.t
}.

Definition set_tickets (f : gmap string Ticket.t → gmap string Ticket.t)
    (s : Store) : Store :=
  mkStore (showtimes s) (f (tickets s)) (theaters s) (movies s).

Definition set_showtimes (f : gmap string Showtime.t → gmap string Showtime.t)
    (s : Store) : Store :=
  mkStore (f (showtimes s)) (tickets s) (theaters s) (movies s).

(* ================================================================== *)
(** * Exceptions *)
(* ================================================================== *)

Inductive exn : Type :=
| NotFoundException (message : string)
| BadRequestException (message : string)
| ConflictException (message : string)
| Error (message : string)
| TypeError (message : string).

Global Instance exn_eq_dec : EqDecision exn.
Proof. solve_decision. Defined.

Definition message (e : exn) : string :=
  match e with
  | NotFoundException m | BadRequestException m | ConflictException m
  | Error m | TypeError m => m
  end.

(** The error kinds of the design document, as the exceptions the
    services raise for them. *)
Definition SoldOut : exn :=
  BadRequestException "Showtime is sold out - no available seats".
Definition SeatTaken (seat : string) : exn :=
  BadRequestException ("Seat " +:+ seat +:+ " is already occupied").
Definition InvalidSeatFormat : exn :=
  BadRequestException
    "Invalid seat number format. Use format like: A-1, B-15, etc.".
Definition InvalidEmailFormat : exn :=
  BadRequestException "Invalid email format".
Definition InvalidTicketState : exn :=
  BadRequestException "Only purchased tickets can be cancelled".
Definition PurchasePastOrOngoing : exn :=
  BadRequestException "Cannot purchase tickets for past or ongoing showtimes".
Definition CancelPastOrOngoing : exn :=
  BadRequestException "Cannot cancel ticket for past or ongoing showtimes".
Definition UpdatePastOrOngoing : exn :=
  BadRequestException "Cannot update ticket for past or ongoing showtimes".
Definition AlreadyStarted : exn :=
  BadRequestException "Cannot update showtime that has already started".
Definition PastDate : exn :=
  BadRequestException "Cannot schedule showtime in the past".
Definition SchedulingConflict : exn :=
  ConflictException
    "Scheduling conflict: theater already has a showtime during this period".
Definition TheaterNotActive : exn :=
  BadRequestException "Theater is not active".
Definition ShowtimeNotFound (id : string) : exn :=
  NotFoundException ("Showtime with ID " +:+ id +:+ " not found").
Definition TicketNotFound (id : string) : exn :=
  NotFoundException ("Ticket with ID " +:+ id +:+ " not found").
Definition MovieNotFound (id : string) : exn :=
  NotFoundException ("Movie with ID " +:+ id +:+ " not found").
Definition TheaterNotFound (id : string) : exn :=
  NotFoundException ("Theater with ID " +:+ id +:+ " not found").

(** A name between double quotes. *)
Definition quoted (name : string) : string :=
  String (ascii_of_nat 34) (name +:+ String (ascii_of_nat 34) EmptyString).

(** [EntityPropertyNotFoundError] of TypeORM, an [Error]: a key of the
    partial entity handed to [update] is no property of the entity. *)
Definition EntityPropertyNotFoundError (propertyPath entity : string) : exn :=
  Error ("Property " +:+ quoted propertyPath +:+ " was not found in "
         +:+ quoted entity +:+ ". Make sure your query is correct.").

(* ================================================================== *)
(** * Store accesses and the operation monad *)
(* ================================================================== *)

(** The guards of the services and repositories, one per [if ... throw]. *)
Inductive guard : Type :=
| ShowtimeExists | TicketExists | MovieExists | TheaterExists
| StartInFuture | NewStartNotPast
| EmailFormat | SeatFormat
| Capacity | SeatFree | TicketPurchased
| NoConflict | TheaterActive.

(** What an operation does, in program order: the statements it sends
    to the store and the guards it evaluates. *)
Inductive event : Type :=
| Begin | Commit | Rollback
| SelectShowtime (id : string)
| SelectShowtimeForUpdate (id : string)
| SelectConflict (theater_id : string)
| SelectTicket (id : string)
| SelectSeat (showtime_id seat : string)
| SelectByEmail (email : string)
| SelectMovie (id : string)
| SelectTheater (id : string)
| InsertTicket (id : string)
| UpdateTicket (id : string)
| UpdateShowtime (id : string)
| Increment (showtime_id : string)
| Decrement (showtime_id : string)
| Validate (g : guard).

Global Instance guard_eq_dec : EqDecision guard.
Proof. solve_decision. Defined.
Global Instance event_eq_dec : EqDecision event.
Proof. solve_decision. Defined.

Inductive outcome (A : Type) : Type :=
| Return (a : A)
| Throw (e : exn).
Arguments Return {A} a.
Arguments Throw {A} e.

(** An operation maps the store to its outcome, the new store and the
    trace of what it did. *)
Definition IO (A : Type) : Type := Store → outcome A * Store * list event.

Definition ret {A} (a : A) : IO A := λ s, (Return a, s, []).
Definition throw {A} (e : exn) : IO A := λ s, (Throw e, s, []).

Definition bind {A B} (m : IO A) (k : A → IO B) : IO B := λ s,
  match m s with
  | (Return a, s1, t1) =>
      match k a s1 with
      | (r, s2, t2) => (r, s2, t1 ++ t2)
      end
  | (Throw e, s1, t1) => (Throw e, s1, t1)
  end.

Notation "'let!' x := m 'in' k" := (bind m (λ x, k))
  (at level 10, x pattern, m at level 100, k at level 200).
Notation "m ;; k" := (bind m (λ _, k))
  (at level 100, k at level 200, right associativity).

(** [try m catch (e) h] *)
Definition catch {A} (m : IO A) (h : exn → IO A) : IO A := λ s,
  match m s with
  | (Throw e, s1, t1) =>
      match h e s1 with
      | (r, s2, t2) => (r, s2, t1 ++ t2)
      end
  | r => r
  end.

(** [if (!ok) throw e] *)
Definition check (g : guard) (ok : bool) (e : exn) : IO unit := λ s,
  (if ok then Return tt else Throw e, s, [Validate g]).

(** [if (!x) throw e], after which [x] is known to be an entity. *)
Definition require {A} (g : guard) (x : option A) (e : exn) : IO A := λ s,
  (match x with Some a => Return a | None => Throw e end, s, [Validate g]).

(** [x.p] where [x] may be [null]. *)
Definition deref {A} (x : option A) (p : string) : IO A :=
  match x with
  | Some a => ret a
  | None =>
      throw (TypeError
        ("Cannot read properties of null (reading '" +:+ p +:+ "')"))
  end.

(** [dataSource.transaction(body)]: the statements of [body] are
    committed together, or none of them is when [body] throws. *)
Definition transaction {A} (body : IO A) : IO A := λ s,
  match body s with
  | (Return a, s1, t) => (Return a, s1, Begin :: t ++ [Commit])
  | (Throw e, _, t) => (Throw e, s, Begin :: t ++ [Rollback])
  end.

Definition result {A} (r : outcome A * Store * list event) : outcome A := r.1.1.
Definition store_after {A} (r : outcome A * Store * list event) : Store := r.1.2.
Definition trace {A} (r : outcome A * Store * list event) : list event := r.2.

(* ================================================================== *)
(** * The entity manager *)
(* ================================================================== *)

(** The statements the repositories send through TypeORM. Each one reads
    or writes the store once and leaves one event in the trace. A
    [findOne] or [getOne] that matches several rows returns the first of
    them in the order of the table. *)
Module Manager.

Definition loadShowtime (s : Store) (x : Showtime.t) : Showtime.loaded :=
  Showtime.Loaded x (theaters s !! Showtime.theater_id x)
                    (movies s !! Showtime.movie_id x).

Definition loadTicket (s : Store) (x : Ticket.t) : Ticket.loaded :=
  Ticket.Loaded x (showtimes s !! Ticket.showtime_id x).

(** [findOne(Showtime, { where: { id } })], with or without relations. *)
Definition findOneShowtime (id : string) : IO (option Showtime.loaded) := λ s,
  (Return (loadShowtime s <$> showtimes s !! id), s, [SelectShowtime id]).

(** [findOne(Showtime, { where: { id }, lock: { mode: 'pessimistic_write' } })]:
    [SELECT ... FOR UPDATE], which takes the row lock of the showtime
    until the transaction ends. *)
Definition findOneShowtimeForUpdate (id : string) : IO (option Showtime.t) := λ s,
  (Return (showtimes s !! id), s, [SelectShowtimeForUpdate id]).

(** [findOne(Ticket, { where: { id } })], with or without relations. *)
Definition findOneTicket (id : string) : IO (option Ticket.loaded) := λ s,
  (Return (loadTicket s <$> tickets s !! id), s, [SelectTicket id]).

(** [where: { showtime: { id }, seat_number, status: PURCHASED }] *)
Definition holdsSeat (showtimeId seat : string) (x : entity Ticket.t) : bool :=
  bool_decide (Ticket.showtime_id x.2 = showtimeId)
  && bool_decide (Ticket.seat_number x.2 = seat)
  && bool_decide (Ticket.status x.2 = PURCHASED).

Definition findOneTicketBySeat (showtimeId seat : string)
    : IO (option (entity Ticket.t)) := λ s,
  (Return (List.find (holdsSeat showtimeId seat) (map_to_list (tickets s))), s,
   [SelectSeat showtimeId seat]).

(** [find({ where: { customer_email } })]; the order of the rows is not
    modelled. *)
Definition findTicketsByEmail (email : string) : IO (list (entity Ticket.t)) := λ s,
  (Return
     (List.filter (λ x, bool_decide (Ticket.customer_email x.2 = email))
                  (map_to_list (tickets s))),
   s, [SelectByEmail email]).

(** [save(ticket)] of a new entity: the store generates the uuid. *)
Definition saveTicket (x : Ticket.t) : IO string := λ s,
  let id := fresh (dom (tickets s)) in
  (Return id, set_tickets (insert id x) s, [InsertTicket id]).

(** [update(Ticket, { id }, partial)] *)
Definition updateTicket (id : string) (f : Ticket.t → Ticket.t) : IO unit := λ s,
  (Return tt, set_tickets (alter f id) s, [UpdateTicket id]).

(** [increment(Showtime, { id }, 'sold_tickets', 1)] *)
Definition incrementSoldTickets (id : string) : IO unit := λ s,
  (Return tt, set_showtimes (alter (Showtime.add_sold 1) id) s, [Increment id]).

(** [decrement(Showtime, { id }, 'sold_tickets', 1)] *)
Definition decrementSoldTickets (id : string) : IO unit := λ s,
  (Return tt, set_showtimes (alter (Showtime.add_sold (-1)) id) s, [Decrement id]).

(** [update(Showtime, id, partial)] *)
Definition updateShowtime (id : string) (f : Showtime.t → Showtime.t) : IO unit := λ s,
  (Return tt, set_showtimes (alter f id) s, [UpdateShowtime id]).

Definition findOneMovie (id : string) : IO (option Movie.t) := λ s,
  (Return (movies s !! id), s, [SelectMovie id]).

Definition findOneTheater (id : string) : IO (option Theater.t) := λ s,
  (Return (theaters s !! id), s, [SelectTheater id]).

End Manager.

(* ================================================================== *)
(** * Data transfer objects *)
(* ================================================================== *)

Module PurchaseTicketDto.
Record t : Type := mk {
  customer_name : string;
  customer_email : string;
  seat_number : string
}.
End PurchaseTicketDto.

(** The [ticketData] object the service hands to the repository. *)
Module TicketData.
Record t : Type := mk {
  customer_name : string;
  customer_email : string;
  seat_number : string
}.
End TicketData.

(** [PartialType(CreateTicketDto)] with [status]; every property is
    optional. The [showtime_id] property is left out: the entity has no
    column property of that name. *)
Module UpdateTicketDto.
Record t : Type := mk {
  customer_name : option string;
  customer_email : option string;
  seat_number : option string;
  status : option TicketStatus
}.

(** The columns a partial entity sets; [undefined] leaves a column as
    it is. *)
Definition apply (d : t) (x : Ticket.t) : Ticket.t :=
  Ticket.mk (default (Ticket.customer_name x) (customer_name d))
            (default (Ticket.customer_email x) (customer_email d))
            (default (Ticket.seat_number x) (seat_number d))
            (default (Ticket.status x) (status d))
            (Ticket.price x)
            (Ticket.showtime_id x).
End UpdateTicketDto.

(** [PartialType(CreateShowtimeDto)]; [start_time] is the date the
    string of the request denotes. *)
Module UpdateShowtimeDto.
Record t : Type := mk {
  movie_id : option string;
  theater_id : option string;
  start_time : option Z;
  price : option Z
}.
End UpdateShowtimeDto.

(** The [updateData] object of the showtime service, a
    [Partial<Showtime>] that also carries the [movie_id] and
    [theater_id] of the request. The entity [Showtime] has the relations
    [movie] and [theater] and no property [movie_id] or [theater_id]. *)
Module ShowtimeData.
Record t : Type := mk {
  movie_id : option string;
  theater_id : option string;
  start_time : option Z;
  end_time : option Z;
  price : option Z
}.

(** The first key of the object that is no property of [Showtime]; the
    keys are taken in the order the DTO class declares them. *)
Definition unknownProperty (d : t) : option string :=
  match movie_id d, theater_id d with
  | Some _, _ => Some "movie_id"
  | None, Some _ => Some "theater_id"
  | None, None => None
  end.

(** The columns the object sets; [undefined] leaves a column as it
    is. *)
Definition apply (d : t) (x : Showtime.t) : Showtime.t :=
  Showtime.mk (default (Showtime.start_time x) (start_time d))
              (default (Showtime.end_time x) (end_time d))
              (default (Showtime.price x) (price d))
              (Showtime.sold_tickets x)
              (Showtime.movie_id x)
              (Showtime.theater_id x).
End ShowtimeData.

(* ================================================================== *)
(** * Repositories *)
(* ================================================================== *)

Module TicketsRepository.

Definition findById (id : string) : IO (option Ticket.t) :=
  let! x := Manager.findOneTicket id in
  ret (Ticket.row <$> x).

Definition findWithShowtimeDetails (id : string) : IO (option Ticket.loaded) :=
  Manager.findOneTicket id.

Definition findByShowtimeAndSeat (showtimeId seatNumber : string)
    : IO (option (entity Ticket.t)) :=
  Manager.findOneTicketBySeat showtimeId seatNumber.

Definition findByCustomerEmail (email : string) : IO (list (entity Ticket.t)) :=
  Manager.findTicketsByEmail email.

Definition update (id : string) (ticketData : UpdateTicketDto.t) : IO Ticket.t :=
  Manager.updateTicket id (UpdateTicketDto.apply ticketData);;
  let! ticket := findById id in
  require TicketExists ticket (Error ("Ticket with id " +:+ id +:+ " not found")).

Definition purchaseTicketWithTransaction (showtimeId : string)
    (ticketData : TicketData.t)
    : IO (option Ticket.loaded * Showtime.loaded) :=
  transaction (
    (* lock the showtime record *)
    let! lockedShowtime := Manager.findOneShowtimeForUpdate showtimeId in
    require ShowtimeExists lockedShowtime
      (Error ("Showtime with ID " +:+ showtimeId +:+ " not found"));;
    (* fetch the showtime with its relations *)
    let! showtime := Manager.findOneShowtime showtimeId in
    let! showtime := require ShowtimeExists showtime
      (Error ("Showtime with ID " +:+ showtimeId +:+ " not found")) in
    (* check capacity *)
    let! theater := deref (Showtime.theater showtime) "capacity" in
    check Capacity
      (negb (Showtime.sold_tickets (Showtime.row showtime)
             >=? Theater.capacity theater)%Z)
      SoldOut;;
    (* check if the seat is already taken *)
    let! existingTicket :=
      Manager.findOneTicketBySeat showtimeId (TicketData.seat_number ticketData) in
    check SeatFree (negb (bool_decide (is_Some existingTicket)))
      (SeatTaken (TicketData.seat_number ticketData));;
    (* create the ticket *)
    let ticket :=
      Ticket.mk (TicketData.customer_name ticketData)
                (TicketData.customer_email ticketData)
                (TicketData.seat_number ticketData)
                PURCHASED
                (Showtime.price (Showtime.row showtime))
                showtimeId in
    let! savedTicket := Manager.saveTicket ticket in
    (* increment the sold tickets counter *)
    Manager.incrementSoldTickets showtimeId;;
    (* load the complete ticket *)
    let! completeTicket := Manager.findOneTicket savedTicket in
    ret (completeTicket, showtime)).

Definition cancelTicketWithTransaction (ticketId : string)
    : IO (option Ticket.loaded) :=
  transaction (
    let! ticket := Manager.findOneTicket ticketId in
    let! ticket := require TicketExists ticket
      (Error ("Ticket with ID " +:+ ticketId +:+ " not found")) in
    check TicketPurchased
      (bool_decide (Ticket.status (Ticket.row ticket) = PURCHASED))
      (Error "Only purchased tickets can be cancelled");;
    (* update the ticket status to cancelled *)
    Manager.updateTicket ticketId (Ticket.set_status CANCELLED);;
    (* decrement the sold tickets counter *)
    deref (Ticket.showtime ticket) "id";;
    Manager.decrementSoldTickets (Ticket.showtime_id (Ticket.row ticket));;
    (* return the updated ticket *)
    Manager.findOneTicket ticketId).

End TicketsRepository.

Module ShowtimesRepository.

Definition findById (id : string) : IO (option Showtime.t) :=
  let! x := Manager.findOneShowtime id in
  ret (Showtime.row <$> x).

Definition findWithRelations (id : string) : IO (option Showtime.loaded) :=
  Manager.findOneShowtime id.

(** The [WHERE] clause of the conflict query, over a row of the
    showtimes table inner-joined with its theater. *)
Definition conflictsWith (s : Store) (theaterId : string)
    (startTime endTime : Z) (excludeId : option string)
    (x : entity Showtime.t) : bool :=
  bool_decide (is_Some (theaters s !! Showtime.theater_id x.2))
  && bool_decide (Showtime.theater_id x.2 = theaterId)
  && (Showtime.start_time x.2 <? endTime)%Z
  && (Showtime.end_time x.2 >? startTime)%Z
  && match excludeId with
     | Some e => if Js.isEmpty e then true else negb (bool_decide (x.1 = e))
     | None => true
     end.

Definition findConflictingShowtime (theaterId : string)
    (startTime endTime : Z) (excludeId : option string)
    : IO (option (entity Showtime.t)) := λ s,
  (Return (List.find (conflictsWith s theaterId startTime endTime excludeId)
                     (map_to_list (showtimes s))),
   s, [SelectConflict theaterId]).

(** [Repository.update] builds its [SET] clause from the keys of the
    partial entity and throws on a key that is no property of the
    entity, before any statement is sent. *)
Definition update (id : string) (showtimeData : ShowtimeData.t) : IO Showtime.t :=
  match ShowtimeData.unknownProperty showtimeData with
  | Some propertyPath =>
      throw (EntityPropertyNotFoundError propertyPath "Showtime")
  | None => Manager.updateShowtime id (ShowtimeData.apply showtimeData)
  end;;
  let! updatedShowtime := findById id in
  require ShowtimeExists updatedShowtime
    (Error ("Showtime with id " +:+ id +:+ " not found")).

End ShowtimesRepository.

Module TheatersRepository.

Definition findById (id : string) : IO (option Theater.t) :=
  Manager.findOneTheater id.

End TheatersRepository.

Module MoviesRepository.

(** [findOne({ where: { id } })] on the movies table. *)
Definition findById (id : string) : IO (option Movie.t) :=
  Manager.findOneMovie id.

End MoviesRepository.

(* ================================================================== *)
(** * Services *)
(* ================================================================== *)

(** The services read the clock with [new Date()]; the operations below
    take that instant as [now]. *)

Module TicketsService.

(** [[^\s@]] *)
Definition notSpaceOrAt (c : ascii) : bool :=
  negb (Js.isWhiteSpace c || Ascii.eqb c "@").

(** [/^[^\s@]+@[^\s@]+\.[^\s@]+$/] *)
Definition emailRegex : Regex.t :=
  Regex.Cat (Regex.plus (Regex.Cls notSpaceOrAt))
    (Regex.Cat (Regex.chr "@")
      (Regex.Cat (Regex.plus (Regex.Cls notSpaceOrAt))
        (Regex.Cat (Regex.chr ".")
          (Regex.plus (Regex.Cls notSpaceOrAt))))).

(** [/^[A-Z]{1,2}-\d{1,3}$/] *)
Definition seatRegex : Regex.t :=
  Regex.Cat (Regex.rep_1_2 (Regex.Cls Js.isUpper))
    (Regex.Cat (Regex.chr "-")
      (Regex.rep_1_3 (Regex.Cls Js.isDigit))).

Definition isValidEmail (email : string) : bool :=
  Regex.test emailRegex email.

Definition isValidSeatNumber (seatNumber : string) : bool :=
  Regex.test seatRegex (Js.toUpperCase seatNumber).

Definition purchaseTicket (now : Z) (showtimeId : string)
    (purchaseTicketDto : PurchaseTicketDto.t) : IO (option Ticket.loaded) :=
  let customer_name := PurchaseTicketDto.customer_name purchaseTicketDto in
  let customer_email := PurchaseTicketDto.customer_email purchaseTicketDto in
  let seat_number := PurchaseTicketDto.seat_number purchaseTicketDto in
  (* the showtime exists *)
  let! showtime := ShowtimesRepository.findWithRelations showtimeId in
  let! showtime := require ShowtimeExists showtime (ShowtimeNotFound showtimeId) in
  (* no tickets for past showtimes *)
  check StartInFuture
    (negb (Showtime.start_time (Showtime.row showtime) <=? now)%Z)
    PurchasePastOrOngoing;;
  check EmailFormat (isValidEmail customer_email) InvalidEmailFormat;;
  check SeatFormat (isValidSeatNumber seat_number) InvalidSeatFormat;;
  (* prepare clean ticket data *)
  let ticketData :=
    TicketData.mk (Js.trim customer_name)
                  (Js.trim (Js.toLowerCase customer_email))
                  (Js.toUpperCase (Js.trim seat_number)) in
  let! r := TicketsRepository.purchaseTicketWithTransaction showtimeId ticketData in
  ret r.1.

Definition findByCustomerEmail (email : string) : IO (list (entity Ticket.t)) :=
  check EmailFormat (isValidEmail email) InvalidEmailFormat;;
  TicketsRepository.findByCustomerEmail (Js.trim (Js.toLowerCase email)).

(** [if (x) x = f(x)] on an optional property. *)
Definition clean (f : string → string) (x : option string) : option string :=
  if Js.truthy x then f <$> x else x.

Definition update (now : Z) (id : string) (updateTicketDto : UpdateTicketDto.t)
    : IO Ticket.t :=
  let! existingTicket := TicketsRepository.findById id in
  let! existingTicket := require TicketExists existingTicket (TicketNotFound id) in
  let! ticketWithShowtime := TicketsRepository.findWithShowtimeDetails id in
  let! ticketWithShowtime :=
    require TicketExists ticketWithShowtime (TicketNotFound id) in
  let! showtime := deref (Ticket.showtime ticketWithShowtime) "start_time" in
  check StartInFuture (negb (Showtime.start_time showtime <=? now)%Z)
    UpdatePastOrOngoing;;
  (* if changing seat, validate the new seat is available *)
  match UpdateTicketDto.seat_number updateTicketDto with
  | Some seat =>
      if negb (Js.isEmpty seat)
         && negb (bool_decide (seat = Ticket.seat_number existingTicket))
      then
        let! seatTaken :=
          TicketsRepository.findByShowtimeAndSeat
            (Ticket.showtime_id (Ticket.row ticketWithShowtime)) seat in
        check SeatFree (negb (bool_decide (is_Some seatTaken))) (SeatTaken seat);;
        check SeatFormat (isValidSeatNumber seat) InvalidSeatFormat
      else ret tt
  | None => ret tt
  end;;
  (* if changing email, validate its format *)
  match UpdateTicketDto.customer_email updateTicketDto with
  | Some email =>
      if negb (Js.isEmpty email)
      then check EmailFormat (isValidEmail email) InvalidEmailFormat
      else ret tt
  | None => ret tt
  end;;
  (* clean up data *)
  let cleaned :=
    UpdateTicketDto.mk
      (clean Js.trim (UpdateTicketDto.customer_name updateTicketDto))
      (clean (λ e, Js.trim (Js.toLowerCase e))
             (UpdateTicketDto.customer_email updateTicketDto))
      (clean (λ x, Js.toUpperCase (Js.trim x))
             (UpdateTicketDto.seat_number updateTicketDto))
      (UpdateTicketDto.status updateTicketDto) in
  TicketsRepository.update id cleaned.

Definition cancelTicket (now : Z) (id : string) : IO (option Ticket.loaded) :=
  let! ticket := TicketsRepository.findWithShowtimeDetails id in
  let! ticket := require TicketExists ticket (TicketNotFound id) in
  (* no cancellation for past or ongoing showtimes *)
  let! showtime := deref (Ticket.showtime ticket) "start_time" in
  check StartInFuture (negb (Showtime.start_time showtime <=? now)%Z)
    CancelPastOrOngoing;;
  (* only purchased tickets can be cancelled *)
  check TicketPurchased
    (bool_decide (Ticket.status (Ticket.row ticket) = PURCHASED))
    InvalidTicketState;;
  catch (TicketsRepository.cancelTicketWithTransaction id)
        (λ error, throw (BadRequestException (message error))).

End TicketsService.

Module ShowtimesService.

(** [addMinutes(date, amount)] of date-fns, on millisecond time stamps. *)
Definition addMinutes (date amount : Z) : Z := date + amount * 60000.

(** [a || b] on string properties, where [b] may throw. *)
Definition orElse (a : option string) (b : IO string) : IO string :=
  match a with
  | Some x => if Js.isEmpty x then b else ret x
  | None => b
  end.

Definition update (now : Z) (id : string) (updateShowtimeDto : UpdateShowtimeDto.t)
    : IO Showtime.t :=
  let! existingShowtime := ShowtimesRepository.findWithRelations id in
  let! existingShowtime :=
    require ShowtimeExists existingShowtime (ShowtimeNotFound id) in
  let existing := Showtime.row existingShowtime in
  (* cannot update a showtime that has already started *)
  check StartInFuture (negb (Showtime.start_time existing <=? now)%Z)
    AlreadyStarted;;
  (* if updating the start time, it must not be in the past *)
  match UpdateShowtimeDto.start_time updateShowtimeDto with
  | Some newStartTime => check NewStartNotPast (negb (newStartTime <? now)%Z) PastDate
  | None => ret tt
  end;;
  let updateData :=
    ShowtimeData.mk (UpdateShowtimeDto.movie_id updateShowtimeDto)
                    (UpdateShowtimeDto.theater_id updateShowtimeDto)
                    (UpdateShowtimeDto.start_time updateShowtimeDto)
                    None
                    (UpdateShowtimeDto.price updateShowtimeDto) in
  (* if changing movie or start time, recalculate the end time *)
  let! updateData :=
    if Js.truthy (UpdateShowtimeDto.movie_id updateShowtimeDto)
       || bool_decide (is_Some (UpdateShowtimeDto.start_time updateShowtimeDto))
    then
      let! movieId :=
        orElse (UpdateShowtimeDto.movie_id updateShowtimeDto)
               (deref (Showtime.movie existingShowtime) "id";;
                ret (Showtime.movie_id existing)) in
      let! movie := MoviesRepository.findById movieId in
      let! movie := require MovieExists movie (MovieNotFound movieId) in
      let startTime :=
        default (Showtime.start_time existing)
                (UpdateShowtimeDto.start_time updateShowtimeDto) in
      let endTime := addMinutes startTime (Movie.duration movie) in
      let updateData :=
        ShowtimeData.mk (ShowtimeData.movie_id updateData)
                        (ShowtimeData.theater_id updateData)
                        (Some startTime) (Some endTime)
                        (ShowtimeData.price updateData) in
      (* check for conflicts if changing theater, movie, or time *)
      let! theaterId :=
        orElse (UpdateShowtimeDto.theater_id updateShowtimeDto)
               (deref (Showtime.theater existingShowtime) "id";;
                ret (Showtime.theater_id existing)) in
      let! conflictingShowtime :=
        ShowtimesRepository.findConflictingShowtime theaterId startTime endTime
          (Some id) in
      check NoConflict (negb (bool_decide (is_Some conflictingShowtime)))
        SchedulingConflict;;
      ret updateData
    else ret updateData in
  (* if changing theater, it must exist and be active *)
  match UpdateShowtimeDto.theater_id updateShowtimeDto with
  | Some theaterId =>
      if negb (Js.isEmpty theaterId)
      then
        let! theater := TheatersRepository.findById theaterId in
        let! theater := require TheaterExists theater (TheaterNotFound theaterId) in
        check TheaterActive (Theater.is_active theater) TheaterNotActive
      else ret tt
  | None => ret tt
  end;;
  ShowtimesRepository.update id updateData.

End ShowtimesService.

(* ================================================================== *)
(** * Properties of the store and of traces *)
(* ================================================================== *)

(** [count(tickets where showtime_id = showtimeId and status = Purchased)] *)
Definition isPurchasedFor (showtimeId : string) (x : entity Ticket.t) : Prop :=
  Ticket.showtime_id x.2 = showtimeId ∧ Ticket.status x.2 = PURCHASED.

Global Instance isPurchasedFor_dec showtimeId x :
  Decision (isPurchasedFor showtimeId x).
Proof. unfold isPurchasedFor. apply _. Defined.

Definition countPurchased (m : gmap string Ticket.t) (showtimeId : string) : Z :=
  Z.of_nat (size (filter (isPurchasedFor showtimeId) m)).

Definition purchasedCount (s : Store) (showtimeId : string) : Z :=
  countPurchased (tickets s) showtimeId.

(** Counter consistency. *)
Definition counterConsistent (s : Store) : Prop :=
  ∀ id x, showtimes s !! id = Some x →
    Showtime.sold_tickets x = purchasedCount s id.

(** [soldTickets] does not exceed [theater.capacity]. *)
Definition withinCapacity (s : Store) : Prop :=
  ∀ id x th, showtimes s !! id = Some x →
    theaters s !! Showtime.theater_id x = Some th →
    Showtime.sold_tickets x ≤ Theater.capacity th.

(** A Purchased ticket of the showtime holds the seat. *)
Definition seatHeld (s : Store) (showtimeId seat : string) : Prop :=
  ∃ id x, tickets s !! id = Some x ∧
    Ticket.showtime_id x = showtimeId ∧
    Ticket.seat_number x = seat ∧
    Ticket.status x = PURCHASED.

(** No duplicate seats. *)
Definition seatsDistinct (s : Store) : Prop :=
  ∀ id1 id2 x1 x2,
    tickets s !! id1 = Some x1 → tickets s !! id2 = Some x2 →
    Ticket.status x1 = PURCHASED → Ticket.status x2 = PURCHASED →
    Ticket.showtime_id x1 = Ticket.showtime_id x2 →
    Ticket.seat_number x1 = Ticket.seat_number x2 →
    id1 = id2.

(** Half-open intervals [[s1,e1)] and [[s2,e2)] overlap. *)
Definition overlap (s1 e1 s2 e2 : Z) : Prop := s1 < e2 ∧ s2 < e1.

(** The showtimes of a theater that the conflict detector may report for
    a candidate interval. *)
Definition reportable (s : Store) (theaterId : string) (startTime endTime : Z)
    (excludeId : option string) (x : entity Showtime.t) : Prop :=
  showtimes s !! x.1 = Some x.2 ∧
  Showtime.theater_id x.2 = theaterId ∧
  is_Some (theaters s !! theaterId) ∧
  overlap startTime endTime (Showtime.start_time x.2) (Showtime.end_time x.2) ∧
  (Js.truthy excludeId = true → excludeId ≠ Some x.1).

(** The pattern of 1-2 letters, a hyphen, and 1-3 digits. *)
Definition seatPattern (s : string) : Prop :=
  ∃ letters digits : list ascii,
    list_ascii_of_string s = letters ++ "-"%char :: digits ∧
    (1 ≤ length letters ≤ 2)%nat ∧
    Forall (λ c, Js.isUpper c = true) letters ∧
    (1 ≤ length digits ≤ 3)%nat ∧
    Forall (λ c, Js.isDigit c = true) digits.

(** The row lock of a showtime is taken by the locking read and
    released when the transaction ends. *)
Definition lockAfter (showtimeId : string) (held : bool) (e : event) : bool :=
  match e with
  | SelectShowtimeForUpdate id => held || bool_decide (id = showtimeId)
  | Commit | Rollback => false
  | _ => held
  end.

(** Whether the lock is held after the events [pre]. *)
Fixpoint lockHeld (showtimeId : string) (held : bool) (pre : list event) : bool :=
  match pre with
  | [] => held
  | e :: pre' => lockHeld showtimeId (lockAfter showtimeId held e) pre'
  end.

(** Every event of [t] selected by [P] happens while the lock of the
    showtime is held ([b = true]), or while it is not ([b = false]). *)
Definition lockedAt (showtimeId : string) (b : bool) (P : event → bool)
    (t : list event) : Prop :=
  ∀ pre e post, t = pre ++ e :: post → P e = true →
    lockHeld showtimeId false pre = b.

Definition underLock (showtimeId : string) := lockedAt showtimeId true.
Definition outsideLock (showtimeId : string) := lockedAt showtimeId false.

(** The same, as a check along the trace. *)
Fixpoint lockedAtb (showtimeId : string) (b : bool) (P : event → bool)
    (held : bool) (t : list event) : bool :=
  match t with
  | [] => true
  | e :: t' =>
      (if P e then Bool.eqb held b else true)
      && lockedAtb showtimeId b P (lockAfter showtimeId held e) t'
  end.

(** The read-and-check steps 2 to 5 of a purchase: the re-read of the
    showtime, the start-time validation, the capacity validation and the
    seat-occupancy validation. *)
Definition readAndCheck (showtimeId : string) (e : event) : bool :=
  match e with
  | SelectShowtime id => bool_decide (id = showtimeId)
  | Validate StartInFuture | Validate Capacity | Validate SeatFree => true
  | SelectSeat id _ => bool_decide (id = showtimeId)
  | _ => false
  end.

(** Those of them that decide admission: the capacity and the
    seat-occupancy validation, with the query of the latter. *)
Definition admissionCheck (showtimeId : string) (e : event) : bool :=
  match e with
  | Validate Capacity | Validate SeatFree => true
  | SelectSeat id _ => bool_decide (id = showtimeId)
  | _ => false
  end.

Definition isStartCheck (e : event) : bool :=
  match e with Validate StartInFuture => true | _ => false end.

Definition isLockingRead (e : event) : bool :=
  match e with SelectShowtimeForUpdate _ => true | _ => false end.

(** The two halves of the cancel transaction: its read with the guards,
    and its writes. *)
Definition cancelRead (ticketId : string) : IO Ticket.loaded :=
  let! ticket := Manager.findOneTicket ticketId in
  let! ticket := require TicketExists ticket
    (Error ("Ticket with ID " +:+ ticketId +:+ " not found")) in
  check TicketPurchased
    (bool_decide (Ticket.status (Ticket.row ticket) = PURCHASED))
    (Error "Only purchased tickets can be cancelled");;
  ret ticket.

Definition cancelWrite (ticketId : string) (ticket : Ticket.loaded)
    : IO (option Ticket.loaded) :=
  Manager.updateTicket ticketId (Ticket.set_status CANCELLED);;
  deref (Ticket.showtime ticket) "id";;
  Manager.decrementSoldTickets (Ticket.showtime_id (Ticket.row ticket));;
  Manager.findOneTicket ticketId.

(** Two cancel transactions of one ticket, the second reading before the
    first has written: first reads, second reads, first writes, second
    writes. Nothing in either transaction makes the second wait before
    its read, so the store admits this order of statements. *)
Definition interleavedCancels (ticketId : string) : IO (option Ticket.loaded) :=
  let! ticket1 := cancelRead ticketId in
  let! ticket2 := cancelRead ticketId in
  cancelWrite ticketId ticket1;;
  cancelWrite ticketId ticket2.

(** Sequences of committed purchase and cancel requests. *)
Inductive request : Type :=
| Purchase (now : Z) (showtimeId : string) (dto : PurchaseTicketDto.t)
| Cancel (now : Z) (ticketId : string).

Definition serve (r : request) (s : Store) : Store :=
  match r with
  | Purchase now showtimeId dto =>
      store_after (TicketsService.purchaseTicket now showtimeId dto s)
  | Cancel now ticketId =>
      store_after (TicketsService.cancelTicket now ticketId s)
  end.

Definition serveAll (rs : list request) (s : Store) : Store :=
  foldl (λ s r, serve r s) s rs.

(** The ticket a purchase inserts and the store it leaves. *)
Definition newTicket (x : Showtime.t) (showtimeId : string) (d : TicketData.t)
    : Ticket.t :=
  Ticket.mk (TicketData.customer_name d) (TicketData.customer_email d)
            (TicketData.seat_number d) PURCHASED (Showtime.price x) showtimeId.

Definition purchased (s : Store) (x : Showtime.t) (showtimeId : string)
    (d : TicketData.t) : Store :=
  mkStore (alter (Showtime.add_sold 1) showtimeId (showtimes s))
          (<[fresh (dom (tickets s)) := newTicket x showtimeId d]> (tickets s))
          (theaters s) (movies s).

(** The store a cancellation of ticket [x] leaves. *)
Definition cancelled (s : Store) (ticketId : string) (x : Ticket.t) : Store :=
  mkStore (alter (Showtime.add_sold (-1)) (Ticket.showtime_id x) (showtimes s))
          (alter (Ticket.set_status CANCELLED) ticketId (tickets s))
          (theaters s) (movies s).

(** The [ticketData] a purchase request is cleaned to. *)
Definition cleanData (dto : PurchaseTicketDto.t) : TicketData.t :=
  TicketData.mk
    (Js.trim (PurchaseTicketDto.customer_name dto))
    (Js.trim (Js.toLowerCase (PurchaseTicketDto.customer_email dto)))
    (Js.toUpperCase (Js.trim (PurchaseTicketDto.seat_number dto))).

(* ================================================================== *)
(** * A sample box office *)
(* ================================================================== *)

(** One hall of two seats, one showtime starting at instant 1000 with
    seat A-1 sold to Ann. *)
Definition hall : Theater.t := Theater.mk 2 true.
Definition feature : Movie.t := Movie.mk 120.
Definition evening : Showtime.t := Showtime.mk 1000 7201000 1550 1 "m1" "t1".
Definition annTicket : Ticket.t :=
  Ticket.mk "Ann" "ann@x.io" "A-1" PURCHASED 1550 "s1".

Definition boxOffice : Store :=
  mkStore {["s1" := evening]} {["k1" := annTicket]} {["t1" := hall]}
          {["m1" := feature]}.

(** The same showtime with both seats sold. *)
Definition bobTicket : Ticket.t :=
  Ticket.mk "Bob" "bob@x.io" "A-2" PURCHASED 1550 "s1".

Definition fullHouse : Store :=
  mkStore {["s1" := Showtime.add_sold 1 evening]}
          (<["k1" := annTicket]> {["k2" := bobTicket]})
          {["t1" := hall]} {["m1" := feature]}.

(** Two halls showing the feature over the same interval. *)
Definition matinee : Showtime.t := Showtime.mk 1000 7201000 1200 0 "m1" "t2".

Definition twoHalls : Store :=
  mkStore (<["s1" := evening]> {["s2" := matinee]})
          {["k1" := annTicket]}
          (<["t1" := hall]> {["t2" := hall]})
          {["m1" := feature]}.

(** The sample box office after Ann's ticket has been cancelled. *)
Definition refunded : Store :=
  mkStore {["s1" := Showtime.add_sold (-1) evening]}
          {["k1" := Ticket.set_status CANCELLED annTicket]}
          {["t1" := hall]} {["m1" := feature]}.

(* ================================================================== *)
(** * The rest of the repositories and services *)
(* ================================================================== *)

(** The statements below are not part of the ticket-sale transactions;
    they leave no event in the trace. Foreign keys are declared
    [ON DELETE NO ACTION] by the migration: deleting a row that another
    row refers to fails in the store. *)
Module Statements.

Definition set_theaters (f : gmap string Theater.t → gmap string Theater.t)
    (s : Store) : Store :=
  mkStore (showtimes s) (tickets s) (f (theaters s)) (movies s).

Definition foreignKeyViolation (table constraint referrer : string) : exn :=
  Error ("update or delete on table " +:+ quoted table
         +:+ " violates foreign key constraint " +:+ quoted constraint
         +:+ " on table " +:+ quoted referrer).

(** [insertBy le a l] and [orderBy le l]: [ORDER BY ... ASC] under the
    order [le] of the store. *)
Fixpoint insertBy {A} (le : A → A → bool) (a : A) (l : list A) : list A :=
  match l with
  | [] => [a]
  | b :: l' => if le a b then a :: l else b :: insertBy le a l'
  end.

Definition orderBy {A} (le : A → A → bool) (l : list A) : list A :=
  foldr (insertBy le) [] l.

(** [delete(id)] on the tickets table. *)
Definition deleteTicket (id : string) : IO unit := λ s,
  (Return tt, set_tickets (delete id) s, []).

Definition refersToShowtime (id : string) (x : entity Ticket.t) : bool :=
  bool_decide (Ticket.showtime_id x.2 = id).

(** [delete(id)] on the showtimes table. *)
Definition deleteShowtime (id : string) : IO unit := λ s,
  if existsb (refersToShowtime id) (map_to_list (tickets s))
  then (Throw (foreignKeyViolation "showtimes" "FK_cc00614628df6890e74ac420486"
                 "tickets"), s, [])
  else (Return tt, set_showtimes (delete id) s, []).

Definition refersToTheater (id : string) (x : entity Showtime.t) : bool :=
  bool_decide (Showtime.theater_id x.2 = id).

(** [delete(id)] on the theaters table. *)
Definition deleteTheater (id : string) : IO unit := λ s,
  if existsb (refersToTheater id) (map_to_list (showtimes s))
  then (Throw (foreignKeyViolation "theaters" "FK_442e7b97bf05cb6e1a3fd3746d4"
                 "showtimes"), s, [])
  else (Return tt, set_theaters (delete id) s, []).

(** The range of an [integer] column, and the error of the store for a
    value outside it. *)
Definition minInteger : Z := -2147483648.
Definition maxInteger : Z := 2147483647.

Definition IntegerOutOfRange : exn := Error "integer out of range".

(** [increment({ id }, 'sold_tickets', n)] and [decrement] on the
    showtimes table, outside any transaction: a single
    [UPDATE ... SET sold_tickets = sold_tickets + n], which the store
    refuses when the sum leaves the range of the column. *)
Definition addSoldTickets (id : string) (n : Z) : IO unit := λ s,
  match showtimes s !! id with
  | Some x =>
      let sum := (Showtime.sold_tickets x + n)%Z in
      if (sum <? minInteger)%Z || (sum >? maxInteger)%Z
      then (Throw IntegerOutOfRange, s, [])
      else (Return tt, set_showtimes (alter (Showtime.add_sold n) id) s, [])
  | None => (Return tt, s, [])
  end.

(** [save(showtime)] of a new entity: the store generates the uuid. *)
Definition saveShowtime (x : Showtime.t) : IO (entity Showtime.t) := λ s,
  let id := fresh (dom (showtimes s)) in
  (Return (id, x), set_showtimes (insert id x) s, []).

(** [update(id, partial)] on the theaters table. *)
Definition updateTheater (id : string) (f : Theater.t → Theater.t) : IO unit := λ s,
  (Return tt, set_theaters (alter f id) s, []).

(** [find({ where: { showtime: { id }, status: PURCHASED },
            order: { seat_number: 'ASC' } })] *)
Definition findActiveTickets (collate : string → string → bool)
    (showtimeId : string) : IO (list (entity Ticket.t)) := λ s,
  (Return
     (orderBy (λ a b : entity Ticket.t,
                 collate (Ticket.seat_number a.2) (Ticket.seat_number b.2))
        (filter (isPurchasedFor showtimeId) (map_to_list (tickets s)))),
   s, []).

(** [count({ where: { showtime: { id }, status: PURCHASED } })] *)
Definition countActiveTickets (showtimeId : string) : IO Z := λ s,
  (Return
     (Z.of_nat (length (filter (isPurchasedFor showtimeId)
                               (map_to_list (tickets s))))),
   s, []).

(** The showtimes of a theater, as the relation [theater.showtimes]
    loads them. *)
Definition showtimesOf (s : Store) (theaterId : string)
    : list (entity Showtime.t) :=
  filter (λ x : entity Showtime.t, Showtime.theater_id x.2 = theaterId)
         (map_to_list (showtimes s)).

(** [findOne({ where: { id }, relations: ['showtimes', ...] })] on the
    theaters table. *)
Definition findTheaterWithShowtimes (id : string)
    : IO (option (Theater.t * list (entity Showtime.t))) := λ s,
  (Return ((λ th, (th, showtimesOf s id)) <$> theaters s !! id), s, []).

End Statements.

Module TicketsRepositoryRest.

Definition delete (id : string) : IO unit := Statements.deleteTicket id.

Definition findActiveTicketsByShowtime (collate : string → string → bool)
    (showtimeId : string) : IO (list (entity Ticket.t)) :=
  Statements.findActiveTickets collate showtimeId.

Definition countTicketsByShowtime (showtimeId : string) : IO Z :=
  Statements.countActiveTickets showtimeId.

Definition getOccupiedSeats (collate : string → string → bool)
    (showtimeId : string) : IO (list string) :=
  let! tickets := Statements.findActiveTickets collate showtimeId in
  ret (map (λ ticket : entity Ticket.t, Ticket.seat_number ticket.2) tickets).

End TicketsRepositoryRest.

Module TicketsServiceRest.

Definition getOccupiedSeats (collate : string → string → bool)
    (showtimeId : string) : IO (list string) :=
  let! showtime := ShowtimesRepository.findById showtimeId in
  require ShowtimeExists showtime (ShowtimeNotFound showtimeId);;
  TicketsRepositoryRest.getOccupiedSeats collate showtimeId.

Definition remove (now : Z) (id : string) : IO unit :=
  let! ticket := TicketsRepository.findWithShowtimeDetails id in
  let! ticket := require TicketExists ticket (TicketNotFound id) in
  (* use the cancel logic to maintain data integrity *)
  (if bool_decide (Ticket.status (Ticket.row ticket) = PURCHASED)
   then TicketsService.cancelTicket now id;; ret tt
   else ret tt);;
  (* only physically delete cancelled tickets *)
  TicketsRepositoryRest.delete id.

End TicketsServiceRest.

(** [price] has at most two decimals ([IsNumber({ maxDecimalPlaces: 2 })])
    and is held in hundredths, as the store holds prices. *)
Module CreateShowtimeDto.
Record t : Type := mk {
  movie_id : string;
  theater_id : string;
  start_time : Z;
  price : Z
}.
End CreateShowtimeDto.

Module ShowtimeAvailabilityDto.
Record t : Type := mk {
  showtime_id : string;
  total_capacity : Z;
  sold_tickets : Z;
  available_seats : Z;
  is_sold_out : bool
}.
End ShowtimeAvailabilityDto.

Module ShowtimesRepositoryRest.

Definition create (showtimeData : Showtime.t) : IO (entity Showtime.t) :=
  Statements.saveShowtime showtimeData.

Definition delete (id : string) : IO unit := Statements.deleteShowtime id.

Definition incrementSoldTickets (id : string) : IO unit :=
  Statements.addSoldTickets id 1.

Definition decrementSoldTickets (id : string) : IO unit :=
  Statements.addSoldTickets id (-1).

End ShowtimesRepositoryRest.

Module ShowtimesServiceRest.

Definition PastCreation : exn :=
  BadRequestException "Cannot create showtime in the past".
Definition PriceOutOfRange : exn :=
  BadRequestException "Price must be between 0 and 1000".
Definition HasSoldTickets : exn :=
  BadRequestException "Cannot delete showtime with sold tickets".
Definition DeleteAfterStart : exn :=
  BadRequestException "Cannot delete showtime that has already started".

Definition create (now : Z) (createShowtimeDto : CreateShowtimeDto.t)
    : IO (entity Showtime.t) :=
  let movie_id := CreateShowtimeDto.movie_id createShowtimeDto in
  let theater_id := CreateShowtimeDto.theater_id createShowtimeDto in
  let startDate := CreateShowtimeDto.start_time createShowtimeDto in
  let price := CreateShowtimeDto.price createShowtimeDto in
  (* no showtimes in the past *)
  check NewStartNotPast (negb (startDate <? now)%Z) PastCreation;;
  let! movie := MoviesRepository.findById movie_id in
  let! movie := require MovieExists movie (MovieNotFound movie_id) in
  let! theater := TheatersRepository.findById theater_id in
  let! theater := require TheaterExists theater (TheaterNotFound theater_id) in
  check TheaterActive (Theater.is_active theater) TheaterNotActive;;
  (* the end time follows from the duration of the movie *)
  let endDate := ShowtimesService.addMinutes startDate (Movie.duration movie) in
  let! conflictingShowtime :=
    ShowtimesRepository.findConflictingShowtime theater_id startDate endDate None in
  check NoConflict (negb (bool_decide (is_Some conflictingShowtime)))
    SchedulingConflict;;
  (* the price, between 0 and 1000 *)
  (if (price <? 0)%Z || (price >? 100000)%Z
   then throw PriceOutOfRange else ret tt);;
  ShowtimesRepositoryRest.create
    (Showtime.mk startDate endDate price 0 movie_id theater_id).

Definition remove (now : Z) (id : string) : IO unit :=
  let! showtime := ShowtimesRepository.findWithRelations id in
  let! showtime := require ShowtimeExists showtime (ShowtimeNotFound id) in
  (if (Showtime.sold_tickets (Showtime.row showtime) >? 0)%Z
   then throw HasSoldTickets else ret tt);;
  check StartInFuture
    (negb (Showtime.start_time (Showtime.row showtime) <=? now)%Z)
    DeleteAfterStart;;
  ShowtimesRepositoryRest.delete id.

Definition getAvailability (id : string) : IO ShowtimeAvailabilityDto.t :=
  let! showtime := ShowtimesRepository.findWithRelations id in
  let! showtime := require ShowtimeExists showtime (ShowtimeNotFound id) in
  let! theater := deref (Showtime.theater showtime) "capacity" in
  let availableSeats :=
    Theater.capacity theater - Showtime.sold_tickets (Showtime.row showtime) in
  ret (ShowtimeAvailabilityDto.mk id (Theater.capacity theater)
         (Showtime.sold_tickets (Showtime.row showtime))
         availableSeats (availableSeats <=? 0)%Z).

End ShowtimesServiceRest.

Module TheatersRepositoryRest.

Definition update (id : string) (f : Theater.t → Theater.t) : IO Theater.t :=
  Statements.updateTheater id f;;
  let! updatedTheater := TheatersRepository.findById id in
  require TheaterExists updatedTheater
    (NotFoundException ("Theater with id " +:+ id +:+ " not found")).

Definition delete (id : string) : IO unit := Statements.deleteTheater id.

Definition findWithShowtimes (id : string)
    : IO (option (Theater.t * list (entity Showtime.t))) :=
  Statements.findTheaterWithShowtimes id.

End TheatersRepositoryRest.

Module TheatersService.

Definition CapacityOutOfRange : exn :=
  BadRequestException "Theater capacity must be between 1 and 1000 seats".
Definition CapacityExceeded : exn :=
  ConflictException
    "Cannot reduce capacity below the number of sold tickets for existing showtimes".

Definition UpcomingShowtimes : exn :=
  ConflictException "Cannot delete theater with upcoming showtimes".

Definition remove (now : Z) (id : string) : IO unit :=
  let! theater := TheatersRepositoryRest.findWithShowtimes id in
  let! theater := require TheaterExists theater (TheaterNotFound id) in
  (* check if the theater has upcoming showtimes *)
  let hasUpcomingShowtimes :=
    existsb (λ showtime : entity Showtime.t,
               (Showtime.start_time showtime.2 >? now)%Z)
            theater.2 in
  (if hasUpcomingShowtimes then throw UpcomingShowtimes else ret tt);;
  TheatersRepositoryRest.delete id.

Definition set_active (b : bool) (th : Theater.t) : Theater.t :=
  Theater.mk (Theater.capacity th) b.

Definition deactivate (id : string) : IO Theater.t :=
  let! theater := TheatersRepository.findById id in
  require TheaterExists theater (TheaterNotFound id);;
  TheatersRepositoryRest.update id (set_active false).

Definition activate (id : string) : IO Theater.t :=
  let! theater := TheatersRepository.findById id in
  require TheaterExists theater (TheaterNotFound id);;
  TheatersRepositoryRest.update id (set_active true).

Definition validateCapacity (capacity : Z) : IO unit :=
  if (capacity <? 1)%Z || (capacity >? 1000)%Z
  then throw CapacityOutOfRange else ret tt.

Definition validateCapacityReduction (theaterId : string) (newCapacity : Z)
    : IO unit :=
  let! theaterWithShowtimes := TheatersRepositoryRest.findWithShowtimes theaterId in
  let hasShowtimesExceedingCapacity :=
    match theaterWithShowtimes with
    | Some (_, showtimes) =>
        existsb (λ showtime : entity Showtime.t,
                   (Showtime.sold_tickets showtime.2 >? newCapacity)%Z)
                showtimes
    | None => false
    end in
  if hasShowtimesExceedingCapacity then throw CapacityExceeded else ret tt.

End TheatersService.

(** No two showtimes of a theater overlap. *)
Definition scheduleDisjoint (s : Store) : Prop :=
  ∀ id1 id2 x1 x2,
    id1 ≠ id2 →
    showtimes s !! id1 = Some x1 → showtimes s !! id2 = Some x2 →
    Showtime.theater_id x1 = Showtime.theater_id x2 →
    is_Some (theaters s !! Showtime.theater_id x1) →
    ¬ overlap (Showtime.start_time x1) (Showtime.end_time x1)
              (Showtime.start_time x2) (Showtime.end_time x2).


(** Every showtime is in a theater of the store. *)
Definition showtimesHoused (s : Store) : Prop :=
  ∀ id x, showtimes s !! id = Some x →
    is_Some (theaters s !! Showtime.theater_id x).

(** Every ticket refers to a showtime of the store. *)
Definition ticketsRefer (s : Store) : Prop :=
  ∀ id x, tickets s !! id = Some x →
    is_Some (showtimes s !! Ticket.showtime_id x).


(* ================================================================== *)
(** * Regular expressions: the matcher decides the language *)
(* ================================================================== *)

Section RegexTheory.
Import Regex.

Lemma lang_nil_nullable r l : lang r l → l = [] → nullable r = true.
Proof.
  induction 1 as [| | r1 r2 u v _ IH1 _ IH2 | r1 r2 u _ IH | r1 r2 u _ IH
                  | | r1 u v _ _ _ _]; intros E; simpl; try done.
  - apply app_eq_nil in E as [-> ->]. by rewrite IH1, IH2.
  - by rewrite IH.
  - rewrite IH by done. apply orb_true_r.
Qed.

Lemma nullable_lang_nil r : nullable r = true → lang r [].
Proof.
  induction r as [| | p | r1 IH1 r2 IH2 | r1 IH1 r2 IH2 | r1 _]; simpl;
    intros E; try done.
  - constructor.
  - apply andb_true_iff in E as [E1 E2].
    change (@nil ascii) with (@nil ascii ++ []). constructor; auto.
  - apply orb_true_iff in E as [E | E].
    + apply lang_alt_l; auto.
    + apply lang_alt_r; auto.
  - constructor.
Qed.

Lemma deriv_sound c r : ∀ l, lang (deriv c r) l → lang r (c :: l).
Proof.
  induction r as [| | p | r1 IH1 r2 IH2 | r1 IH1 r2 IH2 | r1 IH1]; simpl;
    intros l H.
  - inversion H.
  - inversion H.
  - destruct (p c) eqn:E; inversion H; subst. by constructor.
  - destruct (nullable r1) eqn:N.
    + inversion H as [| | | ? ? ? H1 | ? ? ? H2 | |]; subst.
      * inversion H1; subst.
        change (c :: u ++ v) with ((c :: u) ++ v). constructor; auto.
      * change (c :: l) with ([] ++ c :: l).
        constructor; auto using nullable_lang_nil.
    + inversion H; subst.
      change (c :: u ++ v) with ((c :: u) ++ v). constructor; auto.
  - inversion H; subst; [apply lang_alt_l | apply lang_alt_r]; auto.
  - inversion H; subst.
    change (c :: u ++ v) with ((c :: u) ++ v). constructor; auto.
Qed.

Lemma deriv_complete r w :
  lang r w → ∀ c l, w = c :: l → lang (deriv c r) l.
Proof.
  induction 1 as [| p a Hp | r1 r2 u v H1 IH1 H2 IH2 | r1 r2 u _ IH
                  | r1 r2 u _ IH | | r1 u v H1 IH1 H2 IH2];
    intros c l E; simpl.
  - done.
  - injection E as -> <-. rewrite Hp. constructor.
  - destruct u as [| a u'].
    + simpl in E. rewrite (lang_nil_nullable _ _ H1 eq_refl).
      apply lang_alt_r. eauto.
    + injection E as -> <-.
      destruct (nullable r1); [apply lang_alt_l |]; constructor; eauto.
  - apply lang_alt_l. eauto.
  - apply lang_alt_r. eauto.
  - done.
  - destruct u as [| a u'].
    + simpl in E. apply (IH2 c l E).
    + injection E as -> <-. constructor; eauto.
Qed.

Lemma matches_lang r l : matches r l = true ↔ lang r l.
Proof.
  revert r. induction l as [| c l IH]; intros r; simpl.
  - split; [apply nullable_lang_nil | intros H; by eapply lang_nil_nullable].
  - rewrite IH. split; [apply deriv_sound |].
    intros H. by eapply deriv_complete.
Qed.

Lemma deriv_respects f c r : respects f r → deriv (f c) r = deriv c r.
Proof.
  induction r as [| | p | r1 IH1 r2 IH2 | r1 IH1 r2 IH2 | r1 IH1]; simpl;
    intros H; try done.
  - by rewrite H.
  - destruct H as [H1 H2]. by rewrite IH1, IH2.
  - destruct H as [H1 H2]. by rewrite IH1, IH2.
  - by rewrite IH1.
Qed.

Lemma respects_deriv f c r : respects f r → respects f (deriv c r).
Proof.
  induction r as [| | p | r1 IH1 r2 IH2 | r1 IH1 r2 IH2 | r1 IH1]; simpl;
    intros H; try done.
  - by destruct (p c).
  - destruct H as [H1 H2]. destruct (nullable r1); simpl; auto.
  - destruct H as [H1 H2]. auto.
  - auto.
Qed.

Lemma matches_map f r l :
  respects f r → matches r (map f l) = matches r l.
Proof.
  revert r. induction l as [| c l IH]; intros r H; simpl; [done |].
  rewrite deriv_respects by done. apply IH. by apply respects_deriv.
Qed.

(** The characters of a matched string all belong to a class of the
    pattern. *)
Lemma lang_Forall (q : ascii → Prop) r l :
  within q r → lang r l → Forall q l.
Proof.
  intros C H. revert C.
  induction H as [| p a Hp | r1 r2 u v _ IH1 _ IH2 | r1 r2 u _ IH
                  | r1 r2 u _ IH | | r1 u v _ IH1 _ IH2]; simpl; intros C.
  - constructor.
  - constructor; [by apply C | constructor].
  - destruct C. apply Forall_app; auto.
  - destruct C. auto.
  - destruct C. auto.
  - constructor.
  - apply Forall_app; auto.
Qed.

End RegexTheory.

(* ================================================================== *)
(** * Strings, the seat pattern and the email pattern *)
(* ================================================================== *)

Lemma list_ascii_mapChars f s :
  list_ascii_of_string (Js.mapChars f s) = map f (list_ascii_of_string s).
Proof. induction s as [| c s IH]; simpl; [done | by rewrite IH]. Qed.

Lemma test_mapChars f r s :
  Regex.respects f r → Regex.test r (Js.mapChars f s) = Regex.test r s.
Proof.
  intros H. unfold Regex.test. rewrite list_ascii_mapChars.
  by apply matches_map.
Qed.

Lemma trimStart_id s :
  Forall (λ c, Js.isWhiteSpace c = false) (list_ascii_of_string s) →
  Js.trimStart s = s.
Proof.
  destruct s as [| c s]; simpl; [done |].
  intros H. apply Forall_cons in H as [-> _]. done.
Qed.

Lemma trimEnd_id s :
  Forall (λ c, Js.isWhiteSpace c = false) (list_ascii_of_string s) →
  Js.trimEnd s = s.
Proof.
  induction s as [| c s IH]; simpl; [done |].
  intros H. apply Forall_cons in H as [-> H]. simpl. by rewrite IH.
Qed.

Lemma trim_id s :
  Forall (λ c, Js.isWhiteSpace c = false) (list_ascii_of_string s) →
  Js.trim s = s.
Proof.
  intros H. unfold Js.trim. rewrite trimStart_id by done. by apply trimEnd_id.
Qed.

Lemma isWhiteSpace_upperChar c :
  Js.isWhiteSpace (Js.upperChar c) = Js.isWhiteSpace c.
Proof. by destruct c as [[] [] [] [] [] [] [] []]. Qed.

Lemma lang_cls_iff p l :
  Regex.lang (Regex.Cls p) l ↔ ∃ c, l = [c] ∧ p c = true.
Proof.
  split.
  - inversion 1; subst. eauto.
  - intros (c & -> & Hc). by constructor.
Qed.

Lemma lang_cat_iff r1 r2 l :
  Regex.lang (Regex.Cat r1 r2) l ↔
  ∃ u v, l = u ++ v ∧ Regex.lang r1 u ∧ Regex.lang r2 v.
Proof.
  split.
  - inversion 1; subst. eauto.
  - intros (u & v & -> & H1 & H2). by constructor.
Qed.

Lemma lang_opt_iff r l :
  Regex.lang (Regex.Alt Regex.Eps r) l ↔ l = [] ∨ Regex.lang r l.
Proof.
  split.
  - inversion 1 as [| | | ? ? ? H1 | | |]; subst; [| by right].
    inversion H1. by left.
  - intros [-> | H]; [apply Regex.lang_alt_l; constructor
                     | by apply Regex.lang_alt_r].
Qed.

(** [p{1,2}] and [p{1,3}] over a class [p]. *)
Lemma lang_rep_1_2 p l :
  Regex.lang (Regex.rep_1_2 (Regex.Cls p)) l ↔
  (1 ≤ length l ≤ 2)%nat ∧ Forall (λ c, p c = true) l.
Proof.
  unfold Regex.rep_1_2. rewrite lang_cat_iff. split.
  - intros (u & v & -> & Hu & Hv).
    apply lang_cls_iff in Hu as (a & -> & Ha).
    apply lang_opt_iff in Hv as [-> | Hv].
    + split; [simpl; lia | by repeat constructor].
    + apply lang_cls_iff in Hv as (b & -> & Hb).
      split; [simpl; lia | by repeat constructor].
  - intros [Hlen Hall].
    destruct l as [| a [| b [| ? ?]]]; simpl in Hlen; try lia.
    + apply Forall_cons in Hall as [Ha _]. exists [a], [].
      split; [done |]. split; [by constructor |].
      apply lang_opt_iff. by left.
    + apply Forall_cons in Hall as [Ha Hall].
      apply Forall_cons in Hall as [Hb _]. exists [a], [b].
      split; [done |]. split; [by constructor |].
      apply lang_opt_iff. right. by constructor.
Qed.

Lemma lang_rep_1_3 p l :
  Regex.lang (Regex.rep_1_3 (Regex.Cls p)) l ↔
  (1 ≤ length l ≤ 3)%nat ∧ Forall (λ c, p c = true) l.
Proof.
  unfold Regex.rep_1_3. rewrite lang_cat_iff. split.
  - intros (u & v & -> & Hu & Hv).
    apply lang_cls_iff in Hu as (a & -> & Ha).
    apply lang_opt_iff in Hv as [-> | Hv].
    { split; [simpl; lia | by repeat constructor]. }
    apply (lang_rep_1_2 p) in Hv as [Hlen Hall].
    split; [simpl; lia | by constructor].
  - intros [Hlen Hall].
    destruct l as [| a l]; simpl in Hlen; [lia |].
    apply Forall_cons in Hall as [Ha Hall]. exists [a], l.
    split; [done |]. split; [by constructor |]. apply lang_opt_iff.
    destruct l as [| b l]; [by left | right].
    apply (lang_rep_1_2 p). split; [simpl in *; lia | done].
Qed.

(** The seat pattern of the service is the pattern of 1-2 letters, a
    hyphen, and 1-3 digits. *)
Lemma seatRegex_seatPattern s :
  Regex.test TicketsService.seatRegex s = true ↔ seatPattern s.
Proof.
  unfold Regex.test, seatPattern, TicketsService.seatRegex.
  rewrite matches_lang, lang_cat_iff. split.
  - intros (letters & rest & -> & Hl & Hrest).
    apply lang_cat_iff in Hrest as (dash & digits & -> & Hdash & Hd).
    apply lang_cls_iff in Hdash as (c & -> & Hc).
    apply Ascii.eqb_eq in Hc as ->.
    apply lang_rep_1_2 in Hl as [? ?]. apply lang_rep_1_3 in Hd as [? ?].
    by exists letters, digits.
  - intros (letters & digits & -> & Hl1 & Hl2 & Hd1 & Hd2).
    exists letters, ("-"%char :: digits). split; [done |].
    split; [by apply lang_rep_1_2 |].
    apply lang_cat_iff. exists ["-"%char], digits. split; [done |].
    split; [by constructor | by apply lang_rep_1_3].
Qed.

Lemma emailRegex_respects_lowerChar :
  Regex.respects Js.lowerChar TicketsService.emailRegex.
Proof.
  simpl. repeat split; intros c; by destruct c as [[] [] [] [] [] [] [] []].
Qed.

Lemma isValidEmail_toLowerCase email :
  TicketsService.isValidEmail (Js.toLowerCase email)
  = TicketsService.isValidEmail email.
Proof. apply test_mapChars, emailRegex_respects_lowerChar. Qed.

Lemma emailRegex_no_whitespace :
  Regex.within (λ c, Js.isWhiteSpace c = false) TicketsService.emailRegex.
Proof.
  simpl. repeat split; intros c; by destruct c as [[] [] [] [] [] [] [] []].
Qed.

Lemma seatRegex_no_whitespace :
  Regex.within (λ c, Js.isWhiteSpace c = false) TicketsService.seatRegex.
Proof.
  simpl. repeat split; intros c; by destruct c as [[] [] [] [] [] [] [] []].
Qed.

(** A valid email has no white space, at its ends or elsewhere. *)
Lemma isValidEmail_trim email :
  TicketsService.isValidEmail email = true → Js.trim email = email.
Proof.
  intros H. apply trim_id.
  apply matches_lang in H.
  by apply (lang_Forall _ _ _ emailRegex_no_whitespace).
Qed.

(** Nor has a valid seat number. *)
Lemma isValidSeatNumber_trim seat :
  TicketsService.isValidSeatNumber seat = true → Js.trim seat = seat.
Proof.
  intros H. apply trim_id.
  apply matches_lang in H.
  apply (lang_Forall _ _ _ seatRegex_no_whitespace) in H.
  unfold Js.toUpperCase in H. rewrite list_ascii_mapChars in H.
  apply Forall_fmap in H. eapply Forall_impl; [exact H |].
  intros c Hc. simpl in Hc. by rewrite isWhiteSpace_upperChar in Hc.
Qed.

(* ================================================================== *)
(** * The purchase and cancel operations, path by path *)
(* ================================================================== *)

Ltac io_unfold :=
  unfold TicketsService.purchaseTicket, TicketsService.cancelTicket,
    TicketsService.findByCustomerEmail,
    TicketsRepository.purchaseTicketWithTransaction,
    TicketsRepository.cancelTicketWithTransaction,
    TicketsRepository.findWithShowtimeDetails,
    TicketsRepository.findByCustomerEmail,
    ShowtimesRepository.findWithRelations,
    interleavedCancels, cancelRead, cancelWrite,
    transaction, catch, bind, require, check, deref, ret, throw,
    Manager.findOneShowtimeForUpdate, Manager.findOneShowtime,
    Manager.findOneTicket, Manager.findOneTicketBySeat,
    Manager.findTicketsByEmail,
    Manager.saveTicket, Manager.updateTicket,
    Manager.incrementSoldTickets, Manager.decrementSoldTickets,
    result, store_after, trace.

Lemma purchaseTicketWithTransaction_paths showtimeId d s :
  TicketsRepository.purchaseTicketWithTransaction showtimeId d s =
  let notFound := Error ("Showtime with ID " +:+ showtimeId +:+ " not found") in
  let seat := TicketData.seat_number d in
  let locked := [Begin; SelectShowtimeForUpdate showtimeId; Validate ShowtimeExists] in
  match showtimes s !! showtimeId with
  | None => (Throw notFound, s, locked ++ [Rollback])
  | Some x =>
      let reread := locked ++ [SelectShowtime showtimeId; Validate ShowtimeExists] in
      match theaters s !! Showtime.theater_id x with
      | None =>
          (Throw (TypeError "Cannot read properties of null (reading 'capacity')"),
           s, reread ++ [Rollback])
      | Some th =>
          if Showtime.sold_tickets x >=? Theater.capacity th
          then (Throw SoldOut, s, reread ++ [Validate Capacity; Rollback])
          else
            let checked :=
              reread ++ [Validate Capacity; SelectSeat showtimeId seat; Validate SeatFree] in
            match List.find (Manager.holdsSeat showtimeId seat)
                            (map_to_list (tickets s)) with
            | Some _ => (Throw (SeatTaken seat), s, checked ++ [Rollback])
            | None =>
                let id := fresh (dom (tickets s)) in
                let s' := purchased s x showtimeId d in
                (Return (Manager.loadTicket s' <$> tickets s' !! id,
                         Manager.loadShowtime s x),
                 s',
                 checked ++ [InsertTicket id; Increment showtimeId;
                             SelectTicket id; Commit])
            end
      end
  end.
Proof.
  io_unfold. simpl.
  destruct (showtimes s !! showtimeId) as [x |]; simpl; [| done].
  destruct (theaters s !! Showtime.theater_id x) as [th |]; simpl; [| done].
  destruct (Showtime.sold_tickets x >=? Theater.capacity th); simpl; [done |].
  by destruct (List.find _ _) as [y |].
Qed.

Lemma cancelTicketWithTransaction_paths ticketId s :
  TicketsRepository.cancelTicketWithTransaction ticketId s =
  let read := [Begin; SelectTicket ticketId; Validate TicketExists] in
  match tickets s !! ticketId with
  | None =>
      (Throw (Error ("Ticket with ID " +:+ ticketId +:+ " not found")), s,
       read ++ [Rollback])
  | Some x =>
      if bool_decide (Ticket.status x = PURCHASED)
      then
        match showtimes s !! Ticket.showtime_id x with
        | None =>
            (Throw (TypeError "Cannot read properties of null (reading 'id')"),
             s,
             read ++ [Validate TicketPurchased; UpdateTicket ticketId; Rollback])
        | Some _ =>
            let s' := cancelled s ticketId x in
            (Return (Manager.loadTicket s' <$> tickets s' !! ticketId), s',
             read ++ [Validate TicketPurchased; UpdateTicket ticketId;
                      Decrement (Ticket.showtime_id x); SelectTicket ticketId;
                      Commit])
        end
      else
        (Throw (Error "Only purchased tickets can be cancelled"), s,
         read ++ [Validate TicketPurchased; Rollback])
  end.
Proof.
  io_unfold. simpl.
  destruct (tickets s !! ticketId) as [x |]; simpl; [| done].
  destruct (bool_decide _); simpl; [| done].
  by destruct (showtimes s !! Ticket.showtime_id x).
Qed.

Lemma purchaseTicket_paths now showtimeId dto s :
  TicketsService.purchaseTicket now showtimeId dto s =
  let read := [SelectShowtime showtimeId; Validate ShowtimeExists] in
  match showtimes s !! showtimeId with
  | None => (Throw (ShowtimeNotFound showtimeId), s, read)
  | Some x =>
      if Showtime.start_time x <=? now
      then (Throw PurchasePastOrOngoing, s, read ++ [Validate StartInFuture])
      else if TicketsService.isValidEmail (PurchaseTicketDto.customer_email dto)
      then
        if TicketsService.isValidSeatNumber (PurchaseTicketDto.seat_number dto)
        then
          let validated :=
            read ++ [Validate StartInFuture; Validate EmailFormat; Validate SeatFormat] in
          match TicketsRepository.purchaseTicketWithTransaction showtimeId
                  (cleanData dto) s with
          | (Return r, s', t) => (Return r.1, s', validated ++ t)
          | (Throw e, s', t) => (Throw e, s', validated ++ t)
          end
        else (Throw InvalidSeatFormat, s,
              read ++ [Validate StartInFuture; Validate EmailFormat; Validate SeatFormat])
      else (Throw InvalidEmailFormat, s,
            read ++ [Validate StartInFuture; Validate EmailFormat])
  end.
Proof.
  unfold TicketsService.purchaseTicket, ShowtimesRepository.findWithRelations,
    Manager.findOneShowtime, bind, require, check, ret, cleanData.
  simpl.
  destruct (showtimes s !! showtimeId) as [x |]; simpl; [| done].
  destruct (Showtime.start_time x <=? now); simpl; [done |].
  destruct (TicketsService.isValidEmail _); simpl; [| done].
  destruct (TicketsService.isValidSeatNumber _); simpl; [| done].
  destruct (TicketsRepository.purchaseTicketWithTransaction _ _ _)
    as [[[r | e] s'] t]; simpl; [| done].
  by rewrite app_nil_r.
Qed.

Lemma cancelTicket_paths now ticketId s :
  TicketsService.cancelTicket now ticketId s =
  let read := [SelectTicket ticketId; Validate TicketExists] in
  match tickets s !! ticketId with
  | None => (Throw (TicketNotFound ticketId), s, read)
  | Some x =>
      match showtimes s !! Ticket.showtime_id x with
      | None =>
          (Throw (TypeError "Cannot read properties of null (reading 'start_time')"),
           s, read)
      | Some sh =>
          if Showtime.start_time sh <=? now
          then (Throw CancelPastOrOngoing, s, read ++ [Validate StartInFuture])
          else if bool_decide (Ticket.status x = PURCHASED)
          then
            let validated := read ++ [Validate StartInFuture; Validate TicketPurchased] in
            match TicketsRepository.cancelTicketWithTransaction ticketId s with
            | (Return r, s', t) => (Return r, s', validated ++ t)
            | (Throw e, s', t) =>
                (Throw (BadRequestException (message e)), s', validated ++ t)
            end
          else (Throw InvalidTicketState, s,
                read ++ [Validate StartInFuture; Validate TicketPurchased])
      end
  end.
Proof.
  unfold TicketsService.cancelTicket, TicketsRepository.findWithShowtimeDetails,
    Manager.findOneTicket, catch, bind, require, check, deref, ret, throw.
  simpl.
  destruct (tickets s !! ticketId) as [x |]; simpl; [| done].
  destruct (showtimes s !! Ticket.showtime_id x) as [sh |]; simpl; [| done].
  destruct (Showtime.start_time sh <=? now); simpl; [done |].
  destruct (bool_decide _); simpl; [| done].
  destruct (TicketsRepository.cancelTicketWithTransaction _ _)
    as [[[r | e] s'] t]; simpl; [done |].
  by rewrite app_nil_r.
Qed.

(* ================================================================== *)
(** * The store: seats and counters *)
(* ================================================================== *)

Lemma fresh_ticket_id (m : gmap string Ticket.t) : m !! fresh (dom m) = None.
Proof. apply not_elem_of_dom_1, is_fresh. Qed.

Lemma holdsSeat_true showtimeId seat (x : entity Ticket.t) :
  Manager.holdsSeat showtimeId seat x = true ↔
  Ticket.showtime_id x.2 = showtimeId ∧ Ticket.seat_number x.2 = seat ∧
  Ticket.status x.2 = PURCHASED.
Proof.
  unfold Manager.holdsSeat.
  rewrite !andb_true_iff, !bool_decide_eq_true. tauto.
Qed.

Lemma find_seat_Some s showtimeId seat y :
  List.find (Manager.holdsSeat showtimeId seat) (map_to_list (tickets s)) = Some y →
  seatHeld s showtimeId seat.
Proof.
  intros H. apply find_some in H as [Hin Hy].
  apply list_elem_of_In in Hin. destruct y as [id x].
  apply elem_of_map_to_list in Hin. apply holdsSeat_true in Hy.
  exists id, x. tauto.
Qed.

Lemma find_seat_None s showtimeId seat :
  List.find (Manager.holdsSeat showtimeId seat) (map_to_list (tickets s)) = None →
  ¬ seatHeld s showtimeId seat.
Proof.
  intros H (id & x & Hx & H1 & H2 & H3).
  assert (Manager.holdsSeat showtimeId seat (id, x) = false) as Hf.
  { apply (find_none _ _ H). apply list_elem_of_In.
    by apply elem_of_map_to_list. }
  assert (Manager.holdsSeat showtimeId seat (id, x) = true) as Ht.
  { by apply holdsSeat_true. }
  congruence.
Qed.

Lemma countPurchased_insert_new (m : gmap string Ticket.t) id x showtimeId :
  m !! id = None →
  countPurchased (<[id := x]> m) showtimeId =
  countPurchased m showtimeId
  + (if decide (isPurchasedFor showtimeId (id, x)) then 1 else 0).
Proof.
  intros Hid. unfold countPurchased.
  destruct (decide (isPurchasedFor showtimeId (id, x))) as [Hp | Hp].
  - rewrite map_filter_insert_True by done.
    rewrite map_size_insert_None by (apply map_lookup_filter_None_2; auto).
    lia.
  - rewrite map_filter_insert_False by done.
    rewrite delete_id by done. lia.
Qed.

Lemma countPurchased_alter (m : gmap string Ticket.t) id x f showtimeId :
  m !! id = Some x →
  countPurchased (alter f id m) showtimeId =
  countPurchased m showtimeId
  - (if decide (isPurchasedFor showtimeId (id, x)) then 1 else 0)
  + (if decide (isPurchasedFor showtimeId (id, f x)) then 1 else 0).
Proof.
  intros Hid.
  assert (alter f id m = <[id := f x]> (delete id m)) as ->.
  { rewrite (alter_alt_Some _ _ _ _ Hid). by rewrite insert_delete_eq. }
  rewrite <- (insert_delete_id m id x) at 2 by done.
  rewrite !countPurchased_insert_new by apply lookup_delete_eq.
  lia.
Qed.

Lemma purchased_consistent s x showtimeId d :
  counterConsistent s → showtimes s !! showtimeId = Some x →
  counterConsistent (purchased s x showtimeId d).
Proof.
  intros Hc Hx id y. unfold purchased, purchasedCount. simpl.
  rewrite countPurchased_insert_new by apply fresh_ticket_id.
  rewrite lookup_alter.
  destruct (decide (showtimeId = id)) as [<- | Hne].
  - rewrite Hx. simpl. intros [= <-]. simpl.
    rewrite decide_True by done. rewrite (Hc _ _ Hx). done.
  - intros Hy. rewrite decide_False by (intros [? _]; done).
    rewrite (Hc _ _ Hy). unfold purchasedCount. lia.
Qed.

Lemma cancelled_consistent s ticketId x :
  counterConsistent s → tickets s !! ticketId = Some x →
  Ticket.status x = PURCHASED →
  counterConsistent (cancelled s ticketId x).
Proof.
  intros Hc Hx Hp id y. unfold cancelled, purchasedCount. simpl.
  rewrite (countPurchased_alter _ _ _ _ _ Hx).
  rewrite (decide_False
             (P := isPurchasedFor id (ticketId, Ticket.set_status CANCELLED x)))
    by (intros [_ ?]; done).
  rewrite lookup_alter.
  destruct (decide (Ticket.showtime_id x = id)) as [<- | Hne].
  - destruct (showtimes s !! Ticket.showtime_id x) as [z |] eqn:Hz; [| done].
    simpl. intros [= <-]. simpl.
    rewrite decide_True by done. rewrite (Hc _ _ Hz). unfold purchasedCount. lia.
  - intros Hy. rewrite decide_False by (intros [? _]; done).
    rewrite (Hc _ _ Hy). unfold purchasedCount. lia.
Qed.

(* ================================================================== *)
(** * Capacity (C1) *)
(* ================================================================== *)

(** C1, as stated, fails: in the sample box office one of the two seats
    is sold, so the capacity check passes, and yet a purchase of the
    seat that is already held inserts no ticket and leaves the counter
    as it was. *)
Lemma purchase_below_capacity_seat_taken :
  let r := TicketsRepository.purchaseTicketWithTransaction "s1"
             (TicketData.mk "Bob" "bob@x.io" "A-1") boxOffice in
  Showtime.sold_tickets evening < Theater.capacity hall ∧
  result r = Throw (SeatTaken "A-1") ∧
  tickets (store_after r) = tickets boxOffice ∧
  showtimes (store_after r) = showtimes boxOffice.
Proof. vm_compute. repeat split; reflexivity. Qed.

(** C1 (amended). Inside the purchase transaction: when [sold_tickets >=
    capacity] the purchase fails with the sold-out error and writes
    nothing; when [sold_tickets < capacity] and a Purchased ticket of
    the showtime already holds the seat it fails with the seat-taken
    error and writes nothing; when [sold_tickets < capacity] and the
    seat is free it inserts exactly one Purchased ticket and increments
    [sold_tickets] by exactly 1. Hence every showtime whose
    [sold_tickets] is at most its theater's capacity is still so after
    any purchase. *)
Theorem purchase_capacity_bound showtimeId d s :
  let r := TicketsRepository.purchaseTicketWithTransaction showtimeId d s in
  let seat := TicketData.seat_number d in
  (∀ x th,
     showtimes s !! showtimeId = Some x →
     theaters s !! Showtime.theater_id x = Some th →
     (Theater.capacity th ≤ Showtime.sold_tickets x →
        result r = Throw SoldOut ∧ store_after r = s) ∧
     (Showtime.sold_tickets x < Theater.capacity th →
      seatHeld s showtimeId seat →
        result r = Throw (SeatTaken seat) ∧ store_after r = s) ∧
     (Showtime.sold_tickets x < Theater.capacity th →
      ¬ seatHeld s showtimeId seat →
        ∃ id v,
          result r = Return v ∧
          tickets s !! id = None ∧
          tickets (store_after r) = <[id := newTicket x showtimeId d]> (tickets s) ∧
          Ticket.status (newTicket x showtimeId d) = PURCHASED ∧
          showtimes (store_after r)
          = <[showtimeId := Showtime.add_sold 1 x]> (showtimes s) ∧
          Showtime.sold_tickets (Showtime.add_sold 1 x)
          = Showtime.sold_tickets x + 1)) ∧
  (∀ id x th,
     showtimes s !! id = Some x →
     theaters s !! Showtime.theater_id x = Some th →
     Showtime.sold_tickets x ≤ Theater.capacity th →
     ∃ x',
       showtimes (store_after r) !! id = Some x' ∧
       theaters (store_after r) !! Showtime.theater_id x' = Some th ∧
       Showtime.sold_tickets x' ≤ Theater.capacity th).
Proof.
  intros r seat. subst r seat.
  rewrite purchaseTicketWithTransaction_paths. simpl. split.
  - intros x th Hx Hth. rewrite Hx, Hth.
    destruct (Z.geb_spec (Showtime.sold_tickets x) (Theater.capacity th))
      as [Hge | Hlt].
    + repeat split; try done; lia.
    + destruct (List.find _ _) as [y |] eqn:Hfind.
      * apply find_seat_Some in Hfind. repeat split; try done; lia.
      * apply find_seat_None in Hfind. repeat split; try done; try lia.
        intros _ _. eexists _, _. unfold store_after, result. simpl.
        repeat split; try done.
        -- apply fresh_ticket_id.
        -- by apply alter_alt_Some.
  - intros id x th Hx Hth Hle.
    destruct (showtimes s !! showtimeId) as [y |] eqn:Hy; [| by eauto].
    destruct (theaters s !! Showtime.theater_id y) as [th' |] eqn:Hth';
      [| by eauto].
    destruct (Z.geb_spec (Showtime.sold_tickets y) (Theater.capacity th'))
      as [Hge | Hlt]; [by eauto |].
    destruct (List.find _ _) as [z |]; [by eauto |].
    unfold store_after. simpl. rewrite lookup_alter.
    destruct (decide (showtimeId = id)) as [<- | Hne]; [| by eauto].
    rewrite Hy. simpl. eexists. split; [done |]. simpl.
    assert (y = x) as -> by congruence.
    assert (th' = th) as -> by congruence.
    split; [done | lia].
Qed.

Lemma purchase_capacity_bound_witness :
  ∃ x',
    showtimes (store_after
      (TicketsRepository.purchaseTicketWithTransaction "s1"
         (TicketData.mk "Bob" "bob@x.io" "A-2") boxOffice)) !! "s1" = Some x' ∧
    theaters (store_after
      (TicketsRepository.purchaseTicketWithTransaction "s1"
         (TicketData.mk "Bob" "bob@x.io" "A-2") boxOffice))
      !! Showtime.theater_id x' = Some hall ∧
    Showtime.sold_tickets x' ≤ Theater.capacity hall.
Proof.
  apply (proj2 (purchase_capacity_bound "s1"
                  (TicketData.mk "Bob" "bob@x.io" "A-2") boxOffice)
           "s1" evening hall);
    [reflexivity | reflexivity | simpl; lia].
Defined.

(* ================================================================== *)
(** * Counter consistency (C4) *)
(* ================================================================== *)

Lemma purchase_transaction_consistent s showtimeId d :
  counterConsistent s →
  counterConsistent
    (store_after (TicketsRepository.purchaseTicketWithTransaction showtimeId d s)).
Proof.
  intros Hc. rewrite purchaseTicketWithTransaction_paths. simpl.
  destruct (showtimes s !! showtimeId) as [x |] eqn:Hx; [| done].
  destruct (theaters s !! Showtime.theater_id x) as [th |]; [| done].
  destruct (Showtime.sold_tickets x >=? Theater.capacity th); [done |].
  destruct (List.find _ _) as [y |]; [done |].
  by apply purchased_consistent.
Qed.

Lemma cancel_transaction_consistent s ticketId :
  counterConsistent s →
  counterConsistent
    (store_after (TicketsRepository.cancelTicketWithTransaction ticketId s)).
Proof.
  intros Hc. rewrite cancelTicketWithTransaction_paths. simpl.
  destruct (tickets s !! ticketId) as [x |] eqn:Hx; [| done].
  case_bool_decide as Hp; [| done].
  destruct (showtimes s !! Ticket.showtime_id x) as [sh |]; [| done].
  by apply cancelled_consistent.
Qed.

(** The services add guards in front of the transactions and write
    nothing themselves: any sequence of purchase and cancel requests
    keeps the counters consistent. *)
Lemma serve_consistent r s : counterConsistent s → counterConsistent (serve r s).
Proof.
  intros Hc. destruct r as [now showtimeId dto | now ticketId]; simpl.
  - rewrite purchaseTicket_paths. simpl.
    destruct (showtimes s !! showtimeId) as [x |]; [| done].
    destruct (Showtime.start_time x <=? now); [done |].
    destruct (TicketsService.isValidEmail _); [| done].
    destruct (TicketsService.isValidSeatNumber _); [| done].
    pose proof (purchase_transaction_consistent s showtimeId (cleanData dto) Hc)
      as Htx.
    by destruct (TicketsRepository.purchaseTicketWithTransaction _ _ _)
      as [[[v | e] s'] t].
  - rewrite cancelTicket_paths. simpl.
    destruct (tickets s !! ticketId) as [x |]; [| done].
    destruct (showtimes s !! Ticket.showtime_id x) as [sh |]; [| done].
    destruct (Showtime.start_time sh <=? now); [done |].
    case_bool_decide; [| done].
    pose proof (cancel_transaction_consistent s ticketId Hc) as Htx.
    by destruct (TicketsRepository.cancelTicketWithTransaction _ _)
      as [[[v | e] s'] t].
Qed.

Lemma serveAll_consistent rs s :
  counterConsistent s → counterConsistent (serveAll rs s).
Proof.
  revert s. induction rs as [| r rs IH]; intros s Hc; simpl; [done |].
  apply IH. by apply serve_consistent.
Qed.

Lemma boxOffice_consistent : counterConsistent boxOffice.
Proof.
  intros id x Hx. destruct (decide (id = "s1")) as [-> | Hne].
  - injection Hx as <-. reflexivity.
  - unfold boxOffice in Hx. simpl in Hx.
    rewrite lookup_singleton_ne in Hx by done. discriminate.
Qed.

(** Run on its own from a store where [sold_tickets] equals the number
    of Purchased tickets of every showtime, a purchase or a cancel
    transaction leaves such a store, committed or rolled back. A
    committed purchase has
    inserted one Purchased ticket of the showtime and incremented its
    counter by 1; a committed cancel has flipped one Purchased ticket to
    Cancelled and decremented the counter of its showtime by 1. *)
Theorem transactions_keep_counter_consistent s :
  counterConsistent s →
  (∀ showtimeId d,
     let r := TicketsRepository.purchaseTicketWithTransaction showtimeId d s in
     counterConsistent (store_after r) ∧
     (∀ v, result r = Return v →
        ∃ id x,
          showtimes s !! showtimeId = Some x ∧
          tickets s !! id = None ∧
          tickets (store_after r) = <[id := newTicket x showtimeId d]> (tickets s) ∧
          Ticket.status (newTicket x showtimeId d) = PURCHASED ∧
          Ticket.showtime_id (newTicket x showtimeId d) = showtimeId ∧
          showtimes (store_after r)
          = <[showtimeId := Showtime.add_sold 1 x]> (showtimes s) ∧
          purchasedCount (store_after r) showtimeId
          = purchasedCount s showtimeId + 1)) ∧
  (∀ ticketId,
     let r := TicketsRepository.cancelTicketWithTransaction ticketId s in
     counterConsistent (store_after r) ∧
     (∀ v, result r = Return v →
        ∃ x sh,
          tickets s !! ticketId = Some x ∧
          Ticket.status x = PURCHASED ∧
          showtimes s !! Ticket.showtime_id x = Some sh ∧
          tickets (store_after r)
          = <[ticketId := Ticket.set_status CANCELLED x]> (tickets s) ∧
          showtimes (store_after r)
          = <[Ticket.showtime_id x := Showtime.add_sold (-1) sh]> (showtimes s) ∧
          purchasedCount (store_after r) (Ticket.showtime_id x)
          = purchasedCount s (Ticket.showtime_id x) - 1)).
Proof.
  intros Hc. split.
  - intros showtimeId d r. subst r.
    rewrite purchaseTicketWithTransaction_paths. simpl.
    destruct (showtimes s !! showtimeId) as [x |] eqn:Hx; [| by split].
    destruct (theaters s !! Showtime.theater_id x) as [th |]; [| by split].
    destruct (Showtime.sold_tickets x >=? Theater.capacity th); [by split |].
    destruct (List.find _ _) as [y |]; [by split |].
    unfold store_after, result. simpl. split.
    + by apply purchased_consistent.
    + intros v _. exists (fresh (dom (tickets s))), x.
      repeat split; try done.
      * apply fresh_ticket_id.
      * by apply alter_alt_Some.
      * unfold purchasedCount. simpl.
        rewrite countPurchased_insert_new by apply fresh_ticket_id.
        by rewrite decide_True.
  - intros ticketId r. subst r.
    rewrite cancelTicketWithTransaction_paths. simpl.
    destruct (tickets s !! ticketId) as [x |] eqn:Hx; [| by split].
    case_bool_decide as Hp; [| by split].
    destruct (showtimes s !! Ticket.showtime_id x) as [sh |] eqn:Hsh;
      [| by split].
    unfold store_after, result. simpl. split.
    + by apply cancelled_consistent.
    + intros v _. exists x, sh. repeat split; try done.
      * by apply alter_alt_Some.
      * by apply alter_alt_Some.
      * unfold purchasedCount. simpl.
        rewrite (countPurchased_alter _ _ _ _ _ Hx).
        rewrite decide_True by done.
        rewrite decide_False by (intros [_ ?]; done). lia.
Qed.

Lemma transactions_keep_counter_consistent_witness :
  counterConsistent
    (store_after (TicketsRepository.cancelTicketWithTransaction "k1" boxOffice)).
Proof.
  apply (proj2 (transactions_keep_counter_consistent boxOffice
           boxOffice_consistent) "k1").
Defined.

(** C4 fails for two cancellations of one ticket that overlap. Both
    transactions read Ann's ticket as Purchased before either writes and
    both run to their end: the ticket is Cancelled, the counter of the
    showtime has gone from 1 to -1, and no Purchased ticket is left, so
    the counter no longer equals the number of Purchased tickets. Run
    one after the other, the second cancellation is refused, writes
    nothing, and the counter stays right. *)
Theorem overlapping_cancels_break_counter :
  let r := interleavedCancels "k1" boxOffice in
  let first := TicketsRepository.cancelTicketWithTransaction "k1" boxOffice in
  let second :=
    TicketsRepository.cancelTicketWithTransaction "k1" (store_after first) in
  counterConsistent boxOffice ∧
  showtimes boxOffice !! "s1" = Some evening ∧
  Showtime.sold_tickets evening = 1 ∧
  purchasedCount boxOffice "s1" = 1 ∧
  result r
  = Return (Manager.loadTicket (store_after r) <$> tickets (store_after r) !! "k1") ∧
  tickets (store_after r) = {["k1" := Ticket.set_status CANCELLED annTicket]} ∧
  showtimes (store_after r) = {["s1" := Showtime.add_sold (-2) evening]} ∧
  Showtime.sold_tickets (Showtime.add_sold (-2) evening) = -1 ∧
  purchasedCount (store_after r) "s1" = 0 ∧
  ¬ counterConsistent (store_after r) ∧
  store_after first = refunded ∧
  result second = Throw (Error "Only purchased tickets can be cancelled") ∧
  store_after second = refunded ∧
  counterConsistent refunded.
Proof.
  intros r first second.
  assert (Hs : showtimes (store_after r)
               = {["s1" := Showtime.add_sold (-2) evening]})
    by (vm_compute; reflexivity).
  assert (Hc : purchasedCount (store_after r) "s1" = 0)
    by (vm_compute; reflexivity).
  assert (Hf : store_after first = refunded) by (vm_compute; reflexivity).
  split; [apply boxOffice_consistent |].
  split; [vm_compute; reflexivity |].
  split; [reflexivity |].
  split; [vm_compute; reflexivity |].
  split; [vm_compute; reflexivity |].
  split; [vm_compute; reflexivity |].
  split; [exact Hs |].
  split; [reflexivity |].
  split; [exact Hc |].
  split.
  { intros H. specialize (H "s1" (Showtime.add_sold (-2) evening)).
    rewrite Hs, Hc in H. specialize (H (lookup_singleton_eq _ _)).
    discriminate. }
  split; [exact Hf |].
  split; [vm_compute; reflexivity |].
  split; [vm_compute; reflexivity |].
  rewrite <- Hf. apply cancel_transaction_consistent, boxOffice_consistent.
Qed.

(* ================================================================== *)
(** * Seat uniqueness (C5) *)
(* ================================================================== *)

Lemma purchase_keeps_seats_distinct s showtimeId d :
  seatsDistinct s →
  seatsDistinct
    (store_after (TicketsRepository.purchaseTicketWithTransaction showtimeId d s)).
Proof.
  intros Hs. rewrite purchaseTicketWithTransaction_paths. simpl.
  destruct (showtimes s !! showtimeId) as [x |]; [| done].
  destruct (theaters s !! Showtime.theater_id x) as [th |]; [| done].
  destruct (Showtime.sold_tickets x >=? Theater.capacity th); [done |].
  destruct (List.find _ _) as [y |] eqn:Hfind; [done |].
  apply find_seat_None in Hfind.
  unfold store_after. simpl.
  intros id1 id2 x1 x2 H1 H2 P1 P2 Hsh Hseat.
  unfold purchased in H1, H2. simpl in H1, H2.
  apply lookup_insert_Some in H1 as [[<- <-] | [Hn1 H1]];
    apply lookup_insert_Some in H2 as [[<- <-] | [Hn2 H2]].
  - done.
  - destruct Hfind. exists id2, x2. simpl in *. by rewrite <- Hsh, <- Hseat.
  - destruct Hfind. exists id1, x1. simpl in *. by rewrite Hsh, Hseat.
  - by apply (Hs id1 id2 x1 x2).
Qed.

Lemma fullHouse_seats_distinct : seatsDistinct fullHouse.
Proof.
  intros id1 id2 x1 x2 H1 H2 _ _ _ Hseat. unfold fullHouse in H1, H2.
  simpl in H1, H2.
  apply lookup_insert_Some in H1 as [[<- <-] | [_ H1]];
    apply lookup_insert_Some in H2 as [[<- <-] | [_ H2]];
    try apply lookup_singleton_Some in H1 as [<- <-];
    try apply lookup_singleton_Some in H2 as [<- <-];
    done.
Qed.

(** C5 fails in the ticket update. With seats A-1 and A-2 of the
    showtime both sold, updating the first ticket to seat [a-2] is not
    refused: the occupancy query runs on the seat as typed, the seat is
    upper-cased afterwards, and the store ends with two Purchased
    tickets on seat A-2. *)
Theorem ticket_update_takes_held_seat :
  let dto := UpdateTicketDto.mk None None (Some "a-2") None in
  let r := TicketsService.update 500 "k1" dto fullHouse in
  seatsDistinct fullHouse ∧
  seatHeld fullHouse "s1" "A-2" ∧
  result r = Return (Ticket.mk "Ann" "ann@x.io" "A-2" PURCHASED 1550 "s1") ∧
  tickets (store_after r) !! "k1"
  = Some (Ticket.mk "Ann" "ann@x.io" "A-2" PURCHASED 1550 "s1") ∧
  tickets (store_after r) !! "k2" = Some bobTicket ∧
  ¬ seatsDistinct (store_after r).
Proof.
  intros dto r.
  assert (H1 : tickets (store_after r) !! "k1"
               = Some (Ticket.mk "Ann" "ann@x.io" "A-2" PURCHASED 1550 "s1"))
    by (vm_compute; reflexivity).
  assert (H2 : tickets (store_after r) !! "k2" = Some bobTicket)
    by (vm_compute; reflexivity).
  split; [apply fullHouse_seats_distinct |].
  split.
  { exists "k2", bobTicket. vm_compute. repeat split; reflexivity. }
  split; [vm_compute; reflexivity |].
  split; [done |]. split; [done |].
  intros Hd.
  by specialize (Hd "k1" "k2" _ _ H1 H2 eq_refl eq_refl eq_refl eq_refl).
Qed.

(* ================================================================== *)
(** * The schedule conflict detector (C6) *)
(* ================================================================== *)

Lemma conflictsWith_reportable s theaterId startTime endTime excludeId x :
  showtimes s !! x.1 = Some x.2 →
  ShowtimesRepository.conflictsWith s theaterId startTime endTime excludeId x = true
  ↔ reportable s theaterId startTime endTime excludeId x.
Proof.
  intros Hx. unfold ShowtimesRepository.conflictsWith, reportable, overlap.
  rewrite !andb_true_iff, !bool_decide_eq_true, Z.ltb_lt, Z.gtb_gt.
  assert ((match excludeId with
           | Some e => if Js.isEmpty e then true else negb (bool_decide (x.1 = e))
           | None => true
           end = true)
          ↔ (Js.truthy excludeId = true → excludeId ≠ Some x.1)) as ->.
  { destruct excludeId as [e |]; simpl; [| by split].
    destruct (Js.isEmpty e); simpl; [by split |].
    rewrite negb_true_iff, bool_decide_eq_false.
    split; [intros H _ ?; apply H; congruence
           | intros H ?; apply H; [done | congruence]]. }
  split.
  - intros [[[[Hth Heq] Hs] He] Hex]. subst theaterId.
    repeat split; try done; lia.
  - intros (_ & Heq & Hth & [Hs He] & Hex). subst theaterId.
    repeat split; try done; lia.
Qed.

(** C6. The detector reports a showtime only if it is a showtime of the
    given theater whose interval [[s2,e2)] satisfies [s1 < e2] and
    [s2 < e1] for the candidate [[s1,e1)] and whose id is not the
    supplied [excludeId]; it reports one whenever there is such a
    showtime. A showtime that ends when the candidate starts, or starts
    when the candidate ends, is never reported, and neither is the
    showtime named by a supplied [excludeId]. *)
Theorem findConflictingShowtime_overlap s theaterId startTime endTime excludeId :
  let r := result (ShowtimesRepository.findConflictingShowtime
                     theaterId startTime endTime excludeId s) in
  (∀ x, r = Return (Some x) →
     reportable s theaterId startTime endTime excludeId x) ∧
  ((∃ x, reportable s theaterId startTime endTime excludeId x) →
     ∃ y, r = Return (Some y)) ∧
  (∀ x, r = Return (Some x) →
     Showtime.end_time x.2 ≠ startTime ∧ Showtime.start_time x.2 ≠ endTime) ∧
  (∀ x e, r = Return (Some x) → excludeId = Some e → e ≠ "" → x.1 ≠ e).
Proof.
  intros r. subst r.
  unfold ShowtimesRepository.findConflictingShowtime, result. simpl.
  assert (Hsound : ∀ x,
    Return (List.find
      (ShowtimesRepository.conflictsWith s theaterId startTime endTime excludeId)
      (map_to_list (showtimes s))) = Return (Some x) →
    reportable s theaterId startTime endTime excludeId x).
  { intros x [= H]. apply find_some in H as [Hin Hc].
    apply list_elem_of_In in Hin. destruct x as [id y].
    apply elem_of_map_to_list in Hin.
    by apply conflictsWith_reportable. }
  split; [exact Hsound |]. split; [| split].
  - intros [x Hx].
    destruct (List.find _ _) as [y |] eqn:Hfind; [by eauto |].
    assert (ShowtimesRepository.conflictsWith s theaterId startTime endTime
              excludeId x = false) as Hf.
    { apply (find_none _ _ Hfind). apply list_elem_of_In.
      destruct x as [id y]. apply elem_of_map_to_list. apply Hx. }
    assert (ShowtimesRepository.conflictsWith s theaterId startTime endTime
              excludeId x = true) as Ht.
    { apply conflictsWith_reportable; [apply Hx | done]. }
    congruence.
  - intros x H. apply Hsound in H as (_ & _ & _ & [H1 H2] & _). lia.
  - intros x e H -> He.
    apply Hsound in H as (_ & _ & _ & _ & Hex). intros Heq.
    apply Hex; [simpl; by destruct e | by rewrite Heq].
Qed.

Lemma findConflictingShowtime_overlap_witness :
  ∃ y, result (ShowtimesRepository.findConflictingShowtime
                 "t1" 3600000 10800000 None boxOffice) = Return (Some y).
Proof.
  apply (proj1 (proj2 (findConflictingShowtime_overlap
                         boxOffice "t1" 3600000 10800000 None))).
  exists ("s1", evening).
  split; [vm_compute; reflexivity |]. split; [reflexivity |].
  split; [exists hall; vm_compute; reflexivity |].
  split; [split; simpl; lia | discriminate].
Defined.

(* ================================================================== *)
(** * Showtime update and the conflict check (C7) *)
(* ================================================================== *)

Ltac quiet_trace :=
  split; [intros ?; rewrite !elem_of_cons, elem_of_nil; intuition discriminate
         | done].

(** An update that names neither a movie nor a start time never
    consults the conflict detector, whatever else it changes. *)
Lemma update_without_movie_or_start now id dto s :
  Js.truthy (UpdateShowtimeDto.movie_id dto) = false →
  UpdateShowtimeDto.start_time dto = None →
  let r := ShowtimesService.update now id dto s in
  (∀ theaterId, SelectConflict theaterId ∉ trace r) ∧
  result r ≠ Throw SchedulingConflict.
Proof.
  intros Hm Hs.
  unfold ShowtimesService.update, ShowtimesRepository.update,
    ShowtimesRepository.findWithRelations, ShowtimesRepository.findById,
    TheatersRepository.findById, Manager.findOneShowtime,
    Manager.findOneTheater, Manager.updateShowtime,
    ShowtimeData.unknownProperty,
    bind, require, check, ret, throw, result, trace.
  rewrite Hm, Hs. simpl.
  destruct (showtimes s !! id) as [x |] eqn:Hx; simpl.
  2: { quiet_trace. }
  destruct (Showtime.start_time x <=? now); simpl.
  { quiet_trace. }
  destruct (UpdateShowtimeDto.theater_id dto) as [th |]; simpl.
  - destruct (Js.isEmpty th); simpl.
    + destruct (UpdateShowtimeDto.movie_id dto); simpl; quiet_trace.
    + destruct (theaters s !! th) as [y |]; simpl.
      2: { quiet_trace. }
      destruct (Theater.is_active y); simpl.
      2: { quiet_trace. }
      destruct (UpdateShowtimeDto.movie_id dto); simpl; quiet_trace.
  - destruct (UpdateShowtimeDto.movie_id dto); simpl.
    + quiet_trace.
    + rewrite lookup_alter_eq, Hx. simpl. quiet_trace.
Qed.

(** C7 fails for an update that changes only the theater. The evening
    showtime of hall t1 is to move to hall t2, where the matinee
    occupies the same interval: the detector is never queried and no
    scheduling conflict is raised. The request passes every guard of the
    service and ends in the repository, which rejects the key
    [theater_id] and writes nothing. The same move is refused with the
    scheduling-conflict error as soon as the request also carries the
    (unchanged) start time. *)
Theorem showtime_update_theater_only_unchecked :
  let dto := UpdateShowtimeDto.mk None (Some "t2") None None in
  let r := ShowtimesService.update 500 "s1" dto twoHalls in
  reportable twoHalls "t2" (Showtime.start_time evening)
    (Showtime.end_time evening) (Some "s1") ("s2", matinee) ∧
  trace r = [SelectShowtime "s1"; Validate ShowtimeExists; Validate StartInFuture;
             SelectTheater "t2"; Validate TheaterExists; Validate TheaterActive] ∧
  (∀ theaterId, SelectConflict theaterId ∉ trace r) ∧
  result r ≠ Throw SchedulingConflict ∧
  result r = Throw (EntityPropertyNotFoundError "theater_id" "Showtime") ∧
  store_after r = twoHalls ∧
  result (ShowtimesService.update 500 "s1"
            (UpdateShowtimeDto.mk None (Some "t2") (Some 1000) None) twoHalls)
  = Throw SchedulingConflict.
Proof.
  intros dto r. split.
  { split; [vm_compute; reflexivity |]. split; [reflexivity |].
    split; [exists hall; vm_compute; reflexivity |].
    split; [split; simpl; lia | intros _; discriminate]. }
  assert (Ht : trace r
    = [SelectShowtime "s1"; Validate ShowtimeExists; Validate StartInFuture;
       SelectTheater "t2"; Validate TheaterExists; Validate TheaterActive])
    by (vm_compute; reflexivity).
  assert (Hr : result r
    = Throw (EntityPropertyNotFoundError "theater_id" "Showtime"))
    by (vm_compute; reflexivity).
  split; [exact Ht |].
  split.
  { intros theaterId. rewrite Ht, !elem_of_cons, elem_of_nil.
    intuition discriminate. }
  split; [rewrite Hr; discriminate |].
  split; [exact Hr |].
  split; vm_compute; reflexivity.
Qed.

(* ================================================================== *)
(** * Cancelling a cancelled ticket (C8) *)
(* ================================================================== *)

(** A committed purchase, seen from the service. *)
Lemma purchaseTicket_Return now showtimeId dto s v :
  result (TicketsService.purchaseTicket now showtimeId dto s) = Return v →
  ∃ x,
    showtimes s !! showtimeId = Some x ∧
    now < Showtime.start_time x ∧
    TicketsService.isValidEmail (PurchaseTicketDto.customer_email dto) = true ∧
    TicketsService.isValidSeatNumber (PurchaseTicketDto.seat_number dto) = true ∧
    ¬ seatHeld s showtimeId (TicketData.seat_number (cleanData dto)) ∧
    store_after (TicketsService.purchaseTicket now showtimeId dto s)
    = purchased s x showtimeId (cleanData dto).
Proof.
  rewrite purchaseTicket_paths. simpl.
  destruct (showtimes s !! showtimeId) as [x |] eqn:Hx; [| done].
  destruct (Z.leb_spec (Showtime.start_time x) now) as [| Hnow]; [done |].
  destruct (TicketsService.isValidEmail _) eqn:He; [| done].
  destruct (TicketsService.isValidSeatNumber _) eqn:Hs; [| done].
  rewrite purchaseTicketWithTransaction_paths. simpl. rewrite Hx.
  destruct (theaters s !! Showtime.theater_id x) as [th |]; [| done].
  destruct (Showtime.sold_tickets x >=? Theater.capacity th); [done |].
  destruct (List.find _ _) as [y |] eqn:Hfind; [done |].
  apply find_seat_None in Hfind. intros _. by exists x.
Qed.

(** The cancel request writes nothing unless it commits, and then it
    leaves the store [cancelled]. *)
Lemma cancelTicket_store now ticketId s :
  store_after (TicketsService.cancelTicket now ticketId s) = s ∨
  ∃ x, tickets s !! ticketId = Some x ∧ Ticket.status x = PURCHASED ∧
       store_after (TicketsService.cancelTicket now ticketId s)
       = cancelled s ticketId x.
Proof.
  rewrite cancelTicket_paths. simpl.
  destruct (tickets s !! ticketId) as [x |] eqn:Hx; [| by left].
  destruct (showtimes s !! Ticket.showtime_id x) as [sh |] eqn:Hsh; [| by left].
  destruct (Showtime.start_time sh <=? now); [by left |].
  case_bool_decide as Hp; [| by left].
  rewrite cancelTicketWithTransaction_paths. simpl.
  rewrite Hx, Hsh, bool_decide_true by done. right. by exists x.
Qed.

(** C8, as stated, fails: the cancelled ticket of a showtime that has
    started is refused with the past-or-ongoing error, which is not the
    invalid-ticket-state error. *)
Lemma cancel_cancelled_after_start :
  let r := TicketsService.cancelTicket 2000 "k1" refunded in
  tickets refunded !! "k1" = Some (Ticket.set_status CANCELLED annTicket) ∧
  result r = Throw CancelPastOrOngoing ∧
  result r ≠ Throw InvalidTicketState.
Proof. vm_compute. repeat split; [reflexivity .. | discriminate]. Qed.

(** C8 (amended). For every ticket whose status is already Cancelled
    the cancel operation fails and leaves the store, hence the
    showtime's [sold_tickets] and the ticket's status, unchanged; the
    error is the invalid-ticket-state error when the showtime has not
    started, and the past-or-ongoing error when it has, because the
    start-time guard runs first. Under cancel a ticket's status changes
    only from Purchased to Cancelled, and purchase leaves every
    existing ticket as it is. *)
Theorem cancel_rejects_cancelled_ticket now s :
  (∀ ticketId x sh,
     tickets s !! ticketId = Some x →
     Ticket.status x = CANCELLED →
     showtimes s !! Ticket.showtime_id x = Some sh →
     let r := TicketsService.cancelTicket now ticketId s in
     store_after r = s ∧
     (now < Showtime.start_time sh → result r = Throw InvalidTicketState) ∧
     (Showtime.start_time sh ≤ now → result r = Throw CancelPastOrOngoing)) ∧
  (∀ ticketId id y,
     tickets s !! id = Some y →
     ∃ y',
       tickets (store_after (TicketsService.cancelTicket now ticketId s)) !! id
       = Some y' ∧
       (Ticket.status y' = Ticket.status y ∨
        (Ticket.status y = PURCHASED ∧ Ticket.status y' = CANCELLED))) ∧
  (∀ showtimeId dto id y,
     tickets s !! id = Some y →
     tickets (store_after (TicketsService.purchaseTicket now showtimeId dto s)) !! id
     = Some y).
Proof.
  split; [| split].
  - intros ticketId x sh Hx Hst Hsh r. subst r.
    rewrite cancelTicket_paths. simpl. rewrite Hx, Hsh.
    destruct (Z.leb_spec (Showtime.start_time sh) now) as [Hle | Hlt].
    + repeat split; try done; lia.
    + rewrite bool_decide_false by congruence.
      repeat split; try done; lia.
  - intros ticketId id y Hy.
    destruct (cancelTicket_store now ticketId s) as [-> | (x & Hx & Hp & ->)];
      [by eauto |].
    unfold cancelled. simpl. rewrite lookup_alter.
    destruct (decide (ticketId = id)) as [<- | Hne]; [| by eauto].
    rewrite Hy. simpl. eexists. split; [done |]. right.
    split; [congruence | done].
  - intros showtimeId dto id y Hy.
    destruct (result (TicketsService.purchaseTicket now showtimeId dto s))
      as [v | e] eqn:Hr.
    + apply purchaseTicket_Return in Hr as (x & _ & _ & _ & _ & _ & ->).
      unfold purchased. simpl. rewrite lookup_insert_ne; [done |].
      intros Heq. pose proof (fresh_ticket_id (tickets s)) as Hf.
      rewrite Heq in Hf. congruence.
    + revert Hr. rewrite purchaseTicket_paths. simpl.
      destruct (showtimes s !! showtimeId) as [x |] eqn:Hx; [| done].
      destruct (Showtime.start_time x <=? now); [done |].
      destruct (TicketsService.isValidEmail _); [| done].
      destruct (TicketsService.isValidSeatNumber _); [| done].
      rewrite purchaseTicketWithTransaction_paths. simpl. rewrite Hx.
      destruct (theaters s !! Showtime.theater_id x) as [th |]; [| done].
      destruct (Showtime.sold_tickets x >=? Theater.capacity th); [done |].
      by destruct (List.find _ _).
Qed.

Lemma cancel_rejects_cancelled_ticket_witness :
  store_after (TicketsService.cancelTicket 500 "k1" refunded) = refunded ∧
  result (TicketsService.cancelTicket 500 "k1" refunded)
  = Throw InvalidTicketState.
Proof.
  pose proof (proj1 (cancel_rejects_cancelled_ticket 500 refunded) "k1"
                (Ticket.set_status CANCELLED annTicket)
                (Showtime.add_sold (-1) evening)
                ltac:(vm_compute; reflexivity) eq_refl
                ltac:(vm_compute; reflexivity)) as (Hs & Hr & _).
  split; [exact Hs | apply Hr; simpl; lia].
Defined.

(* ================================================================== *)
(** * Seat numbers (C9) *)
(* ================================================================== *)

(** The purchase transaction never raises the seat-format error. *)
Lemma purchaseTicketWithTransaction_format showtimeId d s :
  result (TicketsRepository.purchaseTicketWithTransaction showtimeId d s)
  ≠ Throw InvalidSeatFormat.
Proof.
  rewrite purchaseTicketWithTransaction_paths. simpl.
  destruct (showtimes s !! showtimeId) as [x |]; [| done].
  destruct (theaters s !! Showtime.theater_id x) as [th |]; [| done].
  destruct (Showtime.sold_tickets x >=? Theater.capacity th); [done |].
  destruct (List.find _ _) as [y |]; [| done].
  unfold result, SeatTaken, InvalidSeatFormat. simpl. discriminate.
Qed.

(** C9, as stated, fails: [  a-1  ] trimmed and upper-cased is [A-1],
    which matches the pattern, and the purchase is refused with the
    seat-format error. *)
Lemma purchase_padded_seat_refused :
  seatPattern (Js.toUpperCase (Js.trim "  a-1  ")) ∧
  result (TicketsService.purchaseTicket 500 "s1"
            (PurchaseTicketDto.mk "Bob" "bob@x.io" "  a-1  ") boxOffice)
  = Throw InvalidSeatFormat.
Proof.
  split; [| vm_compute; reflexivity].
  apply seatRegex_seatPattern. vm_compute. reflexivity.
Qed.

(** C9 (amended). A purchase that reaches the seat validation (the
    showtime exists and has not started, the email is valid) fails with
    the seat-format error exactly when the upper-cased seat number, not
    trimmed, does not match the pattern of 1-2 letters, a hyphen, and
    1-3 digits. The ticket of a committed purchase carries the trimmed,
    upper-cased seat number, which then is the upper-cased input. *)
Theorem purchase_seat_format now showtimeId dto s x :
  showtimes s !! showtimeId = Some x →
  now < Showtime.start_time x →
  TicketsService.isValidEmail (PurchaseTicketDto.customer_email dto) = true →
  let r := TicketsService.purchaseTicket now showtimeId dto s in
  let seat := PurchaseTicketDto.seat_number dto in
  (result r = Throw InvalidSeatFormat ↔ ¬ seatPattern (Js.toUpperCase seat)) ∧
  (∀ v, result r = Return v →
     ∃ id y,
       tickets s !! id = None ∧
       tickets (store_after r) !! id = Some y ∧
       Ticket.seat_number y = Js.toUpperCase (Js.trim seat) ∧
       Js.toUpperCase (Js.trim seat) = Js.toUpperCase seat).
Proof.
  intros Hx Hnow Hemail r seat. split.
  - subst r seat. rewrite purchaseTicket_paths. simpl. rewrite Hx, Hemail.
    destruct (Z.leb_spec (Showtime.start_time x) now) as [| _]; [lia |].
    rewrite <- seatRegex_seatPattern.
    unfold TicketsService.isValidSeatNumber.
    destruct (Regex.test _ _) eqn:Hseat.
    + split; [| done]. intros Hr. exfalso.
      apply (purchaseTicketWithTransaction_format showtimeId (cleanData dto) s).
      revert Hr. unfold result.
      destruct (TicketsRepository.purchaseTicketWithTransaction _ _ _)
        as [[[v | e] s'] t]; simpl; [discriminate | by intros [= ->]].
    + split; [by intros _ | done].
  - intros v Hr. subst r seat.
    apply purchaseTicket_Return in Hr as (x' & _ & _ & _ & Hseat & _ & ->).
    exists (fresh (dom (tickets s))), (newTicket x' showtimeId (cleanData dto)).
    split; [apply fresh_ticket_id |].
    split; [unfold purchased; simpl; apply lookup_insert_eq |].
    split; [done |].
    by rewrite (isValidSeatNumber_trim _ Hseat).
Qed.

Lemma purchase_seat_format_witness :
  ∃ id y,
    tickets boxOffice !! id = None ∧
    tickets (store_after (TicketsService.purchaseTicket 500 "s1"
               (PurchaseTicketDto.mk "Bob" "Bob@X.io" "a-2") boxOffice)) !! id
    = Some y ∧
    Ticket.seat_number y = Js.toUpperCase (Js.trim "a-2") ∧
    Js.toUpperCase (Js.trim "a-2") = Js.toUpperCase "a-2".
Proof.
  refine (proj2 (purchase_seat_format 500 "s1"
            (PurchaseTicketDto.mk "Bob" "Bob@X.io" "a-2") boxOffice evening
            _ _ _) _ _).
  - vm_compute. reflexivity.
  - simpl. lia.
  - vm_compute. reflexivity.
  - vm_compute. reflexivity.
Defined.

(* ================================================================== *)
(** * Customer emails (C10) *)
(* ================================================================== *)

Lemma findByCustomerEmail_paths email s :
  TicketsService.findByCustomerEmail email s =
  if TicketsService.isValidEmail email
  then
    (Return
       (List.filter
          (λ x : entity Ticket.t,
             bool_decide (Ticket.customer_email x.2
                          = Js.trim (Js.toLowerCase email)))
          (map_to_list (tickets s))),
     s, [Validate EmailFormat; SelectByEmail (Js.trim (Js.toLowerCase email))])
  else (Throw InvalidEmailFormat, s, [Validate EmailFormat]).
Proof.
  unfold TicketsService.findByCustomerEmail,
    TicketsRepository.findByCustomerEmail, Manager.findTicketsByEmail,
    bind, check.
  by destruct (TicketsService.isValidEmail email).
Qed.

Lemma isValidEmail_same_lower e1 e2 :
  Js.toLowerCase e1 = Js.toLowerCase e2 →
  TicketsService.isValidEmail e1 = TicketsService.isValidEmail e2.
Proof.
  intros H.
  rewrite <- (isValidEmail_toLowerCase e1), <- (isValidEmail_toLowerCase e2).
  by rewrite H.
Qed.

(** C10, as stated, fails for surrounding white space: the sample box
    office holds Ann's ticket under [ann@x.io]; the lookup finds it for
    that address and for [ANN@X.IO], and refuses the address padded with
    blanks, although trimming it gives [ann@x.io]. *)
Lemma email_lookup_padded_refused :
  Js.trim (Js.toLowerCase " ann@x.io ") = "ann@x.io" ∧
  result (TicketsService.findByCustomerEmail "ann@x.io" boxOffice)
  = Return [("k1", annTicket)] ∧
  result (TicketsService.findByCustomerEmail "ANN@X.IO" boxOffice)
  = Return [("k1", annTicket)] ∧
  result (TicketsService.findByCustomerEmail " ann@x.io " boxOffice)
  = Throw InvalidEmailFormat.
Proof. vm_compute. repeat split; reflexivity. Qed.

(** C10 (amended). Every ticket created through purchase stores
    [customer_email] lower-cased and trimmed, and the lookup by customer
    email queries with its argument lower-cased and trimmed, so
    retrieval is insensitive to the letter case of the caller's input:
    two arguments that differ only in case give the same answer, and a
    ticket just purchased is found under any such spelling of its
    email. Surrounding white space is not ignored: an argument that
    trimming would change is refused with the email-format error. *)
Theorem email_lookup_case_insensitive s :
  (∀ now showtimeId dto v,
     let r := TicketsService.purchaseTicket now showtimeId dto s in
     let email := PurchaseTicketDto.customer_email dto in
     result r = Return v →
     ∃ id y,
       tickets s !! id = None ∧
       tickets (store_after r) !! id = Some y ∧
       Ticket.customer_email y = Js.trim (Js.toLowerCase email) ∧
       ∀ email', Js.toLowerCase email' = Js.toLowerCase email →
         ∃ found,
           result (TicketsService.findByCustomerEmail email' (store_after r))
           = Return found ∧
           (id, y) ∈ found) ∧
  (∀ email,
     TicketsService.isValidEmail email = true →
     trace (TicketsService.findByCustomerEmail email s)
     = [Validate EmailFormat; SelectByEmail (Js.trim (Js.toLowerCase email))]) ∧
  (∀ e1 e2,
     Js.toLowerCase e1 = Js.toLowerCase e2 →
     TicketsService.findByCustomerEmail e1 s
     = TicketsService.findByCustomerEmail e2 s) ∧
  (∀ email,
     Js.trim email ≠ email →
     result (TicketsService.findByCustomerEmail email s)
     = Throw InvalidEmailFormat).
Proof.
  split; [| split; [| split]].
  - intros now showtimeId dto v r email Hr. subst r email.
    apply purchaseTicket_Return in Hr as (x & _ & _ & Hemail & _ & _ & ->).
    set (id := fresh (dom (tickets s))).
    set (y := newTicket x showtimeId (cleanData dto)).
    assert (Hy : tickets (purchased s x showtimeId (cleanData dto)) !! id = Some y)
      by (unfold purchased; simpl; apply lookup_insert_eq).
    exists id, y. split; [apply fresh_ticket_id |]. split; [done |].
    split; [done |].
    intros email' Hlow. rewrite findByCustomerEmail_paths.
    rewrite (isValidEmail_same_lower _ _ Hlow), Hemail, Hlow.
    eexists. split; [done |].
    apply list_elem_of_In, filter_In. split.
    + apply list_elem_of_In. by apply elem_of_map_to_list.
    + by apply bool_decide_eq_true.
  - intros email Hv. rewrite findByCustomerEmail_paths. by rewrite Hv.
  - intros e1 e2 Hlow. rewrite !findByCustomerEmail_paths.
    by rewrite (isValidEmail_same_lower _ _ Hlow), Hlow.
  - intros email Htrim. rewrite findByCustomerEmail_paths.
    destruct (TicketsService.isValidEmail email) eqn:Hv; [| done].
    by apply isValidEmail_trim in Hv.
Qed.

Lemma email_lookup_case_insensitive_witness :
  TicketsService.findByCustomerEmail "Ann@X.io" boxOffice
  = TicketsService.findByCustomerEmail "ann@x.io" boxOffice.
Proof.
  apply (proj1 (proj2 (proj2 (email_lookup_case_insensitive boxOffice)))
           "Ann@X.io" "ann@x.io").
  reflexivity.
Defined.

(* ================================================================== *)
(** * What happens under the showtime lock (C2, C3) *)
(* ================================================================== *)

Lemma lockedAtb_sound showtimeId b P t :
  ∀ held, lockedAtb showtimeId b P held t = true →
  ∀ pre e post, t = pre ++ e :: post → P e = true →
    lockHeld showtimeId held pre = b.
Proof.
  induction t as [| a t IH]; intros held Hb pre e post Ht He.
  - by destruct pre.
  - simpl in Hb. apply andb_true_iff in Hb as [Ha Hb].
    destruct pre as [| a' pre]; simpl in Ht; injection Ht as -> ->.
    + simpl. rewrite He in Ha. by apply Bool.eqb_prop in Ha.
    + simpl. by eapply IH.
Qed.

Lemma lockedAtb_lockedAt showtimeId b P t :
  lockedAtb showtimeId b P false t = true → lockedAt showtimeId b P t.
Proof. intros H pre e post. by apply lockedAtb_sound. Qed.

Ltac check_trace :=
  apply lockedAtb_lockedAt; simpl; rewrite ?bool_decide_true by done;
  reflexivity.

(** C2, as stated, fails: the trace of a purchase in the sample box
    office shows the start-time validation, and the read it is decided
    on, ahead of the locking read of the transaction. *)
Lemma purchase_start_check_before_lock :
  let t := trace (TicketsService.purchaseTicket 500 "s1"
                    (PurchaseTicketDto.mk "Bob" "bob@x.io" "A-2") boxOffice) in
  t = [SelectShowtime "s1"; Validate ShowtimeExists; Validate StartInFuture;
       Validate EmailFormat; Validate SeatFormat;
       Begin; SelectShowtimeForUpdate "s1"; Validate ShowtimeExists;
       SelectShowtime "s1"; Validate ShowtimeExists; Validate Capacity;
       SelectSeat "s1" "A-2"; Validate SeatFree;
       InsertTicket "0"; Increment "s1"; SelectTicket "0"; Commit] ∧
  ¬ underLock "s1" (readAndCheck "s1") t.
Proof.
  intros t.
  assert (Ht : t = [SelectShowtime "s1"; Validate ShowtimeExists;
       Validate StartInFuture; Validate EmailFormat; Validate SeatFormat;
       Begin; SelectShowtimeForUpdate "s1"; Validate ShowtimeExists;
       SelectShowtime "s1"; Validate ShowtimeExists; Validate Capacity;
       SelectSeat "s1" "A-2"; Validate SeatFree;
       InsertTicket "0"; Increment "s1"; SelectTicket "0"; Commit])
    by (vm_compute; reflexivity).
  split; [exact Ht |]. rewrite Ht. intros H.
  specialize (H [SelectShowtime "s1"; Validate ShowtimeExists]
                (Validate StartInFuture) _ eq_refl eq_refl).
  discriminate.
Qed.

(** C2 (amended). In the purchase operation the capacity validation
    and the seat-occupancy validation with its query execute only while
    the exclusive lock of the showtime is held; inside the transaction
    so does the re-read of [sold_tickets] and capacity, which follows
    the locking read. The start-time validation is not among them: the
    transaction has none, and the one of the service runs before the
    lock is taken, on an unlocked read. *)
Theorem purchase_admission_under_lock now showtimeId dto s :
  let t := trace (TicketsService.purchaseTicket now showtimeId dto s) in
  underLock showtimeId (admissionCheck showtimeId) t ∧
  outsideLock showtimeId isStartCheck t ∧
  ∀ d,
    let tx := trace (TicketsRepository.purchaseTicketWithTransaction
                       showtimeId d s) in
    underLock showtimeId (readAndCheck showtimeId) tx ∧
    Validate StartInFuture ∉ tx.
Proof.
  intros t.
  assert (Htx : ∀ d,
    let tx := trace (TicketsRepository.purchaseTicketWithTransaction
                       showtimeId d s) in
    lockedAtb showtimeId true (readAndCheck showtimeId) false tx = true ∧
    lockedAtb showtimeId true (admissionCheck showtimeId) false tx = true ∧
    lockedAtb showtimeId false isStartCheck false tx = true ∧
    Validate StartInFuture ∉ tx).
  { intros d tx. subst tx.
    rewrite purchaseTicketWithTransaction_paths. unfold trace. simpl.
    destruct (showtimes s !! showtimeId) as [x |]; simpl;
      rewrite ?bool_decide_true by done; simpl.
    2: { repeat split; try done.
         rewrite !elem_of_cons, elem_of_nil; intuition discriminate. }
    destruct (theaters s !! Showtime.theater_id x) as [th |]; simpl;
      rewrite ?bool_decide_true by done; simpl.
    2: { repeat split; try done.
         rewrite !elem_of_cons, elem_of_nil; intuition discriminate. }
    destruct (Showtime.sold_tickets x >=? Theater.capacity th); simpl;
      rewrite ?bool_decide_true by done; simpl.
    { repeat split; try done.
      rewrite !elem_of_cons, elem_of_nil; intuition discriminate. }
    destruct (List.find _ _) as [y |]; simpl;
      rewrite ?bool_decide_true by done; simpl;
      (repeat split; try done;
       rewrite !elem_of_cons, elem_of_nil; intuition discriminate). }
  split; [| split].
  - subst t. rewrite purchaseTicket_paths. unfold trace. simpl.
    destruct (showtimes s !! showtimeId) as [x |]; [| check_trace].
    destruct (Showtime.start_time x <=? now); [check_trace |].
    destruct (TicketsService.isValidEmail _); [| check_trace].
    destruct (TicketsService.isValidSeatNumber _); [| check_trace].
    destruct (Htx (cleanData dto)) as (_ & H & _ & _). unfold trace in H.
    destruct (TicketsRepository.purchaseTicketWithTransaction _ _ _)
      as [[[v | e] s'] tx]; by apply lockedAtb_lockedAt.
  - subst t. rewrite purchaseTicket_paths. unfold trace. simpl.
    destruct (showtimes s !! showtimeId) as [x |]; [| check_trace].
    destruct (Showtime.start_time x <=? now); [check_trace |].
    destruct (TicketsService.isValidEmail _); [| check_trace].
    destruct (TicketsService.isValidSeatNumber _); [| check_trace].
    destruct (Htx (cleanData dto)) as (_ & _ & H & _). unfold trace in H.
    destruct (TicketsRepository.purchaseTicketWithTransaction _ _ _)
      as [[[v | e] s'] tx]; by apply lockedAtb_lockedAt.
  - intros d tx. destruct (Htx d) as (H & _ & _ & Hn).
    split; [by apply lockedAtb_lockedAt | done].
Qed.

(** The cancel transaction is its read followed by its writes. *)
Lemma cancel_read_then_write ticketId s :
  TicketsRepository.cancelTicketWithTransaction ticketId s
  = transaction (bind (cancelRead ticketId) (cancelWrite ticketId)) s.
Proof.
  rewrite cancelTicketWithTransaction_paths.
  unfold cancelRead, cancelWrite. io_unfold. simpl.
  destruct (tickets s !! ticketId) as [x |]; simpl; [| done].
  destruct (bool_decide _); simpl; [| done].
  by destruct (showtimes s !! Ticket.showtime_id x).
Qed.

(** No statement of the cancel transaction takes the showtime lock. *)
Lemma cancel_takes_no_lock ticketId s e :
  e ∈ trace (TicketsRepository.cancelTicketWithTransaction ticketId s) →
  isLockingRead e = false.
Proof.
  rewrite cancelTicketWithTransaction_paths. unfold trace. simpl.
  destruct (tickets s !! ticketId) as [x |]; simpl.
  2: { rewrite !elem_of_cons, elem_of_nil. intuition (by subst). }
  destruct (bool_decide _); simpl.
  2: { rewrite !elem_of_cons, elem_of_nil. intuition (by subst). }
  destruct (showtimes s !! Ticket.showtime_id x); simpl;
    rewrite !elem_of_cons, elem_of_nil; intuition (by subst).
Qed.

(** C3 fails: the cancel transaction takes no lock, so two cancels of
    one ticket are not serialized. In the sample box office both read
    Ann's ticket as Purchased before either writes; both then pass the
    guard, the ticket is flipped to Cancelled once and the counter of
    the showtime is decremented twice, to -1 with no Purchased ticket
    left. The purchase transaction, in contrast, starts with the locking
    read. *)
Theorem concurrent_cancels_not_serialized :
  let r := interleavedCancels "k1" boxOffice in
  (∀ e, e ∈ trace (TicketsRepository.cancelTicketWithTransaction "k1" boxOffice) →
        isLockingRead e = false) ∧
  trace r = [SelectTicket "k1"; Validate TicketExists; Validate TicketPurchased;
             SelectTicket "k1"; Validate TicketExists; Validate TicketPurchased;
             UpdateTicket "k1"; Decrement "s1"; SelectTicket "k1";
             UpdateTicket "k1"; Decrement "s1"; SelectTicket "k1"] ∧
  (∀ e, e ∈ trace r → isLockingRead e = false) ∧
  counterConsistent boxOffice ∧
  tickets (store_after r) !! "k1" = Some (Ticket.set_status CANCELLED annTicket) ∧
  Showtime.sold_tickets <$> showtimes (store_after r) !! "s1" = Some (-1) ∧
  purchasedCount (store_after r) "s1" = 0 ∧
  ¬ counterConsistent (store_after r).
Proof.
  intros r.
  assert (Ht : trace r
    = [SelectTicket "k1"; Validate TicketExists; Validate TicketPurchased;
       SelectTicket "k1"; Validate TicketExists; Validate TicketPurchased;
       UpdateTicket "k1"; Decrement "s1"; SelectTicket "k1";
       UpdateTicket "k1"; Decrement "s1"; SelectTicket "k1"])
    by (vm_compute; reflexivity).
  assert (Hs : showtimes (store_after r) !! "s1"
               = Some (Showtime.add_sold (-2) evening))
    by (vm_compute; reflexivity).
  assert (Hc : purchasedCount (store_after r) "s1" = 0)
    by (vm_compute; reflexivity).
  split; [intros e; apply cancel_takes_no_lock |].
  split; [exact Ht |].
  split.
  { intros e. rewrite Ht, !elem_of_cons, elem_of_nil. intuition (by subst). }
  split; [apply boxOffice_consistent |].
  split; [vm_compute; reflexivity |].
  split; [by rewrite Hs |].
  split; [exact Hc |].
  intros H. specialize (H "s1" _ Hs). rewrite Hc in H. discriminate.
Qed.

(* ================================================================== *)
(** * Sample runs *)
(* ================================================================== *)

Example seat_numbers :
  TicketsService.isValidSeatNumber "A-1" = true ∧
  TicketsService.isValidSeatNumber "b-15" = true ∧
  TicketsService.isValidSeatNumber "BB-123" = true ∧
  TicketsService.isValidSeatNumber "ABC-1" = false ∧
  TicketsService.isValidSeatNumber "A-1234" = false ∧
  TicketsService.isValidSeatNumber "A1" = false ∧
  TicketsService.isValidSeatNumber " A-1" = false.
Proof. vm_compute. repeat split; reflexivity. Qed.

Example emails :
  TicketsService.isValidEmail "john@example.com" = true ∧
  TicketsService.isValidEmail "a@b.c.d" = true ∧
  TicketsService.isValidEmail "a@b" = false ∧
  TicketsService.isValidEmail "a@b@c.d" = false ∧
  TicketsService.isValidEmail "a b@c.d" = false.
Proof. vm_compute. repeat split; reflexivity. Qed.

Example trimmed :
  Js.trim "  a-1  " = "a-1" ∧ Js.trim "a 1 " = "a 1" ∧ Js.trim "   " = "".
Proof. vm_compute. repeat split; reflexivity. Qed.

(** Capacity boundary: in the hall of two seats the second purchase
    succeeds and the third is sold out, the counter staying at 2. *)
Example capacity_boundary :
  let second := TicketsService.purchaseTicket 500 "s1"
                  (PurchaseTicketDto.mk "Bob" "bob@x.io" "A-2") boxOffice in
  let third := TicketsService.purchaseTicket 500 "s1"
                 (PurchaseTicketDto.mk "Cy" "cy@x.io" "A-3") (store_after second) in
  Showtime.sold_tickets <$> showtimes (store_after second) !! "s1" = Some 2 ∧
  result third = Throw SoldOut ∧
  Showtime.sold_tickets <$> showtimes (store_after third) !! "s1" = Some 2.
Proof. vm_compute. repeat split; reflexivity. Qed.

(** Cancel and rebuy: seat A-1 cannot be bought twice, and can be bought
    again once its ticket is cancelled. *)
Example cancel_rebuy :
  let twice := TicketsService.purchaseTicket 500 "s1"
                 (PurchaseTicketDto.mk "Bob" "bob@x.io" "A-1") boxOffice in
  let freed := TicketsService.cancelTicket 500 "k1" boxOffice in
  let again := TicketsService.purchaseTicket 500 "s1"
                 (PurchaseTicketDto.mk "Bob" "bob@x.io" "A-1") (store_after freed) in
  result twice = Throw (SeatTaken "A-1") ∧
  Showtime.sold_tickets <$> showtimes (store_after freed) !! "s1" = Some 0 ∧
  Ticket.status <$> tickets (store_after freed) !! "k1" = Some CANCELLED ∧
  Showtime.sold_tickets <$> showtimes (store_after again) !! "s1" = Some 1 ∧
  purchasedCount (store_after again) "s1" = 1.
Proof. vm_compute. repeat split; reflexivity. Qed.

(** Interval boundary: a candidate inside the evening showtime
    conflicts, one that starts when it ends does not. *)
Example interval_boundary :
  result (ShowtimesRepository.findConflictingShowtime
            "t1" 3600000 10800000 None boxOffice)
  = Return (Some ("s1", evening)) ∧
  result (ShowtimesRepository.findConflictingShowtime
            "t1" 7201000 14401000 None boxOffice)
  = Return None.
Proof. vm_compute. repeat split; reflexivity. Qed.

(** Temporal guard: five minutes after the start nothing is sold. *)
Example temporal_guard :
  result (TicketsService.purchaseTicket 301000 "s1"
            (PurchaseTicketDto.mk "Bob" "bob@x.io" "A-2") boxOffice)
  = Throw PurchasePastOrOngoing ∧
  result (ShowtimesService.update 301000 "s1"
            (UpdateShowtimeDto.mk None None None (Some 1000)) boxOffice)
  = Throw AlreadyStarted.
Proof. vm_compute. repeat split; reflexivity. Qed.

(** The generic ticket update writes the status of the request: it can
    turn a Cancelled ticket back to Purchased, without touching the
    counter. *)
Example ticket_update_writes_status :
  let r := TicketsService.update 500 "k1"
             (UpdateTicketDto.mk None None None (Some PURCHASED)) refunded in
  Ticket.status <$> tickets refunded !! "k1" = Some CANCELLED ∧
  Ticket.status <$> tickets (store_after r) !! "k1" = Some PURCHASED ∧
  Showtime.sold_tickets <$> showtimes (store_after r) !! "s1" = Some 0.
Proof. vm_compute. repeat split; reflexivity. Qed.

(* ================================================================== *)
(** * The listing of occupied seats *)
(* ================================================================== *)

Lemma insertBy_Permutation {A} (le : A → A → bool) a l :
  Statements.insertBy le a l ≡ₚ a :: l.
Proof.
  induction l as [| b l IH]; simpl; [done |].
  destruct (le a b); [done |]. rewrite IH. apply Permutation_swap.
Qed.

Lemma orderBy_Permutation {A} (le : A → A → bool) l :
  Statements.orderBy le l ≡ₚ l.
Proof.
  induction l as [| a l IH]; simpl; [done |].
  rewrite insertBy_Permutation. by rewrite IH.
Qed.

Lemma insertBy_Sorted {A} (le : A → A → bool) a l :
  (∀ x y, le x y = true ∨ le y x = true) →
  Sorted (λ x y, le x y = true) l →
  Sorted (λ x y, le x y = true) (Statements.insertBy le a l).
Proof.
  intros Htotal. induction 1 as [| b l Hs IH Hb]; simpl.
  - by repeat constructor.
  - destruct (le a b) eqn:Hab.
    + constructor; [by constructor | by constructor].
    + constructor; [done |].
      destruct l as [| c l]; simpl.
      * constructor. destruct (Htotal a b); congruence.
      * inversion Hb; subst. destruct (le a c); constructor; [| done].
        destruct (Htotal a b); congruence.
Qed.

Lemma orderBy_Sorted {A} (le : A → A → bool) l :
  (∀ x y, le x y = true ∨ le y x = true) →
  Sorted (λ x y, le x y = true) (Statements.orderBy le l).
Proof.
  intros Htotal. induction l as [| a l IH]; simpl; [constructor |].
  by apply insertBy_Sorted.
Qed.

Lemma Sorted_fmap {A B} (f : A → B) (R : B → B → Prop) l :
  Sorted (λ x y, R (f x) (f y)) l → Sorted R (f <$> l).
Proof.
  induction 1 as [| a l _ IH Ha]; simpl; constructor; [done |].
  destruct Ha; simpl; by constructor.
Qed.

(** The Purchased tickets of a showtime, as rows and as a count. *)
Lemma active_tickets_length (m : gmap string Ticket.t) showtimeId :
  Z.of_nat (length (filter (isPurchasedFor showtimeId) (map_to_list m)))
  = countPurchased m showtimeId.
Proof.
  unfold countPurchased. rewrite map_filter_alt.
  rewrite map_size_list_to_map; [done |].
  eapply sublist_NoDup; [apply (NoDup_fst_map_to_list m) |].
  apply fmap_sublist, sublist_filter.
Qed.

Lemma getOccupiedSeats_paths collate showtimeId s :
  TicketsServiceRest.getOccupiedSeats collate showtimeId s =
  match showtimes s !! showtimeId with
  | None => (Throw (ShowtimeNotFound showtimeId), s,
             [SelectShowtime showtimeId; Validate ShowtimeExists])
  | Some _ =>
      (Return
         (map (λ ticket : entity Ticket.t, Ticket.seat_number ticket.2)
            (Statements.orderBy
               (λ a b : entity Ticket.t,
                  collate (Ticket.seat_number a.2) (Ticket.seat_number b.2))
               (filter (isPurchasedFor showtimeId) (map_to_list (tickets s))))),
       s, [SelectShowtime showtimeId; Validate ShowtimeExists])
  end.
Proof.
  unfold TicketsServiceRest.getOccupiedSeats,
    TicketsRepositoryRest.getOccupiedSeats, Statements.findActiveTickets,
    ShowtimesRepository.findById, Manager.findOneShowtime, bind, require, ret.
  simpl. by destruct (showtimes s !! showtimeId).
Qed.

(** X1. The listing of occupied seats fails with not-found for a
    showtime that does not exist and changes nothing; for one that does
    it returns exactly the seats held by its Purchased tickets, as many
    entries as there are Purchased tickets, which is what
    [countTicketsByShowtime] returns. *)
Theorem occupied_seats_are_the_held_seats collate showtimeId s :
  let r := TicketsServiceRest.getOccupiedSeats collate showtimeId s in
  store_after r = s ∧
  (showtimes s !! showtimeId = None →
     result r = Throw (ShowtimeNotFound showtimeId)) ∧
  (is_Some (showtimes s !! showtimeId) →
     ∃ seats,
       result r = Return seats ∧
       (∀ seat, seat ∈ seats ↔ seatHeld s showtimeId seat) ∧
       Z.of_nat (length seats) = purchasedCount s showtimeId ∧
       result (TicketsRepositoryRest.countTicketsByShowtime showtimeId s)
       = Return (Z.of_nat (length seats))).
Proof.
  intros r. subst r. rewrite getOccupiedSeats_paths.
  destruct (showtimes s !! showtimeId) as [x |] eqn:Hx.
  - split; [done |]. split; [done |]. intros _. eexists. split; [done |].
    split; [| split].
    + intros seat. rewrite list_elem_of_fmap. split.
      * intros ([id y] & -> & Hin). rewrite orderBy_Permutation in Hin.
        apply list_elem_of_filter in Hin as [[Hsh Hst] Hin].
        apply elem_of_map_to_list in Hin. by exists id, y.
      * intros (id & y & Hy & Hsh & Hseat & Hst). exists (id, y).
        split; [done |]. rewrite orderBy_Permutation.
        apply list_elem_of_filter. split; [done |].
        by apply elem_of_map_to_list.
    + rewrite length_map, orderBy_Permutation. apply active_tickets_length.
    + unfold result. simpl. by rewrite length_map, orderBy_Permutation.
  - split; [done |]. split; [done |]. by intros [? ?].
Qed.

Lemma occupied_seats_are_the_held_seats_witness :
  ∃ seats,
    result (TicketsServiceRest.getOccupiedSeats String.leb "s1" fullHouse)
    = Return seats ∧
    (∀ seat, seat ∈ seats ↔ seatHeld fullHouse "s1" seat) ∧
    Z.of_nat (length seats) = purchasedCount fullHouse "s1" ∧
    result (TicketsRepositoryRest.countTicketsByShowtime "s1" fullHouse)
    = Return (Z.of_nat (length seats)).
Proof.
  apply (proj2 (proj2 (occupied_seats_are_the_held_seats
                         String.leb "s1" fullHouse))).
  eexists. vm_compute. reflexivity.
Defined.

(** X2. The listing is in ascending seat order for whatever total order
    the store compares seat numbers with; it has no duplicates when the
    Purchased seats of the showtime are distinct, and as many entries as
    the [sold_tickets] counter says when the counter is consistent. *)
Theorem occupied_seats_sorted_and_counted collate showtimeId s x seats :
  showtimes s !! showtimeId = Some x →
  result (TicketsServiceRest.getOccupiedSeats collate showtimeId s)
  = Return seats →
  ((∀ a b, collate a b = true ∨ collate b a = true) →
     Sorted (λ a b, collate a b = true) seats) ∧
  (seatsDistinct s → NoDup seats) ∧
  (counterConsistent s → Z.of_nat (length seats) = Showtime.sold_tickets x).
Proof.
  intros Hx. rewrite getOccupiedSeats_paths, Hx. unfold result. simpl.
  intros [= <-]. split; [| split].
  - intros Htotal.
    apply (Sorted_fmap (λ t : entity Ticket.t, Ticket.seat_number t.2)).
    apply orderBy_Sorted. intros a b. apply Htotal.
  - intros Hd. apply NoDup_fmap_2_strong.
    + intros [id1 y1] [id2 y2] H1 H2 Hseat. simpl in Hseat.
      rewrite orderBy_Permutation in H1, H2.
      apply list_elem_of_filter in H1 as [[Hs1 Hp1] H1].
      apply list_elem_of_filter in H2 as [[Hs2 Hp2] H2].
      apply elem_of_map_to_list in H1, H2. simpl in *.
      assert (id1 = id2) as ->
        by (apply (Hd id1 id2 y1 y2); congruence).
      congruence.
    + rewrite orderBy_Permutation. apply NoDup_filter, NoDup_map_to_list.
  - intros Hc. rewrite length_map, orderBy_Permutation, active_tickets_length.
    symmetry. by apply Hc.
Qed.

Lemma occupied_seats_sorted_and_counted_witness :
  Z.of_nat (length ["A-1"; "A-2"]) = Showtime.sold_tickets (Showtime.add_sold 1 evening).
Proof.
  refine (proj2 (proj2 (occupied_seats_sorted_and_counted
            String.leb "s1" fullHouse (Showtime.add_sold 1 evening)
            ["A-1"; "A-2"] _ _)) _).
  - vm_compute. reflexivity.
  - vm_compute. reflexivity.
  - intros id x Hx. destruct (decide (id = "s1")) as [-> | Hne].
    + injection Hx as <-. vm_compute. reflexivity.
    + unfold fullHouse in Hx. simpl in Hx.
      rewrite lookup_singleton_ne in Hx by done. discriminate.
Defined.

(* ================================================================== *)
(** * Removing a ticket *)
(* ================================================================== *)


Lemma ticket_remove_paths now id s :
  TicketsServiceRest.remove now id s =
  let read := [SelectTicket id; Validate TicketExists] in
  match tickets s !! id with
  | None => (Throw (TicketNotFound id), s, read)
  | Some x =>
      if bool_decide (Ticket.status x = PURCHASED)
      then
        match TicketsService.cancelTicket now id s with
        | (Return _, s', t) => (Return tt, set_tickets (delete id) s', read ++ t)
        | (Throw e, s', t) => (Throw e, s', read ++ t)
        end
      else (Return tt, set_tickets (delete id) s, read)
  end.
Proof.
  unfold TicketsServiceRest.remove, TicketsRepositoryRest.delete,
    Statements.deleteTicket, TicketsRepository.findWithShowtimeDetails,
    Manager.findOneTicket, bind, require, ret.
  simpl. destruct (tickets s !! id) as [x |]; simpl; [| done].
  destruct (bool_decide _); simpl; [| done].
  destruct (TicketsService.cancelTicket now id s) as [[[v | e] s'] t]; simpl;
    [| done].
  by rewrite !app_nil_r.
Qed.





(* ================================================================== *)
(** * Scheduling a showtime *)
(* ================================================================== *)

Lemma find_conflict_None s theaterId startTime endTime excludeId :
  List.find
    (ShowtimesRepository.conflictsWith s theaterId startTime endTime excludeId)
    (map_to_list (showtimes s)) = None →
  ∀ id x, showtimes s !! id = Some x →
    ¬ reportable s theaterId startTime endTime excludeId (id, x).
Proof.
  intros Hfind id x Hx Hr.
  apply (conflictsWith_reportable s theaterId startTime endTime excludeId
           (id, x) Hx) in Hr.
  rewrite (find_none _ _ Hfind (id, x)) in Hr; [done |].
  apply list_elem_of_In. by apply elem_of_map_to_list.
Qed.

Lemma find_conflict_Some s theaterId startTime endTime excludeId y :
  List.find
    (ShowtimesRepository.conflictsWith s theaterId startTime endTime excludeId)
    (map_to_list (showtimes s)) = Some y →
  reportable s theaterId startTime endTime excludeId y.
Proof.
  intros H. apply find_some in H as [Hin Hc].
  apply list_elem_of_In in Hin. destruct y as [id x].
  apply elem_of_map_to_list in Hin. by apply conflictsWith_reportable.
Qed.

Lemma fresh_showtime_id (m : gmap string Showtime.t) : m !! fresh (dom m) = None.
Proof. apply not_elem_of_dom_1, is_fresh. Qed.

Lemma showtime_create_paths now dto s :
  let start := CreateShowtimeDto.start_time dto in
  let price := CreateShowtimeDto.price dto in
  let movieId := CreateShowtimeDto.movie_id dto in
  let theaterId := CreateShowtimeDto.theater_id dto in
  let r := ShowtimesServiceRest.create now dto s in
  (result r, store_after r) =
  if start <? now then (Throw ShowtimesServiceRest.PastCreation, s)
  else
    match movies s !! movieId with
    | None => (Throw (MovieNotFound movieId), s)
    | Some m =>
        match theaters s !! theaterId with
        | None => (Throw (TheaterNotFound theaterId), s)
        | Some th =>
            if Theater.is_active th
            then
              let finish := ShowtimesService.addMinutes start (Movie.duration m) in
              match List.find
                      (ShowtimesRepository.conflictsWith s theaterId start
                         finish None)
                      (map_to_list (showtimes s)) with
              | Some _ => (Throw SchedulingConflict, s)
              | None =>
                  if (price <? 0) || (price >? 100000)
                  then (Throw ShowtimesServiceRest.PriceOutOfRange, s)
                  else
                    let x := Showtime.mk start finish price 0 movieId theaterId in
                    (Return (fresh (dom (showtimes s)), x),
                     set_showtimes (insert (fresh (dom (showtimes s))) x) s)
              end
            else (Throw TheaterNotActive, s)
        end
    end.
Proof.
  unfold ShowtimesServiceRest.create, ShowtimesRepositoryRest.create,
    Statements.saveShowtime, ShowtimesRepository.findConflictingShowtime,
    MoviesRepository.findById, TheatersRepository.findById,
    Manager.findOneMovie, Manager.findOneTheater,
    bind, require, check, ret, throw, result, store_after.
  simpl.
  destruct (CreateShowtimeDto.start_time dto <? now); simpl; [done |].
  destruct (movies s !! _) as [m |]; simpl; [| done].
  destruct (theaters s !! _) as [th |]; simpl; [| done].
  destruct (Theater.is_active th); simpl; [| done].
  destruct (List.find _ _) as [y |]; simpl; [done |].
  by destruct ((_ <? 0) || (_ >? 100000)).
Qed.

(** X5. Scheduling a showtime succeeds exactly when the start is not
    before the current instant, the movie exists, the theater exists and
    is active, no showtime of the theater overlaps the interval, and the
    price is between 0 and 1000. It then stores, under a new id, a
    showtime with no sold tickets whose end is the start plus the
    movie's duration in minutes, and leaves the other showtimes as they
    are. A refused request changes nothing. *)
Theorem showtime_create_when_admissible now dto s :
  let start := CreateShowtimeDto.start_time dto in
  let price := CreateShowtimeDto.price dto in
  let movieId := CreateShowtimeDto.movie_id dto in
  let theaterId := CreateShowtimeDto.theater_id dto in
  let r := ShowtimesServiceRest.create now dto s in
  let admissible m th :=
    now ≤ start ∧ movies s !! movieId = Some m ∧
    theaters s !! theaterId = Some th ∧ Theater.is_active th = true ∧
    (∀ y, ¬ reportable s theaterId start
              (start + Movie.duration m * 60000) None y) ∧
    0 ≤ price ≤ 100000 in
  let created m :=
    Showtime.mk start (start + Movie.duration m * 60000) price 0
                movieId theaterId in
  (∀ m th, admissible m th →
     ∃ id, result r = Return (id, created m) ∧
           showtimes s !! id = None ∧
           showtimes (store_after r) = <[id := created m]> (showtimes s) ∧
           tickets (store_after r) = tickets s ∧
           theaters (store_after r) = theaters s) ∧
  (∀ v, result r = Return v → ∃ m th, admissible m th) ∧
  (∀ e, result r = Throw e → store_after r = s).
Proof.
  intros start price movieId theaterId r admissible created.
  pose proof (showtime_create_paths now dto s) as Hp. simpl in Hp.
  fold start price movieId theaterId r in Hp.
  unfold ShowtimesService.addMinutes in Hp.
  split; [| split].
  - intros m th (Hnow & Hm & Hth & Hact & Hfree & Hprice).
    rewrite Hm, Hth, Hact in Hp.
    destruct (Z.ltb_spec start now) as [| _]; [lia |].
    destruct (List.find _ _) as [y |] eqn:Hfind.
    { apply find_conflict_Some in Hfind. by destruct (Hfree y). }
    destruct (Z.ltb_spec price 0) as [| _]; [lia |].
    destruct (Z.gtb_spec price 100000) as [| _]; [lia |].
    simpl in Hp. injection Hp as Hr Hs.
    exists (fresh (dom (showtimes s))). rewrite Hr, Hs.
    split; [done |]. split; [apply fresh_showtime_id | done].
  - intros v Hv. rewrite Hv in Hp.
    destruct (Z.ltb_spec start now) as [| Hnow]; [done |].
    destruct (movies s !! movieId) as [m |] eqn:Hm; [| done].
    destruct (theaters s !! theaterId) as [th |] eqn:Hth; [| done].
    destruct (Theater.is_active th) eqn:Hact; [| done].
    destruct (List.find _ _) as [y |] eqn:Hfind; [done |].
    destruct (Z.ltb_spec price 0) as [| Hp0]; [done |].
    destruct (Z.gtb_spec price 100000) as [| Hp1]; [done |].
    exists m, th. repeat split; try done; try lia.
    intros [id y] Hy. apply (find_conflict_None _ _ _ _ _ Hfind id y); [| done].
    apply Hy.
  - intros e He. rewrite He in Hp.
    destruct (start <? now); [by injection Hp |].
    destruct (movies s !! movieId) as [m |]; [| by injection Hp].
    destruct (theaters s !! theaterId) as [th |]; [| by injection Hp].
    destruct (Theater.is_active th); [| by injection Hp].
    destruct (List.find _ _) as [y |]; [by injection Hp |].
    destruct ((price <? 0) || (price >? 100000)); [by injection Hp | done].
Qed.

Lemma showtime_create_when_admissible_witness :
  ∃ id,
    result (ShowtimesServiceRest.create 500
              (CreateShowtimeDto.mk "m1" "t1" 7201000 1200) boxOffice)
    = Return (id, Showtime.mk 7201000 (7201000 + 120 * 60000) 1200 0 "m1" "t1") ∧
    showtimes boxOffice !! id = None ∧
    showtimes (store_after (ShowtimesServiceRest.create 500
                 (CreateShowtimeDto.mk "m1" "t1" 7201000 1200) boxOffice))
    = <[id := Showtime.mk 7201000 (7201000 + 120 * 60000) 1200 0 "m1" "t1"]>
        (showtimes boxOffice) ∧
    tickets (store_after (ShowtimesServiceRest.create 500
               (CreateShowtimeDto.mk "m1" "t1" 7201000 1200) boxOffice))
    = tickets boxOffice ∧
    theaters (store_after (ShowtimesServiceRest.create 500
                (CreateShowtimeDto.mk "m1" "t1" 7201000 1200) boxOffice))
    = theaters boxOffice.
Proof.
  apply (proj1 (showtime_create_when_admissible 500
                  (CreateShowtimeDto.mk "m1" "t1" 7201000 1200) boxOffice)
           feature hall).
  split; [simpl; lia |]. split; [vm_compute; reflexivity |].
  split; [vm_compute; reflexivity |]. split; [reflexivity |].
  split; [| simpl; lia].
  intros [id y] (Hy & _ & _ & [Hov _] & _). simpl in Hy, Hov.
  unfold boxOffice in Hy. simpl in Hy.
  apply lookup_singleton_Some in Hy as [_ <-]. simpl in Hov. lia.
Defined.




(* ================================================================== *)
(** * Removing a showtime *)
(* ================================================================== *)

Lemma refers_existsb (m : gmap string Ticket.t) id :
  existsb (Statements.refersToShowtime id) (map_to_list m) = true ↔
  ∃ tid t, m !! tid = Some t ∧ Ticket.showtime_id t = id.
Proof.
  rewrite existsb_exists. split.
  - intros ([tid t] & Hin & Ht). apply list_elem_of_In in Hin.
    apply elem_of_map_to_list in Hin.
    apply bool_decide_eq_true in Ht. by exists tid, t.
  - intros (tid & t & Ht & Hid). exists (tid, t). split.
    + apply list_elem_of_In. by apply elem_of_map_to_list.
    + by apply bool_decide_eq_true.
Qed.

Lemma showtime_remove_paths now id s :
  let r := ShowtimesServiceRest.remove now id s in
  (result r, store_after r) =
  match showtimes s !! id with
  | None => (Throw (ShowtimeNotFound id), s)
  | Some x =>
      if Showtime.sold_tickets x >? 0
      then (Throw ShowtimesServiceRest.HasSoldTickets, s)
      else if Showtime.start_time x <=? now
      then (Throw ShowtimesServiceRest.DeleteAfterStart, s)
      else if existsb (Statements.refersToShowtime id) (map_to_list (tickets s))
      then (Throw (Statements.foreignKeyViolation "showtimes"
                     "FK_cc00614628df6890e74ac420486" "tickets"), s)
      else (Return tt, set_showtimes (delete id) s)
  end.
Proof.
  unfold ShowtimesServiceRest.remove, ShowtimesRepositoryRest.delete,
    Statements.deleteShowtime, ShowtimesRepository.findWithRelations,
    Manager.findOneShowtime, bind, require, check, ret, throw,
    result, store_after.
  simpl. destruct (showtimes s !! id) as [x |]; simpl; [| done].
  destruct (Showtime.sold_tickets x >? 0); simpl; [done |].
  destruct (Showtime.start_time x <=? now); simpl; [done |].
  by destruct (existsb _ _).
Qed.

(** X7. Removing a showtime succeeds exactly when the showtime exists,
    its counter of sold tickets is not positive, it has not started, and
    no ticket, cancelled ones included, refers to it; the showtime is
    then deleted and nothing else changes. Otherwise the store is left
    as it is: a positive counter is reported first, then a start that
    has passed, and a showtime that tickets still refer to is refused
    by the foreign key of the tickets table. *)
Theorem showtime_remove_when_unused now id s :
  let r := ShowtimesServiceRest.remove now id s in
  let unreferenced := ∀ tid t, tickets s !! tid = Some t →
                               Ticket.showtime_id t ≠ id in
  (result r = Return tt ↔
     ∃ x, showtimes s !! id = Some x ∧ Showtime.sold_tickets x ≤ 0 ∧
          now < Showtime.start_time x ∧ unreferenced) ∧
  (result r = Return tt →
     showtimes (store_after r) = delete id (showtimes s) ∧
     tickets (store_after r) = tickets s) ∧
  (∀ e, result r = Throw e → store_after r = s) ∧
  (∀ x, showtimes s !! id = Some x →
     (0 < Showtime.sold_tickets x →
        result r = Throw ShowtimesServiceRest.HasSoldTickets) ∧
     (Showtime.sold_tickets x ≤ 0 → Showtime.start_time x ≤ now →
        result r = Throw ShowtimesServiceRest.DeleteAfterStart) ∧
     (Showtime.sold_tickets x ≤ 0 → now < Showtime.start_time x →
      ¬ unreferenced →
        result r = Throw (Statements.foreignKeyViolation "showtimes"
                            "FK_cc00614628df6890e74ac420486" "tickets"))).
Proof.
  intros r unreferenced.
  pose proof (showtime_remove_paths now id s) as Hp. simpl in Hp.
  fold r in Hp.
  assert (Href : existsb (Statements.refersToShowtime id)
                   (map_to_list (tickets s)) = false ↔ unreferenced).
  { rewrite <- not_true_iff_false, refers_existsb. unfold unreferenced.
    split; [intros H tid t Ht Hid; apply H; eauto
           | intros H (tid & t & Ht & Hid); by apply (H tid t)]. }
  destruct (showtimes s !! id) as [x |] eqn:Hx.
  2: { injection Hp as Hr Hs. rewrite Hr, Hs.
       split; [split; [done | by intros (? & ? & _)] |].
       split; [done |]. split; [done | by intros ? ?]. }
  destruct (Z.gtb_spec (Showtime.sold_tickets x) 0) as [Hsold | Hsold].
  { injection Hp as Hr Hs. rewrite Hr, Hs.
    split.
    { split; [done |]. intros (y & [= <-] & ? & _). lia. }
    split; [done |]. split; [done |]. intros y [= <-].
    split; [done |]. split; intros; lia. }
  destruct (Z.leb_spec (Showtime.start_time x) now) as [Hst | Hst].
  { injection Hp as Hr Hs. rewrite Hr, Hs.
    split.
    { split; [done |]. intros (y & [= <-] & _ & ? & _). lia. }
    split; [done |]. split; [done |]. intros y [= <-].
    split; [intros; lia |]. split; [done | intros; lia]. }
  destruct (existsb _ _) eqn:Hex.
  { injection Hp as Hr Hs. rewrite Hr, Hs.
    split.
    { split; [done |]. intros (y & _ & _ & _ & Hu).
      apply Href in Hu. discriminate. }
    split; [done |]. split; [done |]. intros y [= <-].
    split; [intros; lia |]. split; [intros; lia | done]. }
  injection Hp as Hr Hs. rewrite Hr, Hs.
  assert (Hu : unreferenced) by (by apply Href).
  split; [split; [intros _; by exists x | done] |].
  split; [done |]. split; [done |]. intros y [= <-].
  split; [intros; lia |]. split; [intros; lia | done].
Qed.

Lemma showtime_remove_when_unused_witness :
  showtimes (store_after (ShowtimesServiceRest.remove 500 "s2" twoHalls))
  = delete "s2" (showtimes twoHalls) ∧
  tickets (store_after (ShowtimesServiceRest.remove 500 "s2" twoHalls))
  = tickets twoHalls.
Proof.
  apply (proj1 (proj2 (showtime_remove_when_unused 500 "s2" twoHalls))).
  vm_compute. reflexivity.
Defined.

(** X8. Removing a showtime leaves no ticket without its showtime, and
    keeps the counters consistent and the schedules free of overlaps. *)
Theorem showtime_remove_keeps_invariants now id s :
  let s' := store_after (ShowtimesServiceRest.remove now id s) in
  (ticketsRefer s → ticketsRefer s') ∧
  (counterConsistent s → counterConsistent s') ∧
  (scheduleDisjoint s → scheduleDisjoint s').
Proof.
  intros s'. subst s'.
  pose proof (showtime_remove_paths now id s) as Hp. simpl in Hp.
  destruct (showtimes s !! id) as [x |] eqn:Hx;
    [| injection Hp as _ ->; done].
  destruct (Showtime.sold_tickets x >? 0); [injection Hp as _ ->; done |].
  destruct (Showtime.start_time x <=? now); [injection Hp as _ ->; done |].
  destruct (existsb _ _) eqn:Hex; [injection Hp as _ ->; done |].
  injection Hp as _ ->.
  split; [| split].
  - intros Hr tid t Ht. simpl in *. destruct (Hr _ _ Ht) as [y Hy].
    exists y. rewrite lookup_delete_ne; [done |]. intros Heq.
    apply not_true_iff_false in Hex. apply Hex, refers_existsb. eauto.
  - intros Hc id1 x1 H1. simpl in H1.
    apply lookup_delete_Some in H1 as [_ H1]. by apply Hc.
  - intros Hd id1 id2 x1 x2 Hne H1 H2. simpl in H1, H2.
    apply lookup_delete_Some in H1 as [_ H1].
    apply lookup_delete_Some in H2 as [_ H2].
    exact (Hd id1 id2 x1 x2 Hne H1 H2).
Qed.

Lemma showtime_remove_keeps_invariants_witness :
  counterConsistent (store_after (ShowtimesServiceRest.remove 500 "s1" boxOffice)).
Proof.
  apply (proj1 (proj2 (showtime_remove_keeps_invariants 500 "s1" boxOffice))).
  apply boxOffice_consistent.
Defined.

(* ================================================================== *)
(** * Availability *)
(* ================================================================== *)

Lemma getAvailability_paths id s :
  ShowtimesServiceRest.getAvailability id s =
  let read := [SelectShowtime id; Validate ShowtimeExists] in
  match showtimes s !! id with
  | None => (Throw (ShowtimeNotFound id), s, read)
  | Some x =>
      match theaters s !! Showtime.theater_id x with
      | None =>
          (Throw (TypeError "Cannot read properties of null (reading 'capacity')"),
           s, read)
      | Some th =>
          let available := Theater.capacity th - Showtime.sold_tickets x in
          (Return (ShowtimeAvailabilityDto.mk id (Theater.capacity th)
                     (Showtime.sold_tickets x) available (available <=? 0)),
           s, read)
      end
  end.
Proof.
  unfold ShowtimesServiceRest.getAvailability,
    ShowtimesRepository.findWithRelations, Manager.findOneShowtime,
    bind, require, deref, ret, throw.
  simpl. destruct (showtimes s !! id) as [x |]; simpl; [| done].
  by destruct (theaters s !! Showtime.theater_id x).
Qed.

(** X9. Availability is read without changing the store: it fails with
    not-found for an unknown showtime, and otherwise reports the
    capacity, the counter and their difference. It reports sold out
    exactly when the purchase transaction would refuse every seat with
    the sold-out error; when it does not, the purchase of any seat that
    no Purchased ticket holds commits. *)
Theorem availability_agrees_with_purchase id s :
  let r := ShowtimesServiceRest.getAvailability id s in
  store_after r = s ∧
  (showtimes s !! id = None → result r = Throw (ShowtimeNotFound id)) ∧
  (∀ x th,
     showtimes s !! id = Some x →
     theaters s !! Showtime.theater_id x = Some th →
     ∃ a,
       result r = Return a ∧
       ShowtimeAvailabilityDto.total_capacity a = Theater.capacity th ∧
       ShowtimeAvailabilityDto.sold_tickets a = Showtime.sold_tickets x ∧
       ShowtimeAvailabilityDto.available_seats a
       = Theater.capacity th - Showtime.sold_tickets x ∧
       (ShowtimeAvailabilityDto.is_sold_out a = true ↔
          ∀ d, result (TicketsRepository.purchaseTicketWithTransaction id d s)
               = Throw SoldOut) ∧
       (ShowtimeAvailabilityDto.is_sold_out a = false →
          ∀ d, ¬ seatHeld s id (TicketData.seat_number d) →
            ∃ v, result (TicketsRepository.purchaseTicketWithTransaction id d s)
                 = Return v)).
Proof.
  intros r. subst r. rewrite getAvailability_paths. simpl.
  split; [| split].
  - destruct (showtimes s !! id) as [x |]; [| done].
    by destruct (theaters s !! Showtime.theater_id x).
  - by intros ->.
  - intros x th Hx Hth. rewrite Hx, Hth. eexists. split; [done |].
    unfold result. simpl. repeat split; try done.
    + intros Hso d. apply Z.leb_le in Hso.
      rewrite purchaseTicketWithTransaction_paths. simpl. rewrite Hx, Hth.
      destruct (Z.geb_spec (Showtime.sold_tickets x) (Theater.capacity th));
        [done | lia].
    + intros Hall. apply Z.leb_le.
      specialize (Hall (TicketData.mk "n" "e" "A-1")). revert Hall.
      rewrite purchaseTicketWithTransaction_paths. simpl. rewrite Hx, Hth.
      destruct (Z.geb_spec (Showtime.sold_tickets x) (Theater.capacity th));
        [lia |].
      destruct (List.find _ _); simpl; discriminate.
    + intros Hso d Hfree. apply Z.leb_gt in Hso.
      rewrite purchaseTicketWithTransaction_paths. simpl. rewrite Hx, Hth.
      destruct (Z.geb_spec (Showtime.sold_tickets x) (Theater.capacity th));
        [lia |].
      destruct (List.find _ _) as [y |] eqn:Hfind; [| by eexists].
      apply find_seat_Some in Hfind. done.
Qed.

Lemma availability_agrees_with_purchase_witness :
  ∃ a,
    result (ShowtimesServiceRest.getAvailability "s1" boxOffice) = Return a ∧
    ShowtimeAvailabilityDto.total_capacity a = Theater.capacity hall ∧
    ShowtimeAvailabilityDto.sold_tickets a = Showtime.sold_tickets evening ∧
    ShowtimeAvailabilityDto.available_seats a
    = Theater.capacity hall - Showtime.sold_tickets evening ∧
    (ShowtimeAvailabilityDto.is_sold_out a = true ↔
       ∀ d, result (TicketsRepository.purchaseTicketWithTransaction
                      "s1" d boxOffice) = Throw SoldOut) ∧
    (ShowtimeAvailabilityDto.is_sold_out a = false →
       ∀ d, ¬ seatHeld boxOffice "s1" (TicketData.seat_number d) →
         ∃ v, result (TicketsRepository.purchaseTicketWithTransaction
                        "s1" d boxOffice) = Return v).
Proof.
  apply (proj2 (proj2 (availability_agrees_with_purchase "s1" boxOffice))
           evening hall); vm_compute; reflexivity.
Defined.

(* ================================================================== *)
(** * Theaters *)
(* ================================================================== *)

Lemma showtimesOf_spec s theaterId (y : entity Showtime.t) :
  y ∈ Statements.showtimesOf s theaterId ↔
  showtimes s !! y.1 = Some y.2 ∧ Showtime.theater_id y.2 = theaterId.
Proof.
  unfold Statements.showtimesOf. rewrite list_elem_of_filter.
  destruct y as [id x]. rewrite elem_of_map_to_list. simpl. tauto.
Qed.

(** X10. The capacity-reduction guard changes nothing and passes
    exactly when no showtime of the theater has sold more than the new
    capacity (it passes for a theater that does not exist); otherwise it
    fails with the capacity conflict. A store within capacity is still
    within capacity once a capacity that passed the guard is written. *)
Theorem capacity_reduction_guard theaterId newCapacity s :
  let r := TheatersService.validateCapacityReduction theaterId newCapacity s in
  let fits := ∀ id x, showtimes s !! id = Some x →
                Showtime.theater_id x = theaterId →
                is_Some (theaters s !! theaterId) →
                Showtime.sold_tickets x ≤ newCapacity in
  store_after r = s ∧
  (result r = Return tt ↔ fits) ∧
  (¬ fits → result r = Throw TheatersService.CapacityExceeded) ∧
  (result r = Return tt → withinCapacity s →
     withinCapacity
       (Statements.set_theaters
          (alter (λ th, Theater.mk newCapacity (Theater.is_active th)) theaterId)
          s)).
Proof.
  intros r fits.
  assert (Hr : (result r, store_after r) =
    match theaters s !! theaterId with
    | Some _ =>
        if existsb (λ showtime : entity Showtime.t,
                      Showtime.sold_tickets showtime.2 >? newCapacity)
                   (Statements.showtimesOf s theaterId)
        then (Throw TheatersService.CapacityExceeded, s) else (Return tt, s)
    | None => (Return tt, s)
    end).
  { subst r. unfold TheatersService.validateCapacityReduction,
      TheatersRepositoryRest.findWithShowtimes,
      Statements.findTheaterWithShowtimes, bind, ret, throw,
      result, store_after.
    simpl. destruct (theaters s !! theaterId); simpl; [| done].
    by destruct (existsb _ _). }
  assert (Hfits : fits ↔
    (is_Some (theaters s !! theaterId) →
     existsb (λ showtime : entity Showtime.t,
                Showtime.sold_tickets showtime.2 >? newCapacity)
             (Statements.showtimesOf s theaterId) = false)).
  { unfold fits. split.
    - intros Hf Hth. apply not_true_iff_false. rewrite existsb_exists.
      intros ([id x] & Hin & Hgt). apply list_elem_of_In in Hin.
      apply showtimesOf_spec in Hin as [Hx Hsame]. simpl in *.
      apply Z.gtb_gt in Hgt. specialize (Hf id x Hx Hsame Hth). lia.
    - intros He id x Hx Hsame Hth. specialize (He Hth).
      destruct (Z.gtb_spec (Showtime.sold_tickets x) newCapacity) as [Hgt | Hle];
        [| done].
      exfalso. apply not_true_iff_false in He. apply He.
      apply existsb_exists. exists (id, x). split.
      + apply list_elem_of_In, showtimesOf_spec. done.
      + simpl. apply Z.gtb_gt. lia. }
  assert (Hres : store_after r = s ∧
                 (result r = Return tt ↔ fits) ∧
                 (¬ fits → result r = Throw TheatersService.CapacityExceeded)).
  { rewrite Hfits.
    destruct (theaters s !! theaterId) as [th |] eqn:Hth.
    - destruct (existsb _ _); injection Hr as -> ->.
      + split; [done |]. split; [| done].
        split; [done |]. intros H. by specialize (H ltac:(eauto)).
      + split; [done |]. split; [done |]. intros H. by destruct H.
    - injection Hr as -> ->. split; [done |].
      split; [split; [by intros _ [? ?] | done] |].
      intros H. destruct H. by intros [? ?]. }
  destruct Hres as (Hs & Hiff & Hthrow).
  split; [done |]. split; [done |]. split; [done |].
  intros Hok Hw id x th Hx Hth. simpl in Hx, Hth.
  apply Hiff in Hok. rewrite lookup_alter in Hth.
  destruct (decide (theaterId = Showtime.theater_id x)) as [Heq | Hne].
  - destruct (theaters s !! theaterId) as [th0 |] eqn:Hth0; [| done].
    injection Hth as <-. simpl. apply (Hok id x Hx); [done | by eexists].
  - by apply (Hw id x th).
Qed.

Lemma capacity_reduction_guard_witness :
  withinCapacity
    (Statements.set_theaters
       (alter (λ th, Theater.mk 1 (Theater.is_active th)) "t1") boxOffice).
Proof.
  apply (proj2 (proj2 (proj2 (capacity_reduction_guard "t1" 1 boxOffice)))).
  - vm_compute. reflexivity.
  - intros id x th Hx Hth. unfold boxOffice in Hx, Hth. simpl in Hx, Hth.
    apply lookup_singleton_Some in Hx as [_ <-]. simpl in Hth.
    apply lookup_singleton_Some in Hth as [_ <-]. simpl. lia.
Defined.

Lemma theater_switch_paths id (b : bool) s :
  let op := if b then TheatersService.activate else TheatersService.deactivate in
  (result (op id s), store_after (op id s)) =
  match theaters s !! id with
  | None => (Throw (TheaterNotFound id), s)
  | Some th =>
      (Return (TheatersService.set_active b th),
       Statements.set_theaters (insert id (TheatersService.set_active b th)) s)
  end.
Proof.
  intros op. subst op.
  destruct b;
    unfold TheatersService.activate, TheatersService.deactivate,
      TheatersRepositoryRest.update, Statements.updateTheater,
      TheatersRepository.findById, Manager.findOneTheater,
      bind, require, ret, throw, result, store_after; simpl;
    rewrite lookup_alter_eq;
    (destruct (theaters s !! id) as [th |] eqn:Hth; simpl; [| done]);
    unfold Statements.set_theaters; simpl;
    by rewrite (alter_alt_Some _ _ _ _ Hth).
Qed.

(** X11. Deactivating or activating an unknown theater fails with
    not-found and changes nothing. For a theater of the store it sets
    the flag and returns the theater, leaving its capacity, the
    showtimes and the tickets alone. While a theater is deactivated no
    showtime can be scheduled in it; activating it again leaves it
    active with the capacity it had. *)
Theorem theater_deactivate_blocks_scheduling id s :
  let off := TheatersService.deactivate id s in
  (theaters s !! id = None →
     result off = Throw (TheaterNotFound id) ∧ store_after off = s ∧
     result (TheatersService.activate id s) = Throw (TheaterNotFound id)) ∧
  (∀ th,
     theaters s !! id = Some th →
     result off = Return (Theater.mk (Theater.capacity th) false) ∧
     theaters (store_after off)
     = <[id := Theater.mk (Theater.capacity th) false]> (theaters s) ∧
     showtimes (store_after off) = showtimes s ∧
     tickets (store_after off) = tickets s ∧
     (∀ now dto v,
        CreateShowtimeDto.theater_id dto = id →
        result (ShowtimesServiceRest.create now dto (store_after off))
        ≠ Return v) ∧
     theaters (store_after (TheatersService.activate id (store_after off)))
     = <[id := Theater.mk (Theater.capacity th) true]> (theaters s)).
Proof.
  intros off. subst off.
  pose proof (theater_switch_paths id false s) as Hoff. simpl in Hoff.
  split.
  - intros Hth. rewrite Hth in Hoff. injection Hoff as -> ->.
    split; [done |]. split; [done |].
    pose proof (theater_switch_paths id true s) as Hon. simpl in Hon.
    rewrite Hth in Hon. by injection Hon as -> _.
  - intros th Hth. rewrite Hth in Hoff. injection Hoff as -> ->.
    split; [done |]. split; [done |]. split; [done |]. split; [done |].
    split.
    + intros now dto v Hid.
      pose proof (showtime_create_paths now dto
        (Statements.set_theaters
           (insert id (TheatersService.set_active false th)) s)) as Hp.
      simpl in Hp. rewrite Hid, lookup_insert_eq in Hp. simpl in Hp.
      intros Hv. rewrite Hv in Hp.
      destruct (_ <? now); [done |]. by destruct (movies s !! _).
    + pose proof (theater_switch_paths id true
        (Statements.set_theaters
           (insert id (TheatersService.set_active false th)) s)) as Hon.
      simpl in Hon. rewrite lookup_insert_eq in Hon.
      injection Hon as _ ->. simpl. apply insert_insert_eq.
Qed.

Lemma theater_deactivate_blocks_scheduling_witness :
  result (TheatersService.deactivate "t1" boxOffice)
  = Return (Theater.mk (Theater.capacity hall) false).
Proof.
  apply (λ H, proj1 (proj2 (theater_deactivate_blocks_scheduling "t1" boxOffice)
                       hall H)).
  vm_compute. reflexivity.
Defined.

(* ================================================================== *)
(** * The counter statements of the showtime repository *)
(* ================================================================== *)

Lemma add_sold_add_sold a b x :
  Showtime.add_sold a (Showtime.add_sold b x) = Showtime.add_sold (b + a) x.
Proof. destruct x. unfold Showtime.add_sold. simpl. f_equal. lia. Qed.

Lemma add_sold_0 x : Showtime.add_sold 0 x = x.
Proof. destruct x. unfold Showtime.add_sold. simpl. f_equal. lia. Qed.

Lemma addSoldTickets_paths id n s :
  (result (Statements.addSoldTickets id n s),
   store_after (Statements.addSoldTickets id n s)) =
  match showtimes s !! id with
  | None => (Return tt, s)
  | Some x =>
      if decide (Statements.minInteger ≤ Showtime.sold_tickets x + n
                 ≤ Statements.maxInteger)
      then (Return tt,
            set_showtimes (insert id (Showtime.add_sold n x)) s)
      else (Throw Statements.IntegerOutOfRange, s)
  end.
Proof.
  unfold Statements.addSoldTickets, result, store_after.
  destruct (showtimes s !! id) as [x |] eqn:Hx; [| done]. simpl.
  destruct (Z.ltb_spec (Showtime.sold_tickets x + n) Statements.minInteger);
    simpl; [rewrite decide_False by lia; done |].
  destruct (Z.gtb_spec (Showtime.sold_tickets x + n) Statements.maxInteger);
    simpl; [rewrite decide_False by lia; done |].
  rewrite decide_True by lia. unfold set_showtimes.
  by rewrite (alter_alt_Some _ _ _ _ Hx).
Qed.

(** X12. On a showtime whose counter is below the largest value of the
    integer column, incrementing returns and adds 1 to that counter
    alone, and decrementing afterwards gives back the store; at the
    largest value the increment is refused with the out-of-range error
    and writes nothing. Decrementing mirrors this at the smallest value.
    On an id that names no showtime both return and change nothing. *)
Theorem sold_counter_round_trip id s :
  let inc := ShowtimesRepositoryRest.incrementSoldTickets id in
  let dec := ShowtimesRepositoryRest.decrementSoldTickets id in
  (showtimes s !! id = None →
     result (inc s) = Return tt ∧ store_after (inc s) = s ∧
     result (dec s) = Return tt ∧ store_after (dec s) = s) ∧
  (∀ x,
     showtimes s !! id = Some x →
     Statements.minInteger ≤ Showtime.sold_tickets x ≤ Statements.maxInteger →
     (Showtime.sold_tickets x < Statements.maxInteger →
        result (inc s) = Return tt ∧
        store_after (inc s)
        = set_showtimes (insert id (Showtime.add_sold 1 x)) s ∧
        result (dec (store_after (inc s))) = Return tt ∧
        store_after (dec (store_after (inc s))) = s) ∧
     (Showtime.sold_tickets x = Statements.maxInteger →
        result (inc s) = Throw Statements.IntegerOutOfRange ∧
        store_after (inc s) = s) ∧
     (Statements.minInteger < Showtime.sold_tickets x →
        result (dec s) = Return tt ∧
        store_after (dec s)
        = set_showtimes (insert id (Showtime.add_sold (-1) x)) s ∧
        result (inc (store_after (dec s))) = Return tt ∧
        store_after (inc (store_after (dec s))) = s) ∧
     (Showtime.sold_tickets x = Statements.minInteger →
        result (dec s) = Throw Statements.IntegerOutOfRange ∧
        store_after (dec s) = s)).
Proof.
  intros inc dec. subst inc dec.
  unfold ShowtimesRepositoryRest.incrementSoldTickets,
    ShowtimesRepositoryRest.decrementSoldTickets.
  assert (Hgo : ∀ n x,
    showtimes s !! id = Some x →
    Statements.minInteger ≤ Showtime.sold_tickets x ≤ Statements.maxInteger →
    Statements.minInteger ≤ Showtime.sold_tickets x + n ≤ Statements.maxInteger →
    let r := Statements.addSoldTickets id n s in
    result r = Return tt ∧
    store_after r = set_showtimes (insert id (Showtime.add_sold n x)) s ∧
    result (Statements.addSoldTickets id (- n) (store_after r)) = Return tt ∧
    store_after (Statements.addSoldTickets id (- n) (store_after r)) = s).
  { intros n x Hx Hin Hsum r.
    pose proof (addSoldTickets_paths id n s) as Hp. fold r in Hp.
    rewrite Hx, decide_True in Hp by done. injection Hp as Hr Hs.
    split; [exact Hr |]. split; [exact Hs |].
    pose proof (addSoldTickets_paths id (- n) (store_after r)) as Hq.
    rewrite Hs in Hq |- *. simpl in Hq. rewrite lookup_insert_eq in Hq.
    rewrite decide_True in Hq by (simpl; lia). injection Hq as Hr2 Hs2.
    split; [exact Hr2 |]. rewrite Hs2.
    unfold set_showtimes. simpl. destruct s as [sh tk th mv]. simpl in *.
    f_equal. rewrite insert_insert_eq, add_sold_add_sold.
    replace (n + - n) with 0 by lia. rewrite add_sold_0.
    by apply insert_id. }
  assert (Hstop : ∀ n x,
    showtimes s !! id = Some x →
    ¬ Statements.minInteger ≤ Showtime.sold_tickets x + n
      ≤ Statements.maxInteger →
    result (Statements.addSoldTickets id n s)
    = Throw Statements.IntegerOutOfRange ∧
    store_after (Statements.addSoldTickets id n s) = s).
  { intros n x Hx Hout.
    pose proof (addSoldTickets_paths id n s) as Hp.
    rewrite Hx, decide_False in Hp by done. by injection Hp as -> ->. }
  split.
  - intros Hid.
    pose proof (addSoldTickets_paths id 1 s) as H1.
    pose proof (addSoldTickets_paths id (-1) s) as H2.
    rewrite Hid in H1, H2. injection H1 as -> ->. by injection H2 as -> ->.
  - intros x Hx Hin. unfold Statements.minInteger, Statements.maxInteger in *.
    split; [| split; [| split]].
    + intros Hlt. apply (Hgo 1 x Hx);
        unfold Statements.minInteger, Statements.maxInteger; lia.
    + intros Heq. apply (Hstop 1 x Hx).
      unfold Statements.minInteger, Statements.maxInteger. lia.
    + intros Hlt. apply (Hgo (-1) x Hx);
        unfold Statements.minInteger, Statements.maxInteger; lia.
    + intros Heq. apply (Hstop (-1) x Hx).
      unfold Statements.minInteger, Statements.maxInteger. lia.
Qed.

Lemma sold_counter_round_trip_witness :
  result (ShowtimesRepositoryRest.incrementSoldTickets "s1" boxOffice)
  = Return tt ∧
  store_after (ShowtimesRepositoryRest.incrementSoldTickets "s1" boxOffice)
  = set_showtimes (insert "s1" (Showtime.add_sold 1 evening)) boxOffice ∧
  result (ShowtimesRepositoryRest.decrementSoldTickets "s1"
            (store_after
               (ShowtimesRepositoryRest.incrementSoldTickets "s1" boxOffice)))
  = Return tt ∧
  store_after (ShowtimesRepositoryRest.decrementSoldTickets "s1"
                 (store_after
                    (ShowtimesRepositoryRest.incrementSoldTickets "s1"
                       boxOffice)))
  = boxOffice.
Proof.
  apply (λ Hx Hin Hlt,
           proj1 (proj2 (sold_counter_round_trip "s1" boxOffice)
                    evening Hx Hin) Hlt).
  - vm_compute. reflexivity.
  - vm_compute. split; discriminate.
  - vm_compute. reflexivity.
Defined.

(* ================================================================== *)
(** * The ticket update *)
(* ================================================================== *)

(** The outcomes of [TicketsService.update]: either it throws and the
    store is as before, or every guard passed and the cleaned dto was
    written to the row of the ticket. *)
Lemma ticket_update_paths now id dto s :
  let r := TicketsService.update now id dto s in
  (store_after r = s ∧ ∀ v, result r ≠ Return v) ∨
  ∃ x sh,
    tickets s !! id = Some x ∧
    showtimes s !! Ticket.showtime_id x = Some sh ∧
    now < Showtime.start_time sh ∧
    (∀ seat, UpdateTicketDto.seat_number dto = Some seat →
       seat ≠ "" → seat ≠ Ticket.seat_number x →
       ¬ seatHeld s (Ticket.showtime_id x) seat ∧
       TicketsService.isValidSeatNumber seat = true) ∧
    (∀ email, UpdateTicketDto.customer_email dto = Some email →
       email ≠ "" → TicketsService.isValidEmail email = true) ∧
    let cleaned :=
      UpdateTicketDto.mk
        (TicketsService.clean Js.trim (UpdateTicketDto.customer_name dto))
        (TicketsService.clean (λ e, Js.trim (Js.toLowerCase e))
           (UpdateTicketDto.customer_email dto))
        (TicketsService.clean (λ x, Js.toUpperCase (Js.trim x))
           (UpdateTicketDto.seat_number dto))
        (UpdateTicketDto.status dto) in
    result r = Return (UpdateTicketDto.apply cleaned x) ∧
    store_after r = set_tickets (alter (UpdateTicketDto.apply cleaned) id) s.
Proof.
  intros r. subst r.
  unfold TicketsService.update, TicketsRepository.update,
    TicketsRepository.findById, TicketsRepository.findWithShowtimeDetails,
    TicketsRepository.findByShowtimeAndSeat, Manager.findOneTicketBySeat,
    Manager.updateTicket, Manager.findOneTicket,
    bind, require, check, deref, ret, throw, result, store_after.
  simpl.
  destruct (tickets s !! id) as [x |] eqn:Hx; simpl; [| by left].
  destruct (showtimes s !! Ticket.showtime_id x) as [sh |] eqn:Hsh; simpl;
    [| by left].
  destruct (Showtime.start_time sh <=? now) eqn:Hnow; simpl; [by left |].
  apply Z.leb_gt in Hnow.
  assert (Hseat :
    (∀ seat, UpdateTicketDto.seat_number dto = Some seat →
       seat ≠ "" → seat ≠ Ticket.seat_number x →
       ¬ seatHeld s (Ticket.showtime_id x) seat ∧
       TicketsService.isValidSeatNumber seat = true) ∨
    ∃ seat, UpdateTicketDto.seat_number dto = Some seat ∧
       Js.isEmpty seat = false ∧ seat ≠ Ticket.seat_number x ∧
       (bool_decide (is_Some (List.find
            (Manager.holdsSeat (Ticket.showtime_id x) seat)
            (map_to_list (tickets s)))) = true ∨
        TicketsService.isValidSeatNumber seat = false)).
  { destruct (UpdateTicketDto.seat_number dto) as [seat |]; [| by left].
    destruct (Js.isEmpty seat) eqn:He.
    { left. intros ? [= <-] Hne. by destruct seat. }
    destruct (decide (seat = Ticket.seat_number x)) as [Heq | Hne].
    { left. by intros ? [= <-]. }
    destruct (List.find (Manager.holdsSeat (Ticket.showtime_id x) seat)
                (map_to_list (tickets s))) as [y |] eqn:Hfind.
    { right. exists seat. repeat split; try done. left.
      rewrite Hfind. by apply bool_decide_eq_true. }
    destruct (TicketsService.isValidSeatNumber seat) eqn:Hv.
    - left. intros ? [= <-] _ _. split; [| done].
      by apply find_seat_None.
    - right. exists seat. repeat split; try done.
      rewrite Hfind. by right. }
  destruct Hseat as [Hseat | (seat & Hd & He & Hne & Hbad)].
  2:{ left. rewrite Hd, He. simpl.
      rewrite (bool_decide_eq_false_2 _ Hne). simpl.
      destruct Hbad as [Hb | Hb].
      - rewrite Hb. by simpl.
      - destruct (bool_decide (is_Some _)); simpl; [done |].
        rewrite Hb. by simpl. }
  assert (Hemail :
    (∀ email, UpdateTicketDto.customer_email dto = Some email →
       email ≠ "" → TicketsService.isValidEmail email = true) ∨
    ∃ email, UpdateTicketDto.customer_email dto = Some email ∧
       Js.isEmpty email = false ∧ TicketsService.isValidEmail email = false).
  { destruct (UpdateTicketDto.customer_email dto) as [email |]; [| by left].
    destruct (Js.isEmpty email) eqn:He.
    { left. intros ? [= <-] Hne. by destruct email. }
    destruct (TicketsService.isValidEmail email) eqn:Hv.
    - left. by intros ? [= <-].
    - right. by exists email. }
  assert (Hpass :
    match UpdateTicketDto.seat_number dto with
    | Some seat =>
        if negb (Js.isEmpty seat)
           && negb (bool_decide (seat = Ticket.seat_number x))
        then
          (if negb (bool_decide (is_Some (List.find
                 (Manager.holdsSeat (Ticket.showtime_id x) seat)
                 (map_to_list (tickets s)))))
           then TicketsService.isValidSeatNumber seat else false)
        else true
    | None => true
    end = true).
  { destruct (UpdateTicketDto.seat_number dto) as [seat |]; [| done].
    destruct (Js.isEmpty seat) eqn:He; simpl; [done |].
    destruct (bool_decide (seat = _)) eqn:Hb; simpl; [done |].
    apply bool_decide_eq_false in Hb.
    assert (seat ≠ "") as Hn by (by destruct seat).
    destruct (Hseat seat eq_refl Hn Hb) as [Hfree Hv].
    destruct (List.find _ _) as [y |] eqn:Hfind.
    - destruct Hfree. by apply (find_seat_Some _ _ _ y).
    - rewrite bool_decide_eq_false_2 by (by intros [? ?]). by simpl. }
  destruct (UpdateTicketDto.seat_number dto) as [seat |] eqn:Hd.
  - destruct (negb (Js.isEmpty seat)
              && negb (bool_decide (seat = Ticket.seat_number x))) eqn:Hc;
      simpl.
    + destruct (negb (bool_decide (is_Some _))) eqn:Hf; [| done]. simpl.
      rewrite Hpass. simpl.
      destruct Hemail as [Hemail | (email & Hm & He & Hv)].
      2:{ left. rewrite Hm, He. simpl. rewrite Hv. by simpl. }
      right. exists x, sh. split; [done |]. split; [done |].
      split; [lia |]. split; [done |]. split; [done |].
      destruct (UpdateTicketDto.customer_email dto) as [email |] eqn:Hm; simpl.
      * destruct (Js.isEmpty email) eqn:He; simpl.
        -- rewrite lookup_alter_eq, Hx. by simpl.
        -- rewrite (Hemail email eq_refl) by (by destruct email). simpl.
           rewrite lookup_alter_eq, Hx. by simpl.
      * rewrite lookup_alter_eq, Hx. by simpl.
    + destruct Hemail as [Hemail | (email & Hm & He & Hv)].
      2:{ left. rewrite Hm, He. simpl. rewrite Hv. by simpl. }
      right. exists x, sh. split; [done |]. split; [done |].
      split; [lia |]. split; [done |]. split; [done |].
      destruct (UpdateTicketDto.customer_email dto) as [email |] eqn:Hm; simpl.
      * destruct (Js.isEmpty email) eqn:He; simpl.
        -- rewrite lookup_alter_eq, Hx. by simpl.
        -- rewrite (Hemail email eq_refl) by (by destruct email). simpl.
           rewrite lookup_alter_eq, Hx. by simpl.
      * rewrite lookup_alter_eq, Hx. by simpl.
  - simpl.
    destruct Hemail as [Hemail | (email & Hm & He & Hv)].
    2:{ left. rewrite Hm, He. simpl. rewrite Hv. by simpl. }
    right. exists x, sh. split; [done |]. split; [done |].
    split; [lia |]. split; [done |]. split; [done |].
    destruct (UpdateTicketDto.customer_email dto) as [email |] eqn:Hm; simpl.
    * destruct (Js.isEmpty email) eqn:He; simpl.
      -- rewrite lookup_alter_eq, Hx. by simpl.
      -- rewrite (Hemail email eq_refl) by (by destruct email). simpl.
         rewrite lookup_alter_eq, Hx. by simpl.
    * rewrite lookup_alter_eq, Hx. by simpl.
Qed.


(** X13. A ticket update never writes the showtimes, the theaters or the
    movies, never adds or removes a ticket, and leaves the price and the
    showtime of every ticket and all of every other ticket as they were.
    An update that throws changes nothing. An update that sets no status
    keeps the sold counters equal to the numbers of Purchased tickets. *)
Theorem ticket_update_footprint now id dto s :
  let r := TicketsService.update now id dto s in
  showtimes (store_after r) = showtimes s ∧
  theaters (store_after r) = theaters s ∧
  movies (store_after r) = movies s ∧
  (∀ e, result r = Throw e → store_after r = s) ∧
  (∀ j, j ≠ id → tickets (store_after r) !! j = tickets s !! j) ∧
  (∀ y, tickets (store_after r) !! id = Some y →
     ∃ x, tickets s !! id = Some x ∧
          Ticket.price y = Ticket.price x ∧
          Ticket.showtime_id y = Ticket.showtime_id x) ∧
  (tickets (store_after r) !! id = None → tickets s !! id = None) ∧
  (UpdateTicketDto.status dto = None →
     counterConsistent s → counterConsistent (store_after r)).
Proof.
  intros r. subst r.
  destruct (ticket_update_paths now id dto s)
    as [[Hs Hfail] | (x & sh & Hx & Hsh & Hnow & Hseat & Hemail & Hr & Hs)].
  - rewrite Hs. repeat split; try done.
    intros y Hy. by exists y.
  - rewrite Hs. simpl.
    split; [done |]. split; [done |]. split; [done |].
    split; [by rewrite Hr |].
    split; [by intros j Hj; apply lookup_alter_ne |].
    split.
    { intros y. rewrite lookup_alter_eq, Hx. simpl. intros [= <-].
      by exists x. }
    split.
    { by rewrite lookup_alter_eq, Hx. }
    intros Hstatus Hc j z Hz. simpl in Hz.
    unfold purchasedCount. simpl.
    rewrite (countPurchased_alter _ _ _ _ _ Hx), (Hc _ _ Hz).
    unfold purchasedCount.
    assert (Hiff : isPurchasedFor j (id, x) ↔
      isPurchasedFor j
        (id, UpdateTicketDto.apply
               (UpdateTicketDto.mk
                  (TicketsService.clean Js.trim (UpdateTicketDto.customer_name dto))
                  (TicketsService.clean (λ e, Js.trim (Js.toLowerCase e))
                     (UpdateTicketDto.customer_email dto))
                  (TicketsService.clean (λ x, Js.toUpperCase (Js.trim x))
                     (UpdateTicketDto.seat_number dto))
                  (UpdateTicketDto.status dto)) x)).
    { unfold isPurchasedFor. simpl. by rewrite Hstatus. }
    destruct (decide (isPurchasedFor j (id, x))) as [Hp | Hp].
    + rewrite decide_True by (by apply Hiff). lia.
    + rewrite decide_False by (by intros ?%Hiff). lia.
Qed.

Lemma ticket_update_footprint_witness :
  counterConsistent
    (store_after
       (TicketsService.update 500 "k1"
          (UpdateTicketDto.mk None None (Some "a-2") None) fullHouse)).
Proof.
  apply (proj2 (proj2 (proj2 (proj2 (proj2 (proj2 (proj2
    (ticket_update_footprint 500 "k1"
       (UpdateTicketDto.mk None None (Some "a-2") None) fullHouse)))))))).
  - reflexivity.
  - intros id x Hx. unfold fullHouse in Hx. simpl in Hx.
    apply lookup_singleton_Some in Hx as [<- <-].
    vm_compute. reflexivity.
Defined.



(* ================================================================== *)
(** * The showtime update *)
(* ================================================================== *)





Lemma showtime_update_written now id dto s x :
  showtimes s !! id = Some x →
  ∀ data,
    store_after (ShowtimesService.update now id dto s)
    = set_showtimes (alter (ShowtimeData.apply data) id) s →
    showtimes (store_after (ShowtimesService.update now id dto s))
    = <[id := ShowtimeData.apply data x]> (showtimes s).
Proof.
  intros Hx data ->. simpl. by apply alter_alt_Some.
Qed.





(* ================================================================== *)
(** * Referential integrity of the tickets *)
(* ================================================================== *)

Lemma alter_showtimes_refer (f : Showtime.t → Showtime.t) k
    (m : gmap string Showtime.t) j :
  is_Some (m !! j) → is_Some (alter f k m !! j).
Proof.
  intros [z Hz]. destruct (decide (k = j)) as [-> | Hne].
  - rewrite lookup_alter_eq, Hz. by eexists.
  - rewrite lookup_alter_ne by done. by eexists.
Qed.

Lemma purchase_transaction_refer showtimeId d s :
  ticketsRefer s →
  ticketsRefer
    (store_after (TicketsRepository.purchaseTicketWithTransaction showtimeId d s)).
Proof.
  intros Href. rewrite purchaseTicketWithTransaction_paths. simpl.
  destruct (showtimes s !! showtimeId) as [x |] eqn:Hx; [| done].
  destruct (theaters s !! Showtime.theater_id x) as [th |]; [| done].
  destruct (Showtime.sold_tickets x >=? Theater.capacity th); [done |].
  destruct (List.find _ _) as [y |]; [done |].
  unfold store_after. simpl. intros j t Ht. unfold purchased in *. simpl in *.
  apply alter_showtimes_refer.
  apply lookup_insert_Some in Ht as [[_ <-] | [_ Ht]].
  - simpl. by eexists.
  - by apply (Href j).
Qed.

Lemma cancel_transaction_refer ticketId s :
  ticketsRefer s →
  ticketsRefer
    (store_after (TicketsRepository.cancelTicketWithTransaction ticketId s)).
Proof.
  intros Href. rewrite cancelTicketWithTransaction_paths. simpl.
  destruct (tickets s !! ticketId) as [x |] eqn:Hx; [| done].
  destruct (bool_decide _); [| done].
  destruct (showtimes s !! Ticket.showtime_id x) as [z |]; [| done].
  unfold store_after. simpl. intros j t Ht. unfold cancelled in *. simpl in *.
  apply alter_showtimes_refer.
  destruct (decide (j = ticketId)) as [-> | Hne].
  - rewrite lookup_alter_eq, Hx in Ht. simpl in Ht. injection Ht as <-.
    simpl. by apply (Href ticketId).
  - rewrite lookup_alter_ne in Ht by done. by apply (Href j).
Qed.

Lemma cancel_refer now id s :
  ticketsRefer s →
  ticketsRefer (store_after (TicketsService.cancelTicket now id s)).
Proof.
  intros Href. rewrite cancelTicket_paths. simpl.
  destruct (tickets s !! id) as [x |]; [| done].
  destruct (showtimes s !! Ticket.showtime_id x) as [sh |]; [| done].
  destruct (Showtime.start_time sh <=? now); [done |].
  destruct (bool_decide _); [| done].
  pose proof (cancel_transaction_refer id s Href) as Hc.
  by destruct (TicketsRepository.cancelTicketWithTransaction id s)
    as [[[r | e] s'] t].
Qed.

(** X17. Every operation of the ticket service keeps each ticket
    referring to a showtime of the store: purchase, cancellation,
    removal and update. A purchase that returns has stored its ticket
    under a showtime that exists. *)
Theorem ticket_operations_keep_references now s :
  ticketsRefer s →
  (∀ showtimeId dto,
     ticketsRefer
       (store_after (TicketsService.purchaseTicket now showtimeId dto s))) ∧
  (∀ id, ticketsRefer (store_after (TicketsService.cancelTicket now id s))) ∧
  (∀ id, ticketsRefer (store_after (TicketsServiceRest.remove now id s))) ∧
  (∀ id dto,
     ticketsRefer (store_after (TicketsService.update now id dto s))).
Proof.
  intros Href. split; [| split; [| split]].
  - intros showtimeId dto. rewrite purchaseTicket_paths. simpl.
    destruct (showtimes s !! showtimeId) as [x |]; [| done].
    destruct (Showtime.start_time x <=? now); [done |].
    destruct (TicketsService.isValidEmail _); [| done].
    destruct (TicketsService.isValidSeatNumber _); [| done].
    pose proof (purchase_transaction_refer showtimeId (cleanData dto) s Href)
      as Hp.
    by destruct (TicketsRepository.purchaseTicketWithTransaction _ _ s)
      as [[[r | e] s'] t].
  - intros id. by apply cancel_refer.
  - intros id. rewrite ticket_remove_paths. simpl.
    assert (Hdel : ∀ s0, ticketsRefer s0 →
              ticketsRefer (set_tickets (delete id) s0)).
    { intros s0 H0 j t Ht. simpl in *.
      apply lookup_delete_Some in Ht as [_ Ht]. by apply (H0 j). }
    destruct (tickets s !! id) as [x |]; [| done].
    destruct (bool_decide _); [| by apply Hdel].
    pose proof (cancel_refer now id s Href) as Hc.
    destruct (TicketsService.cancelTicket now id s) as [[[r | e] s'] t];
      [by apply Hdel | done].
  - intros id dto.
    destruct (ticket_update_paths now id dto s)
      as [[Hs _] | (x & sh & Hx & Hsh & _ & _ & _ & _ & Hs)];
      rewrite Hs; [done |].
    intros j t Ht. simpl in *.
    destruct (decide (j = id)) as [-> | Hne].
    + rewrite lookup_alter_eq, Hx in Ht. simpl in Ht. injection Ht as <-.
      simpl. by eexists.
    + rewrite lookup_alter_ne in Ht by done. by apply (Href j).
Qed.

Lemma ticket_operations_keep_references_witness :
  ticketsRefer
    (store_after
       (TicketsService.purchaseTicket 500 "s1"
          (PurchaseTicketDto.mk "Bob" "bob@x.io" "A-2") boxOffice)).
Proof.
  apply (proj1 (ticket_operations_keep_references 500 boxOffice
    ltac:(intros id x Hx; unfold boxOffice in Hx; simpl in Hx;
          apply lookup_singleton_Some in Hx as [_ <-];
          vm_compute; by eexists))).
Defined.

(* ================================================================== *)
(** * Removing a theater *)
(* ================================================================== *)

Lemma refersToTheater_existsb s id :
  existsb (Statements.refersToTheater id) (map_to_list (showtimes s)) = true ↔
  ∃ y, y ∈ Statements.showtimesOf s id.
Proof.
  rewrite existsb_exists. split.
  - intros ([j x] & Hin & Hx). apply list_elem_of_In in Hin.
    apply elem_of_map_to_list in Hin. apply bool_decide_eq_true in Hx.
    exists (j, x). by apply showtimesOf_spec.
  - intros ([j x] & Hy). apply showtimesOf_spec in Hy as [Hj Hx].
    exists (j, x). split.
    + apply list_elem_of_In. by apply elem_of_map_to_list.
    + by apply bool_decide_eq_true.
Qed.

Lemma theater_remove_paths now id s :
  let r := TheatersService.remove now id s in
  (result r, store_after r) =
  match theaters s !! id with
  | None => (Throw (TheaterNotFound id), s)
  | Some _ =>
      if existsb (λ showtime : entity Showtime.t,
                    Showtime.start_time showtime.2 >? now)
                 (Statements.showtimesOf s id)
      then (Throw TheatersService.UpcomingShowtimes, s)
      else if existsb (Statements.refersToTheater id)
                      (map_to_list (showtimes s))
      then (Throw (Statements.foreignKeyViolation "theaters"
                     "FK_442e7b97bf05cb6e1a3fd3746d4" "showtimes"), s)
      else (Return tt, Statements.set_theaters (delete id) s)
  end.
Proof.
  unfold TheatersService.remove, TheatersRepositoryRest.findWithShowtimes,
    TheatersRepositoryRest.delete, Statements.findTheaterWithShowtimes,
    Statements.deleteTheater, bind, require, ret, throw, result, store_after.
  simpl. destruct (theaters s !! id) as [th |]; simpl; [| done].
  destruct (existsb _ (Statements.showtimesOf s id)); simpl; [done |].
  by destruct (existsb _ (map_to_list (showtimes s))).
Qed.

(** X18. Removing a theater: an unknown id fails with not-found; a
    theater with a showtime that starts after the instant of the request
    is refused with the upcoming-showtimes conflict; a theater whose
    showtimes have all started is refused by the foreign key of the
    showtimes table; only a theater without any showtime is deleted, and
    then nothing else is written. In every case the store is left with
    each showtime still in a theater of the store. *)
Theorem theater_remove_only_when_empty now id s :
  let r := TheatersService.remove now id s in
  (theaters s !! id = None → result r = Throw (TheaterNotFound id)) ∧
  (∀ j x, is_Some (theaters s !! id) →
     showtimes s !! j = Some x → Showtime.theater_id x = id →
     now < Showtime.start_time x →
     result r = Throw TheatersService.UpcomingShowtimes) ∧
  (∀ j x, is_Some (theaters s !! id) →
     showtimes s !! j = Some x → Showtime.theater_id x = id →
     (∀ k y, showtimes s !! k = Some y → Showtime.theater_id y = id →
        Showtime.start_time y ≤ now) →
     result r = Throw (Statements.foreignKeyViolation "theaters"
                         "FK_442e7b97bf05cb6e1a3fd3746d4" "showtimes")) ∧
  (is_Some (theaters s !! id) →
     (∀ j x, showtimes s !! j = Some x → Showtime.theater_id x ≠ id) →
     result r = Return tt ∧
     store_after r = Statements.set_theaters (delete id) s) ∧
  (∀ e, result r = Throw e → store_after r = s) ∧
  (showtimesHoused s → showtimesHoused (store_after r)).
Proof.
  intros r. pose proof (theater_remove_paths now id s) as Hp. simpl in Hp.
  fold r in Hp.
  assert (Hup : existsb (λ showtime : entity Showtime.t,
                           Showtime.start_time showtime.2 >? now)
                        (Statements.showtimesOf s id) = true ↔
                ∃ j x, showtimes s !! j = Some x ∧
                       Showtime.theater_id x = id ∧ now < Showtime.start_time x).
  { rewrite existsb_exists. split.
    - intros ([j x] & Hin & Hx). apply list_elem_of_In in Hin.
      apply showtimesOf_spec in Hin as [Hj Hid]. simpl in *.
      exists j, x. repeat split; try done. apply Z.gtb_gt in Hx. lia.
    - intros (j & x & Hj & Hid & Hx). exists (j, x). split.
      + apply list_elem_of_In. by apply showtimesOf_spec.
      + simpl. apply Z.gtb_gt. lia. }
  assert (Hfk : existsb (Statements.refersToTheater id)
                        (map_to_list (showtimes s)) = true ↔
                ∃ j x, showtimes s !! j = Some x ∧ Showtime.theater_id x = id).
  { rewrite refersToTheater_existsb. split.
    - intros ([j x] & Hy). apply showtimesOf_spec in Hy as [Hj Hx].
      by exists j, x.
    - intros (j & x & Hj & Hx). exists (j, x). by apply showtimesOf_spec. }
  destruct (theaters s !! id) as [th |] eqn:Hth.
  2:{ injection Hp as Hr Hs. rewrite Hr, Hs.
      split; [done |]. split; [by intros j x [? ?] |].
      split; [by intros j x [? ?] |]. split; [by intros [? ?] |].
      by split. }
  destruct (existsb _ (Statements.showtimesOf s id)) eqn:Hu.
  { injection Hp as Hr Hs. rewrite Hr, Hs.
    destruct (proj1 Hup eq_refl) as (j0 & x0 & Hj0 & Hid0 & Hx0).
    split; [done |]. split; [done |].
    split.
    { intros j x _ Hj Hid Hall. specialize (Hall j0 x0 Hj0 Hid0). lia. }
    split.
    { intros _ Hnone. by destruct (Hnone j0 x0 Hj0). }
    by split. }
  assert (Hpast : ∀ j x, showtimes s !! j = Some x →
            Showtime.theater_id x = id → ¬ now < Showtime.start_time x).
  { intros j x Hj Hid Hx.
    assert (false = true) as Ht by (apply Hup; by exists j, x).
    discriminate. }
  destruct (existsb _ (map_to_list (showtimes s))) eqn:Hf.
  { injection Hp as Hr Hs. rewrite Hr, Hs.
    destruct (proj1 Hfk eq_refl) as (j0 & x0 & Hj0 & Hid0).
    split; [done |].
    split.
    { intros j x _ Hj Hid Hx. by destruct (Hpast j x). }
    split; [done |].
    split.
    { intros _ Hnone. by destruct (Hnone j0 x0 Hj0). }
    by split. }
  assert (Hnone : ∀ j x, showtimes s !! j = Some x →
            Showtime.theater_id x ≠ id).
  { intros j x Hj Hid.
    assert (false = true) as Ht by (apply Hfk; by exists j, x).
    discriminate. }
  injection Hp as Hr Hs. rewrite Hr, Hs.
  split; [done |].
  split.
  { intros j x _ Hj Hid. by destruct (Hnone j x). }
  split.
  { intros j x _ Hj Hid. by destruct (Hnone j x). }
  split; [done |].
  split.
  { by intros e. }
  intros Hh j x Hj. simpl in *.
  rewrite lookup_delete_ne by (intros Heq; by apply (Hnone j x Hj)).
  by apply (Hh j).
Qed.

Lemma theater_remove_only_when_empty_witness :
  result (TheatersService.remove 500 "t1" boxOffice)
  = Throw TheatersService.UpcomingShowtimes.
Proof.
  apply (proj1 (proj2 (theater_remove_only_when_empty 500 "t1" boxOffice))
           "s1" evening).
  - by eexists.
  - vm_compute. reflexivity.
  - reflexivity.
  - vm_compute. reflexivity.
Defined.
